(** * GPU histogram computation: a shallow embedding of [main.cu] and
      [tester.cpp], and the properties of the specification checked on it.

    The embedding follows the sources function by function.

    - C++ [int] is a 32-bit two's-complement integer.  Values are carried as
      [Z]; every arithmetic result that the code stores in an [int] goes
      through [wrap32]: signed overflow, which C++ leaves undefined, is taken
      as the wrap-around of the machine.  CUDA's [threadIdx.x], [blockIdx.x], [blockDim.x] and
      [gridDim.x] are [unsigned int]; an unsigned expression assigned to an
      [int] is reduced modulo [2^32] and read back as signed, which is again
      [wrap32] of the exact value.
    - Arrays are lists.  An access outside the array is undefined behaviour
      in the source; the model makes it an explicit [Fault].
    - Loops carry fuel; running out of it is the outcome [OutOfFuel] and the
      theorems show how much fuel is enough.
    - A kernel is the code of one thread.  The threads of a block are run
      phase by phase (a phase ends at [__syncthreads()] or at the end of the
      kernel), in thread order inside a phase, and the blocks of a grid one
      after the other.  All the writes of the kernels to memory that other
      threads see are [atomicAdd]s, which commute ([atomicAdd_comm]), and
      stores of [0] to cells no other thread touches in that phase; the
      kernels with barriers are also run under any other order of the blocks
      and of the threads in a phase ([run_grid_in]), with the same result
      ([optimized_adds_in], [shared_adds_in]).
    - The host code checks no return value of the CUDA runtime.  What the
      runtime does is taken from its documentation: a launch outside the
      limits of the device is refused and runs nothing, and after a fault in
      a kernel the copy back to the host fails.  Memory is there when it is
      asked for: [new int[n]] throws for a negative [n] only, and the
      allocations and copies on the device succeed. *)

From Stdlib Require Import ZArith List Lia Bool Ascii String.
From stdpp Require Import base tactics option list numbers strings pretty gmap.

Open Scope Z_scope.

(** ** 32-bit integers *)

Definition INT_MAX : Z := 2147483647.
Definition INT_MIN : Z := -2147483648.

(** The value an [int] holds after a computation whose exact result is [z]. *)
Definition wrap32 (z : Z) : Z := (z + 2147483648) mod 4294967296 - 2147483648.

Definition in_int (z : Z) : Prop := INT_MIN <= z <= INT_MAX.

(** ** Outcomes of a computation *)

Inductive outcome (A : Type) : Type :=
| Done (a : A)        (* ran to completion *)
| Fault               (* an access outside an array: undefined behaviour *)
| OutOfFuel.          (* the fuel given to a loop did not suffice *)

Arguments Done {A} a.
Arguments Fault {A}.
Arguments OutOfFuel {A}.

#[global] Instance outcome_ret : MRet outcome := fun A a => Done a.
#[global] Instance outcome_bind : MBind outcome := fun A B k m =>
  match m with
  | Done a => k a
  | Fault => Fault
  | OutOfFuel => OutOfFuel
  end.

(** Left-to-right iteration of a fallible step over a list. *)
Fixpoint foldM {A S : Type} (f : A -> S -> outcome S) (l : list A) (s : S) : outcome S :=
  match l with
  | [] => Done s
  | a :: l' => s' ← f a s; foldM f l' s'
  end.

(** ** Arrays *)

(** [m[i]] read. *)
Definition load {A : Type} (m : list A) (i : Z) : outcome A :=
  if i <? 0 then Fault
  else match m !! Z.to_nat i with
       | Some v => Done v
       | None => Fault
       end.

(** [m[i] = v]. *)
Definition store {A : Type} (m : list A) (i : Z) (v : A) : outcome (list A) :=
  if (0 <=? i) && (i <? Z.of_nat (length m)) then Done (<[Z.to_nat i := v]> m)
  else Fault.

(** [atomicAdd(&m[i], v)] on an [int] array: one indivisible
    read-modify-write; the sum is stored in an [int]. *)
Definition atomicAdd (m : list Z) (i : Z) (v : Z) : outcome (list Z) :=
  old ← load m i; store m i (wrap32 (old + v)).

(** ** [for (int i = start; i < bound; i += step) body] *)

Fixpoint for_loop {S : Type} (fuel : nat) (i bound step : Z)
    (body : Z -> S -> outcome S) (s : S) : outcome S :=
  if i <? bound then
    match fuel with
    | O => OutOfFuel
    | S fuel' =>
        s' ← body i s;
        for_loop fuel' (wrap32 (i + step)) bound step body s'
    end
  else Done s.

(** ** Launch geometry and the built-in variables of one thread *)

Record dim3 : Type := { gridDim_x : Z; blockDim_x : Z }.

Record thread : Type := {
  gridDim : Z;
  blockDim : Z;
  blockIdx : Z;
  threadIdx : Z
}.

Definition thread_of (g : dim3) (b t : Z) : thread :=
  {| gridDim := gridDim_x g; blockDim := blockDim_x g; blockIdx := b; threadIdx := t |}.

(** The threads of block [b], and the blocks of the grid, in index order. *)
Definition block_threads (g : dim3) (b : Z) : list thread :=
  thread_of g b <$> seqZ 0 (blockDim_x g).

Definition grid_blocks (g : dim3) : list Z := seqZ 0 (gridDim_x g).

(** ** The kernels of [main.cu] *)

(** Samples read through [const unsigned char*]. *)
Abbreviation uchar := Byte.byte.
Definition uchar_val (c : uchar) : Z := Z.of_N (Byte.to_N c).

#[global] Instance uchar_inhabited : Inhabited uchar := populate Byte.x00.

Module Naive.

(** The whole kernel: one thread, one sample. *)
Definition thread_body (input : list uchar) (N numBins : Z) (c : thread)
    (histogram : list Z) : outcome (list Z) :=
  let idx := wrap32 (blockIdx c * blockDim c + threadIdx c) in
  if idx <? N then
    v ← load input idx;
    atomicAdd histogram (uchar_val v) 1
  else Done histogram.

End Naive.

(** [computeHistogramNaive<<<g>>>(input, histogram, N, numBins)]: the value of
    [histogram] when the kernel has completed. *)
Definition computeHistogramNaive (g : dim3) (input : list uchar)
    (histogram : list Z) (N numBins : Z) : outcome (list Z) :=
  foldM (fun b h => foldM (Naive.thread_body input N numBins) (block_threads g b) h)
        (grid_blocks g) histogram.

(** A kernel with the two barriers of the shared-memory kernels: what a
    thread does to the block's shared array before the first barrier and
    between the two, and what it does to global memory after the second. *)
Record phased_kernel : Type := {
  before_barrier1 : thread -> list Z -> outcome (list Z);
  before_barrier2 : thread -> list Z -> outcome (list Z);
  after_barrier2 : thread -> list Z -> list Z -> outcome (list Z)
}.

(** One block: [sharedHist] starts with whatever the hardware left there. *)
Definition run_block (k : phased_kernel) (g : dim3) (sharedHist0 : list Z)
    (b : Z) (histogram : list Z) : outcome (list Z) :=
  let ts := block_threads g b in
  s1 ← foldM (before_barrier1 k) ts sharedHist0;
  s2 ← foldM (before_barrier2 k) ts s1;
  foldM (fun c h => after_barrier2 k c s2 h) ts histogram.

Definition run_grid (k : phased_kernel) (g : dim3) (sharedHist0 : list Z)
    (histogram : list Z) : outcome (list Z) :=
  foldM (run_block k g sharedHist0) (grid_blocks g) histogram.

(** The hardware fixes neither the order of the blocks nor, between two
    barriers, the order of the threads of a block.  A schedule names one:
    the order in which the blocks run and, for every block and each of its
    three phases, the order of its threads. *)
Record schedule : Type := {
  block_order : list Z;
  thread_order : Z -> nat -> list Z
}.

Definition run_block_in (sched : schedule) (k : phased_kernel) (g : dim3)
    (sharedHist0 : list Z) (b : Z) (histogram : list Z) : outcome (list Z) :=
  let ts phase := thread_of g b <$> thread_order sched b phase in
  s1 ← foldM (before_barrier1 k) (ts 0%nat) sharedHist0;
  s2 ← foldM (before_barrier2 k) (ts 1%nat) s1;
  foldM (fun c h => after_barrier2 k c s2 h) (ts 2%nat) histogram.

Definition run_grid_in (sched : schedule) (k : phased_kernel) (g : dim3)
    (sharedHist0 : list Z) (histogram : list Z) : outcome (list Z) :=
  foldM (run_block_in sched k g sharedHist0) (block_order sched) histogram.

(** Index order, as in [run_grid]. *)
Definition in_order (g : dim3) : schedule :=
  {| block_order := seqZ 0 (gridDim_x g);
     thread_order := fun _ _ => seqZ 0 (blockDim_x g) |}.

(** A schedule of the launch [g] runs every block once and, in every phase
    of a block, every thread of the block once. *)
Definition schedule_of (g : dim3) (sched : schedule) : Prop :=
  block_order sched ≡ₚ seqZ 0 (gridDim_x g) /\
  forall b phase, thread_order sched b phase ≡ₚ seqZ 0 (blockDim_x g).

Module Shared.
Section Kernel.
Variables (fuel : nat) (input : list uchar) (N numBins : Z).

(** Lines 20-22. *)
Definition zero_shared (c : thread) (sharedHist : list Z) : outcome (list Z) :=
  for_loop fuel (wrap32 (threadIdx c)) numBins (blockDim c)
    (fun i sh => store sh i 0) sharedHist.

(** Line 26: one sample, counted as it is read. *)
Definition count_sample (i : Z) (sharedHist : list Z) : outcome (list Z) :=
  v ← load input i; atomicAdd sharedHist (uchar_val v) 1.

(** Lines 25-27. *)
Definition accumulate (c : thread) (sharedHist : list Z) : outcome (list Z) :=
  for_loop fuel (wrap32 (blockIdx c * blockDim c + threadIdx c)) N
    (blockDim c * gridDim c) count_sample sharedHist.

(** Lines 30-34. *)
Definition reduce (c : thread) (sharedHist histogram : list Z) : outcome (list Z) :=
  for_loop fuel (wrap32 (threadIdx c)) numBins (blockDim c)
    (fun i h =>
       v ← load sharedHist i;
       if 0 <? v then atomicAdd h i v else Done h)
    histogram.

Definition kernel : phased_kernel :=
  {| before_barrier1 := zero_shared;
     before_barrier2 := accumulate;
     after_barrier2 := reduce |}.
End Kernel.
End Shared.

(** [computeHistogramShared<<<g, sharedMem>>>(input, histogram, N, numBins)],
    [sharedHist0] being the dynamic shared array as a block finds it. *)
Definition computeHistogramShared (fuel : nat) (g : dim3) (sharedHist0 : list Z)
    (input : list uchar) (histogram : list Z) (N numBins : Z) : outcome (list Z) :=
  run_grid (Shared.kernel fuel input N numBins) g sharedHist0 histogram.

Module Optimized.
Section Kernel.
Variables (fuel : nat) (input : list Z) (N numBins : Z).

Definition elementsPerThread : Z := 12.

(** [int localHist[32] = {0}]. *)
Definition localHist0 : list Z := replicate 32 0.

(** Lines 46-48. *)
Definition zero_shared (c : thread) (sharedHist : list Z) : outcome (list Z) :=
  for_loop fuel (wrap32 (threadIdx c)) numBins (blockDim c)
    (fun i sh => store sh i 0) sharedHist.

Definition tid (c : thread) : Z := wrap32 (blockIdx c * blockDim c + threadIdx c).
Definition stride (c : thread) : Z := wrap32 (blockDim c * gridDim c).

(** Lines 66-71: the value put in [values[i]]. *)
Definition prefetch_slot (base strd i : Z) : outcome Z :=
  let idx := wrap32 (base + wrap32 (i * strd)) in
  if idx <? N then load input idx else Done (-1).

(** Lines 65-72: the prefetch loop, [i = 0 .. 11]. *)
Fixpoint prefetch (base strd : Z) (slots : list Z) : outcome (list Z) :=
  match slots with
  | [] => Done []
  | i :: rest =>
      v ← prefetch_slot base strd i;
      vs ← prefetch base strd rest;
      Done (v :: vs)
  end.

(** Lines 77-84: one prefetched value. *)
Definition classify (value : Z) (st : list Z * list Z) : outcome (list Z * list Z) :=
  let '(localHist, sharedHist) := st in
  if (0 <=? value) && (value <? numBins) then
    if value <? 32 then
      old ← load localHist value;
      l' ← store localHist value (wrap32 (old + 1));
      Done (l', sharedHist)
    else
      s' ← atomicAdd sharedHist value 1;
      Done (localHist, s')
  else Done st.

(** Lines 61-85: the body of the chunk loop. *)
Definition chunk (strd : Z) (base : Z) (st : list Z * list Z) : outcome (list Z * list Z) :=
  values ← prefetch base strd (seqZ 0 elementsPerThread);
  foldM classify values st.

(** Lines 90-94. *)
Definition combine_local (i : Z) (st : list Z * list Z) : outcome (list Z * list Z) :=
  let '(localHist, sharedHist) := st in
  v ← load localHist i;
  if 0 <? v then
    s' ← atomicAdd sharedHist i v;
    Done (localHist, s')
  else Done st.

(** Lines 40 and 52-94: from the first barrier to the second. *)
Definition accumulate (c : thread) (sharedHist : list Z) : outcome (list Z) :=
  let strd := stride c in
  st ← for_loop fuel (tid c) N (wrap32 (strd * elementsPerThread))
          (chunk strd) (localHist0, sharedHist);
  st' ← foldM combine_local (seqZ 0 32) st;
  Done (snd st').

(** Lines 100-103: one bin of the final reduction. *)
Definition reduce_bin (sharedHist : list Z) (i : Z) (histogram : list Z) : outcome (list Z) :=
  val ← load sharedHist i;
  if 0 <? val then atomicAdd histogram i val else Done histogram.

(** Lines 99-104. *)
Definition reduce (c : thread) (sharedHist histogram : list Z) : outcome (list Z) :=
  for_loop fuel (wrap32 (threadIdx c)) numBins (blockDim c)
    (reduce_bin sharedHist) histogram.

Definition kernel : phased_kernel :=
  {| before_barrier1 := zero_shared;
     before_barrier2 := accumulate;
     after_barrier2 := reduce |}.
End Kernel.
End Optimized.

(** [computeHistogramOptimized<<<g, sharedMem>>>(input, histogram, N, numBins)]. *)
Definition computeHistogramOptimized (fuel : nat) (g : dim3) (sharedHist0 : list Z)
    (input : list Z) (histogram : list Z) (N numBins : Z) : outcome (list Z) :=
  run_grid (Optimized.kernel fuel input N numBins) g sharedHist0 histogram.

(** [computeHistogramCPU(input, histogram, N, numBins)] (lines 108-116). *)
Definition computeHistogramCPU (fuel : nat) (input : list uchar) (histogram : list Z)
    (N numBins : Z) : outcome (list Z) :=
  h0 ← for_loop fuel 0 numBins 1 (fun i h => store h i 0) histogram;
  for_loop fuel 0 N 1
    (fun i h =>
       v ← load input i;
       old ← load h (uchar_val v);
       store h (uchar_val v) (wrap32 (old + 1)))
    h0.


(** ** The host side of [main.cu] *)

(** Files hold 4-byte integers; a file system maps paths to contents. *)
Abbreviation files := (gmap string (list Z)).

(** [std::filesystem::path::operator/]. *)
Definition path_join (dir name : string) : string := dir +:+ "/" +:+ name.

(** What the code asks of the CUDA runtime, in the order it asks. *)
Inductive cuda_call : Type :=
| cudaMalloc (bytes : Z)
| cudaStreamCreate
| cudaHostRegister (bytes : Z)
| cudaMemcpyAsync_HostToDevice (bytes : Z)
| cudaMemsetAsync (bytes : Z)
| cudaGetDeviceCount
| cudaGetDeviceProperties
| cudaLaunchKernel (grid block sharedMem : Z)
| cudaStreamSynchronize
| cudaMemcpyAsync_DeviceToHost (bytes : Z)
| cudaHostUnregister
| cudaFree
| cudaStreamDestroy.

(** The device as the code sees it.  The limits are the runtime's: a launch
    outside them is refused with an error code and runs nothing.  The
    dynamic shared array of a block starts with stale data. *)
Record device : Type := {
  deviceCount : Z;
  multiProcessorCount : Z;
  sharedMemPerBlock : Z;
  maxThreadsPerBlock : Z;
  maxGridSize : Z;
  stale_shared : Z -> Z
}.

Definition launch_accepted (dev : device) (grid block sharedMem : Z) : bool :=
  (0 <? deviceCount dev) &&
  (1 <=? grid) && (grid <=? maxGridSize dev) &&
  (1 <=? block) && (block <=? maxThreadsPerBlock dev) &&
  (0 <=? sharedMem) && (sharedMem <=? sharedMemPerBlock dev).

(** [computeHistogramOptimized<<<gridSize, blockSize, sharedMemSize, stream>>>]
    on the device: the histogram in device memory afterwards. *)
Definition launch_optimized (fuel : nat) (dev : device) (gridSize blockSize sharedMemSize : Z)
    (d_input d_histogram : list Z) (N B : Z) : outcome (list Z) :=
  if launch_accepted dev gridSize blockSize sharedMemSize then
    computeHistogramOptimized fuel {| gridDim_x := gridSize; blockDim_x := blockSize |}
      (stale_shared dev <$> seqZ 0 (sharedMemSize `quot` 4))
      d_input d_histogram N B
  else Done d_histogram.

(** [input_fs.read(buffer, N * sizeof(int))] into a zeroed buffer of [N]
    ints: what the file has, as far as it goes. *)
Definition read_ints (content : option (list Z)) (N : Z) : list Z :=
  take (Z.to_nat N) ((wrap32 <$> default [] content) ++ replicate (Z.to_nat N) 0).

Inductive host_result (A : Type) : Type :=
| Returned (a : A)             (* the call returned [a] *)
| Thrown (what : string)       (* a [std::exception] left the call *)
| Unfinished.                  (* the kernel did not finish within the fuel *)

Arguments Returned {A} a.
Arguments Thrown {A} what.
Arguments Unfinished {A}.

(** A call of [compute]: its result, the files afterwards and the CUDA calls
    it made. *)
Record run : Type := {
  result : host_result string;
  files_after : files;
  cuda_calls : list cuda_call
}.

Module solution.
Section Compute.
Variables (fuel : nat) (dev : device) (temp_directory_path : string).

Definition blockSize : Z := 1024.

(** Line 159-165. *)
Definition numSMs : Z :=
  if 0 <? deviceCount dev then multiProcessorCount dev else 80.

(** Lines 168-172, in [int] arithmetic; [/] truncates. *)
Definition gridSize (N : Z) : Z :=
  let gridSize := wrap32 (wrap32 (wrap32 (numSMs * 2048) + blockSize) - 1) `quot` blockSize in
  let maxGridSize :=
    wrap32 (wrap32 (N + wrap32 (blockSize * 12)) - 1) `quot` wrap32 (blockSize * 12) in
  if maxGridSize <? gridSize then maxGridSize else gridSize.

(** Line 175: [B * sizeof(int)] is a [size_t], stored in an [int]. *)
Definition sharedMemSize (B : Z) : Z := wrap32 (B * 4).

Definition sol_path : string := path_join temp_directory_path "student_histogram.dat".

Definition compute (fs : files) (input_path : string) (N B : Z) : run :=
  (* 121: the output file is created, or emptied, at once *)
  let fs := <[sol_path := []]> fs in
  (* 125: [new int[N]()] *)
  if N <? 0 then
    {| result := Thrown "std::bad_array_new_length"; files_after := fs; cuda_calls := [] |}
  else
  (* 122-127 *)
  let input_data := read_ints (fs !! input_path) N in
  (* 130-133 *)
  if B <? 0 then
    {| result := Thrown "std::bad_array_new_length"; files_after := fs; cuda_calls := [] |}
  else
  let histogram := replicate (Z.to_nat B) 0 in
  (* 149-150 *)
  let d_input := input_data in
  let d_histogram := replicate (Z.to_nat B) 0 in
  let before_launch :=
    [cudaMalloc (N * 4); cudaMalloc (B * 4); cudaStreamCreate;
     cudaHostRegister (N * 4); cudaMemcpyAsync_HostToDevice (N * 4);
     cudaMemsetAsync (B * 4); cudaGetDeviceCount] ++
    (if 0 <? deviceCount dev then [cudaGetDeviceProperties] else []) in
  let after_launch :=
    [cudaStreamSynchronize; cudaMemcpyAsync_DeviceToHost (B * 4); cudaStreamSynchronize;
     cudaHostUnregister; cudaFree; cudaFree; cudaStreamDestroy] in
  let calls :=
    before_launch ++ [cudaLaunchKernel (gridSize N) blockSize (sharedMemSize B)]
                  ++ after_launch in
  (* 176-183 *)
  match launch_optimized fuel dev (gridSize N) blockSize (sharedMemSize B)
          d_input d_histogram N B with
  | OutOfFuel => {| result := Unfinished; files_after := fs; cuda_calls := calls |}
  | kernel =>
      let histogram :=
        match kernel with
        | Done d_histogram => d_histogram
        | _ => histogram      (* the copy back fails after a device fault *)
        end in
      (* 192-195 *)
      {| result := Returned sol_path;
         files_after := <[sol_path := histogram]> fs;
         cuda_calls := calls |}
  end.
End Compute.
End solution.

(** ** The harness: [tester.cpp] *)

(** How a process ends. *)
Inductive status : Type :=
| Exit (code : Z)       (* [exit(code)] or [return code] from [main] *)
| Crash                 (* undefined behaviour: an access outside an array *)
| NoAnswer.             (* [compute] did not finish within the fuel *)

Record process_end : Type := {
  exit_status : status;
  stdout : list string;     (* the lines written to [std::cout] *)
  stderr : list string;     (* the lines written to [std::cerr] *)
  files_end : files
}.

Definition EXIT_SUCCESS : Z := 0.

(** Lines 13-17. *)
Definition __terminate_gracefully (msg : string)
    (out err : list string) (fs : files) : process_end :=
  {| exit_status := Exit EXIT_SUCCESS;
     stdout := out ++ ["-1"];
     stderr := err ++ [msg];
     files_end := fs |}.

(** [std::atoi]: blanks, a sign, digits; [0] when there is no digit. *)
Definition is_space (c : ascii) : bool :=
  let n := Ascii.nat_of_ascii c in
  (n =? 32)%nat || ((9 <=? n)%nat && (n <=? 13)%nat).

Definition digit_of (c : ascii) : option Z :=
  let n := Z.of_nat (Ascii.nat_of_ascii c) in
  if (48 <=? n) && (n <=? 57) then Some (n - 48) else None.

Fixpoint atoi_digits (s : string) (acc : Z) : Z :=
  match s with
  | String c rest =>
      match digit_of c with
      | Some d => atoi_digits rest (acc * 10 + d)
      | None => acc
      end
  | EmptyString => acc
  end.

Fixpoint atoi (s : string) : Z :=
  match s with
  | String c rest =>
      if is_space c then atoi rest
      else if Ascii.eqb c "-" then wrap32 (- atoi_digits rest 0)
      else if Ascii.eqb c "+" then wrap32 (atoi_digits rest 0)
      else wrap32 (atoi_digits s 0)
  | EmptyString => 0
  end.

(** What the harness takes from its surroundings. *)
Record environment : Type := {
  temp_directory_path : string;
  files_start : files;
  random_device : Z;                       (* [rd()] *)
  random_value : Z -> Z -> Z -> Z;         (* seed, [B], position: one draw of the generator *)
  the_device : device;
  elapsed_ms : Z                           (* [duration.count()] *)
}.

Module tester.
Section Main.
Variables (fuel : nat) (env : environment).

(** Lines 70-75: the reference histogram. *)
Definition reference_histogram (input_data : list Z) (N B : Z) : outcome (list Z) :=
  foldM (fun i histogram =>
           v ← load input_data i;
           old ← load histogram v;
           store histogram v (wrap32 (old + 1)))
        (seqZ 0 N) (replicate (Z.to_nat B) 0).

(** Lines 99-105: the first bin at which the two histograms differ. *)
Fixpoint first_mismatch (i : Z) (sol_hist student_hist : list Z) : option (Z * Z * Z) :=
  match sol_hist, student_hist with
  | x :: sol', y :: student' =>
      if decide (x = y) then first_mismatch (i + 1) sol' student' else Some (i, x, y)
  | _, _ => None
  end.

Definition main (argv : list string) : process_end :=
  let argc := Z.of_nat (length argv) in
  let fs := files_start env in
  let tmp := temp_directory_path env in
  (* 28 *)
  if argc <? 3 then
    __terminate_gracefully "Usage: ./tester.out <N> <B> <optional:seed>" [] [] fs
  else
  (* 29-31 *)
  let seed := if 3 <? argc then atoi (argv !!! 3%nat) else random_device env in
  let N := atoi (argv !!! 1%nat) in
  let B := atoi (argv !!! 2%nat) in
  (* 40-41 *)
  let input_path := path_join tmp ("input-" +:+ pretty N +:+ ".dat") in
  let out := ["[1/4] Looking for input file"] in
  (* 43-59: [gen_input(input_path, N)]; [new int[N]()] throws for [N < 0] *)
  if N <? 0 then __terminate_gracefully "std::bad_array_new_length" out [] fs
  else
  let found := bool_decide (is_Some (fs !! input_path)) in
  if negb found && (0 <? N) && (B <=? 0) then
    (* [uniform_int_distribution(0, B-1)] with [B-1 < 0] *)
    {| exit_status := Crash; stdout := out; stderr := []; files_end := fs |}
  else
  let input_data :=
    if found then read_ints (fs !! input_path) N
    else random_value env seed B <$> seqZ 0 N in
  let out :=
    out ++ [if found
            then "	- Input file: " +:+ input_path +:+ " found, using existing input file"
            else "	- Input file not found. Creating new test data: " +:+ input_path] in
  let fs := if found then fs else <[input_path := input_data]> fs in
  (* 62-63 *)
  let sol_path := path_join tmp ("sol-" +:+ pretty N +:+ "-" +:+ pretty B +:+ ".dat") in
  let out := out ++ ["[2/4] Looking for verification file " +:+ sol_path] in
  (* 65-79 *)
  let have_sol := bool_decide (is_Some (fs !! sol_path)) in
  let out :=
    out ++ [if have_sol
            then "[3/4] Verification file found, using existing verification data"
            else "[3/4] Verification file not found. Creating new verification data"] in
  if negb have_sol && (B <? 0) then
    __terminate_gracefully "std::bad_array_new_length" out [] fs
  else
  match (if have_sol then Done fs
         else histogram ← reference_histogram input_data N B;
              Done (<[sol_path := histogram]> fs)) with
  | Fault | OutOfFuel =>
      {| exit_status := Crash; stdout := out; stderr := []; files_end := fs |}
  | Done fs =>
  (* 83-87 *)
  let out := out ++ ["[4/4] Running student solution"] in
  let r := solution.compute fuel (the_device env) tmp fs input_path N B in
  match result r with
  | Unfinished =>
      {| exit_status := NoAnswer; stdout := out; stderr := []; files_end := files_after r |}
  | Thrown what => __terminate_gracefully what out [] (files_after r)
  | Returned student_sol_path =>
  let fs := files_after r in
  (* 90-97 *)
  if B <? 0 then __terminate_gracefully "std::bad_array_new_length" out [] fs
  else
  let sol_hist := read_ints (fs !! sol_path) B in
  let student_hist := read_ints (fs !! student_sol_path) B in
  (* 99-105 *)
  match first_mismatch 0 sol_hist student_hist with
  | Some (i, expected, got) =>
      __terminate_gracefully
        ("Histogram mismatch at bin " +:+ pretty i +:+ ": expected " +:+ pretty expected
           +:+ ", got " +:+ pretty got)
        out [] fs
  | None =>
  (* 107-113 *)
  {| exit_status := Exit EXIT_SUCCESS;
     stdout := out ++ ["Execution time: " +:+ pretty (elapsed_ms env) +:+ " ms"];
     stderr := [];
     files_end := delete student_sol_path fs |}
  end end end.
End Main.
End tester.

(* ------------------------------------------------------------------ *)
(** * The vocabulary of the properties *)

(** ** Counting *)

Fixpoint sumZ (l : list Z) : Z :=
  match l with
  | [] => 0
  | x :: l' => x + sumZ l'
  end.

(** How many entries of [vs] equal [b]. *)
Definition count_of (b : Z) (vs : list Z) : Z :=
  sumZ ((fun v => if decide (v = b) then 1 else 0) <$> vs).

(** The histogram of [samples] over the bins [0 .. numBins). *)
Definition histogram_of (numBins : Z) (samples : list Z) : list Z :=
  (fun b => count_of b samples) <$> seqZ 0 numBins.

(** How many samples lie in [[0, numBins)]. *)
Definition count_in_range (numBins : Z) (samples : list Z) : Z :=
  sumZ ((fun v => if decide (0 <= v < numBins) then 1 else 0) <$> samples).

(** The samples a byte buffer holds. *)
Definition samples_of (input : list uchar) : list Z := uchar_val <$> input.

(** ** Accumulation into an [int] array *)

Definition int_array (m : list Z) : Prop := Forall in_int m.

(** [m'] is [m] with [f j] added to cell [j], in 32-bit arithmetic. *)
Definition adds (m m' : list Z) (f : Z -> Z) : Prop :=
  length m' = length m /\
  forall (j : nat) x, m !! j = Some x -> m' !! j = Some (wrap32 (x + f (Z.of_nat j))).

(** [histogram] with the counts of [samples] added to it, bin by bin, in
    [int] arithmetic. *)
Definition add_counts (histogram samples : list Z) : list Z :=
  imap (fun b x => wrap32 (x + count_of (Z.of_nat b) samples)) histogram.

(** A computation that comes to an end: with a result that satisfies [P],
    or with an access outside an array. *)
Definition ends_within {A : Type} (P : A -> Prop) (m : outcome A) : Prop :=
  match m with
  | Done a => P a
  | Fault => True
  | OutOfFuel => False
  end.

(** ** Loops and launches *)

(** How many times [for (i = start; i < bound; i += step)] runs its body,
    for a positive step. *)
Definition trip_count (i bound step : Z) : Z :=
  if i <? bound then (bound - i + step - 1) / step else 0.

(** The values [i] takes in the body. *)
Definition loop_indices (i bound step : Z) : list Z :=
  (fun k => i + k * step) <$> seqZ 0 (trip_count i bound step).

(** A launch whose index arithmetic stays within [int]: the grid-stride
    loop of a thread leaves the samples at an index of at most
    [N + unroll * blockDim.x * gridDim.x], and the loops over the bins at
    one of at most [numBins + blockDim.x]. *)
Record launch_ok (unroll : Z) (g : dim3) (N numBins : Z) : Prop := {
  lo_grid : 1 <= gridDim_x g;
  lo_block : 1 <= blockDim_x g;
  lo_N : 0 <= N;
  lo_bins : 0 <= numBins;
  lo_index : N + unroll * (blockDim_x g * gridDim_x g) <= INT_MAX;
  lo_bin_index : numBins + blockDim_x g <= INT_MAX
}.

(** Blocks and threads in another order than by index, for a launch of two
    blocks of three threads. *)
Definition shuffled : schedule :=
  {| block_order := [1; 0];
     thread_order := fun b phase => if decide (b = 0) then [2; 0; 1] else [1; 2; 0] |}.

(** ** One thread of the hierarchical kernel *)

(** What a prefetch slot holds for position [idx]: the sample, or the
    sentinel past the end. *)
Definition sample_at (input : list Z) (N idx : Z) : Z :=
  if (0 <=? idx) && (idx <? N) then input !!! Z.to_nat idx else -1.

(** The values one thread classifies: chunk by chunk, twelve slots a chunk,
    [S] the grid stride and [gid] the global thread index. *)
Definition chunk_values (input : list Z) (N S base : Z) : list Z :=
  (fun i => sample_at input N (base + i * S)) <$> seqZ 0 Optimized.elementsPerThread.

Definition thread_values (input : list Z) (N S gid : Z) : list Z :=
  concat (chunk_values input N S <$> loop_indices gid N (S * Optimized.elementsPerThread)).

(** The state of a thread that has classified the values [seen], in a
    block whose shared array was [sh0] when the thread started. *)
Definition thread_inv (numBins : Z) (sh0 seen : list Z) (st : list Z * list Z) : Prop :=
  length (fst st) = 32%nat /\
  (forall v, 0 <= v < 32 ->
     fst st !! Z.to_nat v = Some (if v <? numBins then count_of v seen else 0)) /\
  adds sh0 (snd st) (fun j => if j <? 32 then 0 else count_of j seen).

(** Lines 90-94 as seen from the shared array: the local histogram [lh]
    does not change. *)
Definition combine_step (lh : list Z) (i : Z) (sh : list Z) : outcome (list Z) :=
  v ← load lh i; if 0 <? v then atomicAdd sh i v else Done sh.

(** ** Devices and the launch planner *)

(** The least integer at or above [a / b]. *)
Definition ceil_div (a b : Z) : Z := - ((- a) / b).

(** A V100 with its default limit of 48 KiB of shared memory a block. *)
Definition v100 : device :=
  {| deviceCount := 1; multiProcessorCount := 80; sharedMemPerBlock := 49152;
     maxThreadsPerBlock := 1024; maxGridSize := 2147483647;
     stale_shared := fun _ => 7 |}.

(** A machine without a CUDA device: [cudaGetDeviceCount] gives [0]. *)
Definition no_device : device :=
  {| deviceCount := 0; multiProcessorCount := 0; sharedMemPerBlock := 0;
     maxThreadsPerBlock := 0; maxGridSize := 0;
     stale_shared := fun _ => 0 |}.

(** A device on which the launch of [compute] is admissible: there is one,
    its 1024 threads a block and its grid of up to two blocks a
    multiprocessor are within the limits, and the numbers fit an [int]. *)
Record capable (dev : device) : Prop := {
  cap_device : 0 < deviceCount dev;
  cap_units : 1 <= multiProcessorCount dev <= 1048575;
  cap_threads : solution.blockSize <= maxThreadsPerBlock dev;
  cap_grid : 2 * multiProcessorCount dev <= maxGridSize dev;
  cap_shared : sharedMemPerBlock dev <= INT_MAX
}.

(** ** Runs of the harness *)


Definition success (env : environment) (e : process_end) : Prop :=
  last (stdout e) = Some ("Execution time: " +:+ pretty (elapsed_ms env) +:+ " ms") /\
  stderr e = [].



(** Two surroundings to run the harness in: an empty temporary directory,
    and one in which an earlier run left a reference histogram that is not
    the histogram of the samples. *)
Definition lab : environment :=
  {| temp_directory_path := "/tmp";
     files_start := ∅;
     random_device := 7;
     random_value := fun seed B i => (seed + i) mod B;
     the_device := v100;
     elapsed_ms := 3 |}.

Definition lab_with_stale_reference : environment :=
  {| temp_directory_path := "/tmp";
     files_start := {[ "/tmp/sol-4-2.dat" := [9; 9] ]};
     random_device := 7;
     random_value := fun seed B i => (seed + i) mod B;
     the_device := v100;
     elapsed_ms := 3 |}.

(** A third: an earlier run left four samples and their histogram over two
    bins. *)
Definition lab_with_cached_files : environment :=
  {| temp_directory_path := "/tmp";
     files_start := {[ "/tmp/input-4.dat" := [0; 1; 1; 0]; "/tmp/sol-4-2.dat" := [2; 2] ]};
     random_device := 7;
     random_value := fun seed B i => (seed + i) mod B;
     the_device := v100;
     elapsed_ms := 3 |}.

(** ** The names of the files *)

(** A string of decimal digits. *)
Fixpoint all_digits (s : string) : bool :=
  match s with
  | EmptyString => true
  | String c rest =>
      match digit_of c with
      | Some _ => all_digits rest
      | None => false
      end
  end.

(* ------------------------------------------------------------------ *)
(** * Properties *)

(** ** 32-bit arithmetic *)

(** Goals on the [int] range. *)
Ltac int_lia := unfold in_int, INT_MIN, INT_MAX; lia.

Lemma wrap32_small z : in_int z -> wrap32 z = z.
Proof.
  unfold in_int, INT_MIN, INT_MAX, wrap32. intros H.
  rewrite Z.mod_small by lia. lia.
Qed.

Lemma wrap32_in_int z : in_int (wrap32 z).
Proof.
  unfold in_int, INT_MIN, INT_MAX, wrap32.
  pose proof (Z.mod_pos_bound (z + 2147483648) 4294967296). lia.
Qed.

Lemma wrap32_add_l a b : wrap32 (wrap32 a + b) = wrap32 (a + b).
Proof.
  unfold wrap32. f_equal.
  replace ((a + 2147483648) mod 4294967296 - 2147483648 + b + 2147483648)
    with ((a + 2147483648) mod 4294967296 + b) by lia.
  rewrite Zplus_mod_idemp_l. f_equal. lia.
Qed.

(** ** The outcome monad *)

Lemma bind_Done {A B} (a : A) (k : A -> outcome B) : (Done a ≫= k) = k a.
Proof. reflexivity. Qed.

Lemma foldM_app {A S} (f : A -> S -> outcome S) l1 l2 s :
  foldM f (l1 ++ l2) s = (foldM f l1 s ≫= foldM f l2).
Proof.
  revert s; induction l1 as [|a l1 IH]; intros s; simpl; [done|].
  destruct (f a s); simpl; auto.
Qed.

Lemma foldM_ext {A S} (f g : A -> S -> outcome S) l s :
  (forall a s, a ∈ l -> f a s = g a s) -> foldM f l s = foldM g l s.
Proof.
  revert s; induction l as [|a l IH]; intros s H; simpl; [done|].
  rewrite H by left. destruct (g a s); simpl; auto.
  apply IH. intros; apply H; by right.
Qed.

(** Running a list of lists one after the other is running their
    concatenation. *)
Lemma foldM_concat {A B S} (f : B -> S -> outcome S) (ix : A -> list B) l s :
  foldM (fun a s => foldM f (ix a) s) l s = foldM f (concat (ix <$> l)) s.
Proof.
  revert s; induction l as [|a l IH]; intros s; simpl; [done|].
  rewrite foldM_app. destruct (foldM f (ix a) s); simpl; auto.
Qed.

(** ** Arrays *)

Lemma load_Done {A} (m : list A) i v :
  0 <= i -> m !! Z.to_nat i = Some v -> load m i = Done v.
Proof.
  intros Hi Hm. unfold load. destruct (Z.ltb_spec i 0); [lia|]. by rewrite Hm.
Qed.

Lemma load_inv {A} (m : list A) i v :
  load m i = Done v -> 0 <= i /\ m !! Z.to_nat i = Some v.
Proof.
  unfold load. destruct (Z.ltb_spec i 0); [done|].
  destruct (m !! Z.to_nat i); [|done]. intros [= ->]. done.
Qed.

Lemma store_Done {A} (m : list A) i v :
  0 <= i < Z.of_nat (length m) -> store m i v = Done (<[Z.to_nat i := v]> m).
Proof.
  intros Hi. unfold store.
  destruct (Z.leb_spec 0 i); [|lia]. destruct (Z.ltb_spec i (Z.of_nat (length m))); [done|lia].
Qed.

Lemma atomicAdd_Done m i v x :
  0 <= i -> m !! Z.to_nat i = Some x ->
  atomicAdd m i v = Done (<[Z.to_nat i := wrap32 (x + v)]> m).
Proof.
  intros Hi Hm. unfold atomicAdd. rewrite (load_Done m i x) by done. simpl.
  apply store_Done. apply lookup_lt_Some in Hm. lia.
Qed.

Lemma atomicAdd_Fault m i v :
  Z.of_nat (length m) <= i -> atomicAdd m i v = Fault.
Proof.
  intros Hi. unfold atomicAdd, load.
  destruct (Z.ltb_spec i 0); [done|].
  rewrite (lookup_ge_None_2 m (Z.to_nat i)) by lia. done.
Qed.

(** Two atomic additions give the same memory in either order. *)
Lemma atomicAdd_comm m i v j w :
  (atomicAdd m i v ≫= fun m' => atomicAdd m' j w) =
  (atomicAdd m j w ≫= fun m' => atomicAdd m' i v).
Proof.
  unfold atomicAdd, load.
  destruct (Z.ltb_spec i 0) as [Hi|Hi]; destruct (Z.ltb_spec j 0) as [Hj|Hj]; simpl; try done.
  - destruct (m !! Z.to_nat j) as [y|] eqn:Ey; simpl; [|done].
    rewrite store_Done by (apply lookup_lt_Some in Ey; lia). simpl.
    by destruct (Z.ltb_spec i 0); [|lia].
  - destruct (m !! Z.to_nat i) as [x|] eqn:Ex; simpl; [|done].
    rewrite store_Done by (apply lookup_lt_Some in Ex; lia). simpl.
    by destruct (Z.ltb_spec j 0); [|lia].
  - destruct (m !! Z.to_nat i) as [x|] eqn:Ex; destruct (m !! Z.to_nat j) as [y|] eqn:Ey; simpl.
    + pose proof (lookup_lt_Some _ _ _ Ex). pose proof (lookup_lt_Some _ _ _ Ey).
      rewrite !store_Done by lia. simpl.
      destruct (Z.ltb_spec i 0); [lia|]. destruct (Z.ltb_spec j 0); [lia|].
      destruct (decide (Z.to_nat i = Z.to_nat j)) as [E|E].
      * assert (i = j) as -> by lia.
        rewrite !list_lookup_insert_eq by lia. simpl.
        rewrite !store_Done by (rewrite length_insert; lia). f_equal.
        rewrite !list_insert_insert_eq.
        assert (x = y) as -> by congruence.
        rewrite !wrap32_add_l. do 2 f_equal. lia.
      * rewrite !list_lookup_insert_ne by done. rewrite Ex, Ey. simpl.
        rewrite !store_Done by (rewrite length_insert; lia). f_equal.
        by apply list_insert_insert_ne.
    + pose proof (lookup_lt_Some _ _ _ Ex).
      rewrite store_Done by lia. simpl.
      destruct (Z.ltb_spec j 0); [lia|].
      apply lookup_ge_None in Ey.
      by rewrite (lookup_ge_None_2 _ (Z.to_nat j)) by (rewrite length_insert; lia).
    + pose proof (lookup_lt_Some _ _ _ Ey).
      rewrite store_Done by lia. simpl.
      destruct (Z.ltb_spec i 0); [lia|].
      apply lookup_ge_None in Ex.
      by rewrite (lookup_ge_None_2 _ (Z.to_nat i)) by (rewrite length_insert; lia).
    + done.
Qed.

(** ** Sums over lists and ranges *)

Lemma sumZ_app l k : sumZ (l ++ k) = sumZ l + sumZ k.
Proof. induction l as [|x l IH]; csimpl; lia. Qed.

Lemma sumZ_fmap_ext {A} (F G : A -> Z) l :
  (forall a, a ∈ l -> F a = G a) -> sumZ (F <$> l) = sumZ (G <$> l).
Proof.
  induction l as [|a l IH]; intros H; csimpl; [done|].
  rewrite H by left. rewrite IH; [done|]. intros; apply H; by right.
Qed.

Lemma sumZ_fmap_add {A} (F G : A -> Z) l :
  sumZ ((fun a => F a + G a) <$> l) = sumZ (F <$> l) + sumZ (G <$> l).
Proof. induction l as [|a l IH]; csimpl; lia. Qed.

Lemma sumZ_fmap_zero {A} (F : A -> Z) l :
  (forall a, a ∈ l -> F a = 0) -> sumZ (F <$> l) = 0.
Proof.
  induction l as [|a l IH]; intros H; csimpl; [done|].
  rewrite H by left. rewrite IH; [done|]. intros; apply H; by right.
Qed.

Lemma sumZ_fmap_nonneg {A} (F : A -> Z) l :
  (forall a, a ∈ l -> 0 <= F a) -> 0 <= sumZ (F <$> l).
Proof.
  induction l as [|a l IH]; intros H; csimpl; [done|].
  pose proof (H a ltac:(left)). cut (0 <= sumZ (F <$> l)); [lia|].
  apply IH. intros; apply H; by right.
Qed.

Lemma sumZ_fmap_elem_le {A} (F : A -> Z) l a :
  (forall a, a ∈ l -> 0 <= F a) -> a ∈ l -> F a <= sumZ (F <$> l).
Proof.
  induction l as [|b l IH]; intros H Ha; [by apply elem_of_nil in Ha|].
  csimpl. apply elem_of_cons in Ha as [->|Ha].
  - cut (0 <= sumZ (F <$> l)); [lia|].
    apply sumZ_fmap_nonneg. intros; apply H; by right.
  - pose proof (H b ltac:(left)).
    cut (F a <= sumZ (F <$> l)); [lia|]. apply IH; [|done]. intros; apply H; by right.
Qed.

Lemma sumZ_fmap_swap {A B} (G : A -> B -> Z) la lb :
  sumZ ((fun a => sumZ (G a <$> lb)) <$> la) =
  sumZ ((fun b => sumZ ((fun a => G a b) <$> la)) <$> lb).
Proof.
  induction la as [|a la IH]; csimpl.
  - symmetry. by apply sumZ_fmap_zero.
  - rewrite IH. by rewrite <- sumZ_fmap_add.
Qed.

Lemma sumZ_Permutation (l k : list Z) : l ≡ₚ k -> sumZ l = sumZ k.
Proof. induction 1; simpl; lia. Qed.

Lemma sumZ_fmap_Permutation {A} (F : A -> Z) (l k : list A) :
  l ≡ₚ k -> sumZ (F <$> l) = sumZ (F <$> k).
Proof. intros H. apply sumZ_Permutation. by apply fmap_Permutation. Qed.

Lemma sumZ_fmap_concat {A} (F : A -> Z) ls :
  sumZ (F <$> concat ls) = sumZ ((fun l => sumZ (F <$> l)) <$> ls).
Proof.
  induction ls as [|l ls IH]; csimpl; [done|].
  by rewrite fmap_app, sumZ_app, IH.
Qed.

(** The sum of [v] at [x] and nothing elsewhere, over a list without
    repetition. *)
Lemma sumZ_indicator (l : list Z) x v :
  NoDup l -> x ∈ l -> sumZ ((fun a => if decide (a = x) then v else 0) <$> l) = v.
Proof.
  induction 1 as [|a l Hna Hnd IH]; intros Hx; [by apply elem_of_nil in Hx|].
  csimpl. destruct (decide (a = x)) as [->|Hne].
  - rewrite sumZ_fmap_zero; [lia|].
    intros b Hb. destruct (decide (b = x)) as [->|]; [done|done].
  - apply elem_of_cons in Hx as [->|Hx]; [done|]. rewrite IH by done. lia.
Qed.

Lemma seqZ_snoc n : 0 <= n -> seqZ 0 (n + 1) = seqZ 0 n ++ [n].
Proof.
  intros Hn. rewrite seqZ_app by lia.
  by f_equal.
Qed.

(** [0 .. a*b) is [a] consecutive runs of length [b]. *)
Lemma seqZ_mul (a b : Z) :
  0 <= a -> 0 <= b ->
  seqZ 0 (a * b) = concat ((fun x => (fun y => x * b + y) <$> seqZ 0 b) <$> seqZ 0 a).
Proof.
  intros Ha Hb. revert a Ha. apply natlike_ind.
  - by rewrite seqZ_nil.
  - intros a Ha IH. replace (Z.succ a) with (a + 1) by lia.
    rewrite seqZ_snoc, fmap_app, concat_app by lia. csimpl. rewrite app_nil_r.
    rewrite <- IH. replace ((a + 1) * b) with (a * b + b) by lia.
    rewrite seqZ_app by nia. f_equal.
    change (fun y => a * b + y) with (Z.add (a * b)).
    rewrite fmap_add_seqZ. f_equal; lia.
Qed.

Lemma sumZ_seqZ_mul (F : Z -> Z) (a b : Z) :
  0 <= a -> 0 <= b ->
  sumZ (F <$> seqZ 0 (a * b)) =
  sumZ ((fun x => sumZ ((fun y => F (x * b + y)) <$> seqZ 0 b)) <$> seqZ 0 a).
Proof.
  intros Ha Hb. rewrite seqZ_mul, sumZ_fmap_concat by done.
  rewrite <- list_fmap_compose. apply sumZ_fmap_ext. intros x _. csimpl.
  by rewrite <- list_fmap_compose.
Qed.

(** Terms that vanish from [n] on can be added or dropped. *)
Lemma sumZ_seqZ_tail (F : Z -> Z) (n n' : Z) :
  0 <= n <= n' -> (forall x, n <= x < n' -> F x = 0) ->
  sumZ (F <$> seqZ 0 n') = sumZ (F <$> seqZ 0 n).
Proof.
  intros Hn HF. replace n' with (n + (n' - n)) by lia.
  rewrite seqZ_app, fmap_app, sumZ_app by lia.
  rewrite (sumZ_fmap_zero F (seqZ (0 + n) (n' - n))); [lia|].
  intros x Hx%elem_of_seqZ. apply HF. lia.
Qed.

(** ** Accumulation into an [int] array *)

Lemma adds_refl m : int_array m -> adds m m (fun _ => 0).
Proof.
  intros Hm. split; [done|]. intros j x Hj.
  rewrite Z.add_0_r, wrap32_small; [done|].
  by eapply (Forall_lookup_1 _ m).
Qed.

Lemma adds_trans m1 m2 m3 f g :
  adds m1 m2 f -> adds m2 m3 g -> adds m1 m3 (fun j => f j + g j).
Proof.
  intros [L1 H1] [L2 H2]. split; [congruence|]. intros j x Hj.
  rewrite (H2 j _ (H1 j x Hj)), wrap32_add_l. do 2 f_equal. lia.
Qed.

Lemma adds_ext m m' f g :
  (forall j, 0 <= j < Z.of_nat (length m) -> f j = g j) -> adds m m' f -> adds m m' g.
Proof.
  intros E [L H]. split; [done|]. intros j x Hj.
  rewrite (H j x Hj), E; [done|]. apply lookup_lt_Some in Hj. lia.
Qed.

Lemma adds_int_array m m' f : adds m m' f -> int_array m'.
Proof.
  intros [L H]. apply Forall_lookup_2. intros j y Hj.
  destruct (lookup_lt_is_Some_2 m j) as [x Hx].
  { apply lookup_lt_Some in Hj. lia. }
  rewrite (H j x Hx) in Hj. injection Hj as <-. apply wrap32_in_int.
Qed.

Lemma atomicAdd_adds m i v :
  int_array m -> 0 <= i < Z.of_nat (length m) ->
  exists m', atomicAdd m i v = Done m' /\
             adds m m' (fun j => if decide (j = i) then v else 0).
Proof.
  intros Hm Hi.
  destruct (lookup_lt_is_Some_2 m (Z.to_nat i)) as [x Hx]; [lia|].
  eexists. split; [by apply atomicAdd_Done; [lia|]|].
  split; [by rewrite length_insert|]. intros j y Hj.
  destruct (decide (Z.of_nat j = i)) as [<-|Hne].
  - rewrite Nat2Z.id in *. rewrite list_lookup_insert_eq by (by eapply lookup_lt_Some).
    congruence.
  - rewrite list_lookup_insert_ne by lia.
    rewrite Z.add_0_r, wrap32_small; [done|]. by eapply (Forall_lookup_1 _ m).
Qed.

(** A list of steps, each of which adds its own contribution, adds the sum
    of the contributions. *)
Lemma foldM_adds {A} (step : A -> list Z -> outcome (list Z))
    (contrib : A -> Z -> Z) (l : list A) (n : nat) :
  (forall a m, a ∈ l -> length m = n -> int_array m ->
     exists m', step a m = Done m' /\ adds m m' (contrib a)) ->
  forall m, length m = n -> int_array m ->
    exists m', foldM step l m = Done m' /\
               adds m m' (fun j => sumZ ((fun a => contrib a j) <$> l)).
Proof.
  induction l as [|a l IH]; intros Hstep m Hlen Hm; csimpl.
  - eexists; split; [done|]. by apply adds_refl.
  - destruct (Hstep a m) as (m1 & -> & H1); [by left|done|done|]. simpl.
    destruct (IH (fun a m Ha => Hstep a m (proj2 (elem_of_cons l _ _) (or_intror Ha))) m1)
      as (m2 & -> & H2).
    { destruct H1 as [-> _]. done. }
    { by eapply adds_int_array. }
    eexists; split; [done|]. eapply adds_trans; eauto.
Qed.

(** ** Loops *)

Lemma trip_count_nonneg i bound step : 0 < step -> 0 <= trip_count i bound step.
Proof.
  intros Hs. unfold trip_count. destruct (Z.ltb_spec i bound); [|lia].
  apply Z.div_pos; lia.
Qed.

Lemma trip_count_step i bound step :
  0 < step -> i < bound ->
  trip_count i bound step = 1 + trip_count (i + step) bound step.
Proof.
  intros Hs Hi. unfold trip_count.
  destruct (Z.ltb_spec i bound); [|lia].
  destruct (Z.ltb_spec (i + step) bound).
  - replace (bound - i + step - 1) with (1 * step + (bound - (i + step) + step - 1)) by lia.
    rewrite Z.div_add_l by lia. lia.
  - symmetry. apply Z.div_unique with (r := bound - i - 1); lia.
Qed.

(** The loop leaves with [i] at or past the bound, and every index of the
    body is below it. *)
Lemma trip_count_exit i bound step :
  0 < step -> bound <= i + trip_count i bound step * step.
Proof.
  intros Hs. unfold trip_count. destruct (Z.ltb_spec i bound); [|lia].
  pose proof (Z.div_mod (bound - i + step - 1) step ltac:(lia)).
  pose proof (Z.mod_pos_bound (bound - i + step - 1) step Hs). nia.
Qed.

Lemma trip_count_last i bound step k :
  0 < step -> 0 <= k < trip_count i bound step -> i + k * step < bound.
Proof.
  intros Hs. unfold trip_count. destruct (Z.ltb_spec i bound); [|lia].
  intros Hk.
  pose proof (Z.div_mod (bound - i + step - 1) step ltac:(lia)).
  pose proof (Z.mod_pos_bound (bound - i + step - 1) step Hs). nia.
Qed.

Lemma loop_indices_cons i bound step :
  0 < step -> i < bound ->
  loop_indices i bound step = i :: loop_indices (i + step) bound step.
Proof.
  intros Hs Hi. unfold loop_indices. rewrite trip_count_step by done.
  pose proof (trip_count_nonneg (i + step) bound step Hs).
  rewrite seqZ_cons by lia. csimpl. f_equal; [lia|].
  replace (Z.pred (1 + trip_count (i + step) bound step))
    with (trip_count (i + step) bound step) by lia.
  rewrite <- (fmap_add_seqZ 1 0), <- list_fmap_compose.
  apply list_fmap_ext. intros _ k _. simpl. lia.
Qed.

Lemma loop_indices_nil i bound step : bound <= i -> loop_indices i bound step = [].
Proof.
  intros Hi. unfold loop_indices, trip_count. by destruct (Z.ltb_spec i bound); [lia|].
Qed.

(** With a positive step, no wrap-around on the way and enough fuel, the
    loop runs its body on [loop_indices] in order. *)
Lemma for_loop_foldM {S} fuel i bound step (body : Z -> S -> outcome S) s :
  0 < step -> INT_MIN <= i -> bound + step <= INT_MAX + 1 ->
  (Z.to_nat (trip_count i bound step) <= fuel)%nat ->
  for_loop fuel i bound step body s = foldM body (loop_indices i bound step) s.
Proof.
  intros Hs. revert i s. induction fuel as [|fuel IH]; intros i s Hi Hb Hf.
  - destruct (Z.ltb_spec i bound) as [Hlt|Hge].
    + rewrite trip_count_step in Hf by done.
      pose proof (trip_count_nonneg (i + step) bound step Hs). lia.
    + rewrite loop_indices_nil by done. simpl.
      by destruct (Z.ltb_spec i bound); [lia|].
  - simpl. destruct (Z.ltb_spec i bound) as [Hlt|Hge].
    + rewrite loop_indices_cons by done. csimpl.
      destruct (body i s) as [s'| |]; simpl; [|done|done].
      rewrite wrap32_small by (unfold in_int, INT_MIN, INT_MAX in *; lia).
      apply IH; [unfold INT_MIN in *; lia|done|].
      rewrite trip_count_step in Hf by done.
      pose proof (trip_count_nonneg (i + step) bound step Hs). lia.
    + by rewrite loop_indices_nil.
Qed.

(** ** Counting samples *)

Lemma count_of_nonneg b vs : 0 <= count_of b vs.
Proof. apply sumZ_fmap_nonneg. intros v _. by destruct (decide _). Qed.

Lemma count_of_app b vs ws : count_of b (vs ++ ws) = count_of b vs + count_of b ws.
Proof. unfold count_of. by rewrite fmap_app, sumZ_app. Qed.

Lemma count_of_snoc b vs v :
  count_of b (vs ++ [v]) = count_of b vs + (if decide (v = b) then 1 else 0).
Proof. rewrite count_of_app. unfold count_of. csimpl. lia. Qed.

Lemma count_of_le_length b vs : count_of b vs <= Z.of_nat (length vs).
Proof.
  unfold count_of. induction vs as [|v vs IH]; csimpl; [done|].
  destruct (decide _); lia.
Qed.

Lemma count_of_fmap {A} b (f : A -> Z) l :
  count_of b (f <$> l) = sumZ ((fun a => if decide (f a = b) then 1 else 0) <$> l).
Proof. unfold count_of. by rewrite <- list_fmap_compose. Qed.

(** A list is the list of its entries by position. *)
Lemma list_as_seqZ (l : list Z) :
  l = (fun i => l !!! Z.to_nat i) <$> seqZ 0 (Z.of_nat (length l)).
Proof.
  apply list_eq. intros i. rewrite list_lookup_fmap.
  destruct (decide (i < length l)%nat) as [Hi|Hi].
  - rewrite lookup_seqZ_lt by lia. csimpl. rewrite Z.add_0_l, Nat2Z.id.
    by apply list_lookup_lookup_total_lt.
  - rewrite lookup_seqZ_ge by lia. csimpl. apply lookup_ge_None. lia.
Qed.

Lemma sumZ_histogram_of numBins samples :
  sumZ (histogram_of numBins samples) = count_in_range numBins samples.
Proof.
  unfold histogram_of, count_in_range, count_of.
  rewrite (sumZ_fmap_swap (fun b v => if decide (v = b) then 1 else 0)).
  apply sumZ_fmap_ext. intros v _.
  destruct (decide (0 <= v < numBins)) as [Hv|Hv].
  - etrans; [|apply (sumZ_indicator (seqZ 0 numBins) v 1);
                [apply NoDup_seqZ|apply elem_of_seqZ; lia]].
    apply sumZ_fmap_ext. intros b _. by repeat destruct (decide _).
  - apply sumZ_fmap_zero. intros b Hb%elem_of_seqZ.
    destruct (decide (v = b)); [lia|done].
Qed.

(** ** Strided traversals cover a range once *)

(** [S] walkers, the [g]-th visiting [g, g + S, g + 2S, ...]: together they
    see every position below [n] once. *)
Lemma strided_sum (h : Z -> Z) (S M n : Z) :
  0 < S -> 0 <= M -> 0 <= n <= M * S ->
  (forall x, n <= x -> h x = 0) ->
  sumZ ((fun g => sumZ ((fun m => h (g + m * S)) <$> seqZ 0 M)) <$> seqZ 0 S)
  = sumZ (h <$> seqZ 0 n).
Proof.
  intros HS HM Hn Hh.
  rewrite (sumZ_fmap_swap (fun g m => h (g + m * S))).
  rewrite <- (sumZ_seqZ_tail h n (M * S)) by (auto with lia).
  rewrite sumZ_seqZ_mul by lia.
  apply sumZ_fmap_ext. intros m _. apply sumZ_fmap_ext. intros g _. f_equal. lia.
Qed.

(** The same for walkers that stop at the bound: the threads [t] of a block
    striding over [t, t + bd, ...] below [n]. *)
Lemma strided_cover (F : Z -> Z) (bd n : Z) :
  0 < bd -> 0 <= n ->
  sumZ ((fun t => sumZ (F <$> loop_indices t n bd)) <$> seqZ 0 bd)
  = sumZ (F <$> seqZ 0 n).
Proof.
  intros Hbd Hn.
  set (h := fun x => if x <? n then F x else 0).
  rewrite (sumZ_fmap_ext F h (seqZ 0 n)).
  2:{ intros x Hx%elem_of_seqZ. unfold h. by destruct (Z.ltb_spec x n); [|lia]. }
  rewrite <- (strided_sum h bd n n) by (unfold h; intros;
    try match goal with |- context [?x <? n] => destruct (Z.ltb_spec x n) end; nia).
  apply sumZ_fmap_ext. intros t Ht%elem_of_seqZ.
  unfold loop_indices. rewrite <- list_fmap_compose.
  pose proof (trip_count_nonneg t n bd Hbd).
  assert (trip_count t n bd <= n) as Hle.
  { unfold trip_count. destruct (Z.ltb_spec t n); [|lia].
    apply Z.div_le_upper_bound; nia. }
  rewrite (sumZ_seqZ_tail (fun m => h (t + m * bd)) (trip_count t n bd) n); [|lia|].
  - apply sumZ_fmap_ext. intros k Hk%elem_of_seqZ. simpl. unfold h.
    pose proof (trip_count_last t n bd k Hbd ltac:(lia)).
    by destruct (Z.ltb_spec (t + k * bd) n); [|lia].
  - intros k Hk. unfold h.
    pose proof (trip_count_exit t n bd Hbd).
    destruct (Z.ltb_spec (t + k * bd) n); [nia|done].
Qed.

(** ** The hierarchical kernel *)

Section OptimizedThread.
Variables (input : list Z) (N : Z).
Hypothesis Hinput : Z.of_nat (length input) = N.

Abbreviation sample := (sample_at input N).

Lemma prefetch_slot_spec base strd i :
  0 <= base -> 0 <= strd -> 0 <= i -> base + i * strd <= INT_MAX ->
  Optimized.prefetch_slot input N base strd i = Done (sample (base + i * strd)).
Proof.
  intros Hb Hs Hi Hr. unfold Optimized.prefetch_slot, sample_at.
  assert (0 <= i * strd) by (by apply Z.mul_nonneg_nonneg).
  rewrite (wrap32_small (i * strd)) by (unfold in_int, INT_MIN, INT_MAX in *; lia).
  rewrite wrap32_small by (unfold in_int, INT_MIN, INT_MAX in *; lia).
  destruct (Z.leb_spec 0 (base + i * strd)); [|lia]. simpl.
  destruct (Z.ltb_spec (base + i * strd) N); [|done].
  apply load_Done; [lia|]. apply list_lookup_lookup_total_lt. lia.
Qed.

Lemma prefetch_spec base strd slots :
  0 <= base -> 0 <= strd ->
  (forall i, i ∈ slots -> 0 <= i /\ base + i * strd <= INT_MAX) ->
  Optimized.prefetch input N base strd slots
  = Done ((fun i => sample (base + i * strd)) <$> slots).
Proof.
  intros Hb Hs. induction slots as [|i slots IH]; intros H; csimpl; [done|].
  destruct (H i ltac:(left)).
  rewrite prefetch_slot_spec by done. simpl.
  rewrite IH; [done|]. intros; apply H; by right.
Qed.

End OptimizedThread.

Section OptimizedClassify.
Variable numBins : Z.

Abbreviation classify := (Optimized.classify numBins).

Lemma thread_inv_start sh0 :
  int_array sh0 -> thread_inv numBins sh0 [] (Optimized.localHist0, sh0).
Proof.
  intros Hsh. split; [done|]. split.
  - intros v Hv. cbn [fst]. unfold Optimized.localHist0.
    rewrite lookup_replicate_2 by lia.
    by destruct (v <? numBins).
  - cbn [snd]. eapply adds_ext; [|by apply adds_refl]. intros j _. by destruct (j <? 32).
Qed.

Lemma classify_inv sh0 seen v st :
  Z.of_nat (length sh0) = numBins -> thread_inv numBins sh0 seen st ->
  (0 <= v -> count_of v seen < INT_MAX) ->
  exists st', classify v st = Done st' /\ thread_inv numBins sh0 (seen ++ [v]) st'.
Proof.
  intros Hlen (Hl & Hloc & Hadd) Hc. destruct st as [lh sh]. simpl in *.
  unfold Optimized.classify.
  destruct (Z.leb_spec 0 v) as [Hv0|Hv0]; simpl;
    [specialize (Hc Hv0); destruct (Z.ltb_spec v numBins) as [Hvb|Hvb]; simpl|].
  - destruct (Z.ltb_spec v 32) as [Hv32|Hv32].
    + (* a register counter *)
      rewrite (load_Done lh v _ Hv0 (Hloc v ltac:(lia))). simpl.
      destruct (Z.ltb_spec v numBins); [|lia].
      rewrite store_Done by lia. simpl. eexists; split; [done|].
      unfold thread_inv; simpl. split; [by rewrite length_insert|]. split.
      * intros w Hw. rewrite count_of_snoc.
        destruct (decide (Z.to_nat v = Z.to_nat w)) as [E|E].
        -- assert (v = w) as -> by lia.
           rewrite list_lookup_insert_eq by lia.
           destruct (Z.ltb_spec w numBins); [|lia].
           destruct (decide (w = w)); [|done].
           pose proof (count_of_nonneg w seen).
           rewrite wrap32_small; [done|]. unfold in_int, INT_MIN, INT_MAX in *. lia.
        -- rewrite list_lookup_insert_ne by done. rewrite (Hloc w Hw).
           destruct (decide (v = w)); [lia|]. by rewrite Z.add_0_r.
      * eapply adds_ext; [|exact Hadd]. intros j Hj. simpl.
        destruct (Z.ltb_spec j 32); [done|]. rewrite count_of_snoc.
        destruct (decide (v = j)); lia.
    + (* the shared accumulator *)
      pose proof Hadd as [Hlsh Hcells].
      destruct (atomicAdd_adds sh v 1) as (sh' & -> & Hsh').
      { eapply adds_int_array, Hadd. } { lia. }
      simpl. eexists; split; [done|]. unfold thread_inv; simpl. split; [done|]. split.
      * intros w Hw. rewrite (Hloc w Hw), count_of_snoc.
        destruct (decide (v = w)); [lia|]. by rewrite Z.add_0_r.
      * eapply adds_ext; [|eapply adds_trans; [exact Hadd|exact Hsh']].
        intros j Hj. simpl. rewrite count_of_snoc.
        destruct (Z.ltb_spec j 32); destruct (decide (j = v)); destruct (decide (v = j)); lia.
  - (* [value >= numBins]: dropped *)
    eexists; split; [done|]. unfold thread_inv; simpl. split; [done|]. split.
    + intros w Hw. rewrite (Hloc w Hw), count_of_snoc.
      destruct (Z.ltb_spec w numBins); [|done].
      destruct (decide (v = w)); [lia|]. by rewrite Z.add_0_r.
    + eapply adds_ext; [|exact Hadd]. intros j Hj. simpl.
      rewrite count_of_snoc. destruct (decide (v = j)); [lia|]. by rewrite Z.add_0_r.
  - (* [value < 0]: dropped *)
    eexists; split; [done|]. unfold thread_inv; simpl. split; [done|]. split.
    + intros w Hw. rewrite (Hloc w Hw), count_of_snoc.
      destruct (decide (v = w)); [lia|]. by rewrite Z.add_0_r.
    + eapply adds_ext; [|exact Hadd]. intros j Hj. simpl.
      rewrite count_of_snoc. destruct (decide (v = j)); [lia|]. by rewrite Z.add_0_r.
Qed.

Lemma classify_all_inv sh0 vs : forall seen st,
  Z.of_nat (length sh0) = numBins -> thread_inv numBins sh0 seen st ->
  (forall b, 0 <= b -> count_of b (seen ++ vs) <= INT_MAX) ->
  exists st', foldM classify vs st = Done st' /\ thread_inv numBins sh0 (seen ++ vs) st'.
Proof.
  induction vs as [|v vs IH]; intros seen st Hlen Hinv Hc; csimpl.
  - rewrite app_nil_r. eauto.
  - destruct (classify_inv sh0 seen v st Hlen Hinv) as (st1 & -> & H1).
    { intros Hv. specialize (Hc v Hv). rewrite count_of_app in Hc.
      pose proof (count_of_nonneg v vs).
      change (v :: vs) with ([v] ++ vs) in Hc. rewrite count_of_app in Hc.
      unfold count_of at 2 in Hc. csimpl in Hc.
      destruct (decide (v = v)); [lia|done]. }
    simpl. rewrite (cons_middle v seen vs), app_assoc.
    apply IH; [done|done|]. intros b Hb. rewrite <- app_assoc. by apply Hc.
Qed.
End OptimizedClassify.

(** Zeroing the cells [L] of an array. *)
Lemma foldM_store0 (L : list Z) : forall (sh : list Z),
  (forall i, i ∈ L -> 0 <= i < Z.of_nat (length sh)) ->
  exists sh', foldM (fun i sh => store sh i 0) L sh = Done sh' /\
    length sh' = length sh /\
    forall j : nat, (j < length sh)%nat ->
      Z.of_nat j ∈ L \/ sh !! j = Some 0 -> sh' !! j = Some 0.
Proof.
  induction L as [|i L IH]; intros sh HL; csimpl.
  - eexists; split; [done|]. split; [done|]. intros j _ [H%elem_of_nil|H]; done.
  - pose proof (HL i ltac:(left)) as Hi.
    rewrite store_Done by done. simpl.
    destruct (IH (<[Z.to_nat i := 0]> sh)) as (sh' & -> & Hlen & Hz).
    { intros k Hk. rewrite length_insert. apply HL. by right. }
    eexists; split; [done|]. rewrite length_insert in Hlen, Hz.
    split; [done|]. intros j Hj Hcase. apply Hz; [done|].
    destruct (decide (j = Z.to_nat i)) as [->|Hne].
    + right. apply list_lookup_insert_eq. lia.
    + rewrite list_lookup_insert_ne by done.
      destruct Hcase as [[Heq|Hin]%elem_of_cons|H0]; [lia|by left|by right].
Qed.

Lemma elem_of_loop_indices x i bound step :
  0 < step ->
  x ∈ loop_indices i bound step <-> exists k, 0 <= k /\ x = i + k * step /\ x < bound.
Proof.
  intros Hs. unfold loop_indices. rewrite list_elem_of_fmap. split.
  - intros (k & -> & Hk%elem_of_seqZ). exists k.
    pose proof (trip_count_last i bound step k Hs ltac:(lia)). lia.
  - intros (k & Hk & -> & Hlt). exists k. split; [done|]. apply elem_of_seqZ.
    pose proof (trip_count_exit i bound step Hs).
    destruct (Z.lt_ge_cases k (trip_count i bound step)); [lia|nia].
Qed.

Lemma elem_of_concat {A} (x : A) (ls : list (list A)) :
  x ∈ concat ls <-> exists l, l ∈ ls /\ x ∈ l.
Proof.
  rewrite list_elem_of_In, in_concat. setoid_rewrite list_elem_of_In. done.
Qed.

(** Every cell below [n] is met by the thread [j mod bd] of a block. *)
Lemma strided_covers_cell (bd n j : Z) :
  0 < bd -> 0 <= j < n ->
  j ∈ concat ((fun t => loop_indices t n bd) <$> seqZ 0 bd).
Proof.
  intros Hbd Hj. apply elem_of_concat. exists (loop_indices (j mod bd) n bd).
  pose proof (Z.mod_pos_bound j bd Hbd). pose proof (Z.div_mod j bd ltac:(lia)).
  split.
  - apply list_elem_of_fmap. exists (j mod bd). split; [done|]. apply elem_of_seqZ. lia.
  - apply elem_of_loop_indices; [done|]. exists (j / bd).
    split; [apply Z.div_pos; lia|]. split; [lia|lia].
Qed.

Lemma loop_indices_bounds x i bound step :
  0 < step -> 0 <= i -> x ∈ loop_indices i bound step -> 0 <= x < bound.
Proof.
  intros Hs Hi (k & Hk & -> & Hlt)%elem_of_loop_indices; [|done]. nia.
Qed.

Lemma foldM_fmap {A B S} (h : A -> B) (f : B -> S -> outcome S) l s :
  foldM f (h <$> l) s = foldM (fun a => f (h a)) l s.
Proof.
  revert s; induction l as [|a l IH]; intros s; csimpl; [done|].
  destruct (f (h a) s); simpl; auto.
Qed.

(** ** The two cooperative phases the shared-memory kernels have in common *)

Section BlockPhases.
Variables (fuel : nat) (g : dim3) (numBins : Z).
Hypothesis Hblock : 1 <= blockDim_x g.
Hypothesis Hbins : 0 <= numBins.
Hypothesis Hbin_index : numBins + blockDim_x g <= INT_MAX.
Hypothesis Hfuel : (Z.to_nat numBins <= fuel)%nat.

Lemma bin_loop_foldM {S} t (body : Z -> S -> outcome S) s :
  0 <= t < blockDim_x g ->
  for_loop fuel (wrap32 t) numBins (blockDim_x g) body s
  = foldM body (loop_indices t numBins (blockDim_x g)) s.
Proof.
  intros Ht. unfold INT_MAX in *.
  rewrite wrap32_small by int_lia.
  apply for_loop_foldM; unfold INT_MIN, INT_MAX; try lia.
  unfold trip_count. destruct (Z.ltb_spec t numBins); [|lia].
  assert ((numBins - t + blockDim_x g - 1) / blockDim_x g <= numBins); [|lia].
  apply Z.div_le_upper_bound; nia.
Qed.

(** Lines 20-23 and 46-49: after the first barrier the shared array is
    all zero, whatever it held. *)
Lemma zero_phase b ts sh0 :
  ts ≡ₚ seqZ 0 (blockDim_x g) ->
  Z.of_nat (length sh0) = numBins ->
  foldM (Optimized.zero_shared fuel numBins) (thread_of g b <$> ts) sh0
  = Done (replicate (length sh0) 0).
Proof.
  intros Hts Hlen. rewrite foldM_fmap.
  rewrite (foldM_ext _ (fun t sh => foldM (fun i sh => store sh i 0)
                                     (loop_indices t numBins (blockDim_x g)) sh)).
  2:{ intros t sh Ht. rewrite Hts in Ht. apply elem_of_seqZ in Ht.
      unfold Optimized.zero_shared. simpl. apply bin_loop_foldM. lia. }
  rewrite foldM_concat.
  destruct (foldM_store0 (concat ((fun t => loop_indices t numBins (blockDim_x g))
                                    <$> ts)) sh0)
    as (sh' & -> & Hl & Hz).
  { intros i (l & (t & -> & Ht)%list_elem_of_fmap & Hi)%elem_of_concat.
    rewrite Hts in Ht. apply elem_of_seqZ in Ht.
    rewrite Hlen. eapply loop_indices_bounds; [| |exact Hi]; lia. }
  f_equal. apply list_eq. intros j.
  destruct (decide (j < length sh0)%nat) as [Hj|Hj].
  - rewrite lookup_replicate_2 by done. apply Hz; [done|]. left.
    destruct (proj1 (elem_of_concat _ _)
                (strided_covers_cell (blockDim_x g) numBins (Z.of_nat j)
                   ltac:(lia) ltac:(lia)))
      as (l & (t & -> & Ht)%list_elem_of_fmap & Hi).
    apply elem_of_concat. eexists; split; [|exact Hi].
    apply list_elem_of_fmap. exists t. split; [done|]. by rewrite Hts.
  - rewrite (lookup_ge_None_2 sh') by lia.
    symmetry. apply lookup_replicate_None. lia.
Qed.

(** Lines 30-34 and 99-104: after the second barrier the block adds its
    shared counts to the global histogram. *)
Lemma reduce_phase b ts sh (count : Z -> Z) hist :
  ts ≡ₚ seqZ 0 (blockDim_x g) ->
  (forall j, 0 <= j < numBins -> sh !! Z.to_nat j = Some (count j) /\ 0 <= count j) ->
  Z.of_nat (length hist) = numBins -> int_array hist ->
  exists hist',
    foldM (fun c h => Optimized.reduce fuel numBins c sh h) (thread_of g b <$> ts) hist
    = Done hist' /\ adds hist hist' count.
Proof.
  intros Hts Hsh Hlen Hint. rewrite foldM_fmap.
  set (body := Optimized.reduce_bin sh).
  rewrite (foldM_ext _ (fun t h => foldM body (loop_indices t numBins (blockDim_x g)) h)).
  2:{ intros t h Ht. rewrite Hts in Ht. apply elem_of_seqZ in Ht.
      unfold Optimized.reduce. simpl. apply bin_loop_foldM. lia. }
  rewrite foldM_concat.
  destruct (foldM_adds body (fun i j => if decide (j = i) then count i else 0)
              (concat ((fun t => loop_indices t numBins (blockDim_x g)) <$> ts))
              (length hist)) with (m := hist) as (hist' & -> & Hadds); [|done|done|].
  { intros i m (l & (t & -> & Ht)%list_elem_of_fmap & Hi)%elem_of_concat Hm Hmi.
    rewrite Hts in Ht. apply elem_of_seqZ in Ht.
    apply loop_indices_bounds in Hi; [|lia|lia].
    destruct (Hsh i Hi) as [Hc Hpos]. unfold body, Optimized.reduce_bin.
    rewrite (load_Done sh i _ ltac:(lia) Hc). simpl.
    destruct (Z.ltb_spec 0 (count i)).
    - apply atomicAdd_adds; [done|lia].
    - eexists; split; [done|]. eapply adds_ext; [|by apply adds_refl].
      intros j _. simpl. destruct (decide (j = i)); lia. }
  eexists; split; [done|]. eapply adds_ext; [|exact Hadds].
  intros j Hj. simpl. rewrite sumZ_fmap_concat, <- list_fmap_compose.
  unfold compose. rewrite (sumZ_fmap_Permutation _ _ _ Hts).
  rewrite (strided_cover (fun i => if decide (j = i) then count i else 0)) by lia.
  etrans; [|apply (sumZ_indicator (seqZ 0 numBins) j (count j));
            [apply NoDup_seqZ|apply elem_of_seqZ; lia]].
  apply sumZ_fmap_ext. intros i _.
  destruct (decide (j = i)); destruct (decide (i = j)); congruence.
Qed.
End BlockPhases.

(** A grid of blocks that zero their shared array, have every thread add
    its contribution to it, and add it to the global histogram. *)
Section PhasedGrid.
Variables (fuel : nat) (g : dim3) (numBins : Z) (k : phased_kernel).
Variables (contrib : Z -> Z -> Z) (total : Z -> Z) (sched : schedule).
Hypothesis Hsched : schedule_of g sched.
Hypothesis Hgrid : 1 <= gridDim_x g.
Hypothesis Hblock : 1 <= blockDim_x g.
Hypothesis Hbins : 0 <= numBins.
Hypothesis Hbin_index : numBins + blockDim_x g <= INT_MAX.
Hypothesis Hfuel : (Z.to_nat numBins <= fuel)%nat.
Hypothesis Hk1 : before_barrier1 k = Optimized.zero_shared fuel numBins.
Hypothesis Hk3 : after_barrier2 k = Optimized.reduce fuel numBins.
Hypothesis Hk2 : forall b t sh,
  0 <= b < gridDim_x g -> 0 <= t < blockDim_x g ->
  Z.of_nat (length sh) = numBins -> int_array sh ->
  exists sh', before_barrier2 k (thread_of g b t) sh = Done sh' /\
              adds sh sh' (contrib (b * blockDim_x g + t)).
Hypothesis Hpos : forall gid j, 0 <= contrib gid j.
Hypothesis Htotal : forall j, 0 <= j < numBins ->
  sumZ ((fun gid => contrib gid j) <$> seqZ 0 (gridDim_x g * blockDim_x g)) = total j.
Hypothesis Hle : forall j, 0 <= j < numBins -> total j <= INT_MAX.

Let block_total (b j : Z) : Z :=
  sumZ ((fun t => contrib (b * blockDim_x g + t) j) <$> seqZ 0 (blockDim_x g)).

Local Lemma grid_total j :
  0 <= j < numBins ->
  sumZ ((fun b => block_total b j) <$> seqZ 0 (gridDim_x g)) = total j.
Proof.
  intros Hj. rewrite <- (Htotal j Hj).
  by rewrite (sumZ_seqZ_mul (fun gid => contrib gid j)) by lia.
Qed.

Local Lemma block_total_range b j :
  0 <= b < gridDim_x g -> 0 <= j < numBins -> 0 <= block_total b j <= INT_MAX.
Proof.
  intros Hb Hj.
  assert (forall b', 0 <= block_total b' j) as Hnn.
  { intros b'. apply sumZ_fmap_nonneg. intros; apply Hpos. }
  split; [apply Hnn|].
  pose proof (sumZ_fmap_elem_le (fun b => block_total b j) (seqZ 0 (gridDim_x g)) b
                ltac:(intros; apply Hnn) ltac:(apply elem_of_seqZ; lia)) as H.
  cbv beta in H. rewrite (grid_total j Hj) in H. pose proof (Hle j Hj). lia.
Qed.

Lemma phased_block_adds sharedHist0 b hist :
  0 <= b < gridDim_x g ->
  Z.of_nat (length sharedHist0) = numBins ->
  Z.of_nat (length hist) = numBins -> int_array hist ->
  exists hist', run_block_in sched k g sharedHist0 b hist = Done hist' /\
                adds hist hist' (block_total b).
Proof.
  intros Hb Hsh0 Hlen Hint. destruct Hsched as [_ Hthreads].
  unfold run_block_in. rewrite Hk1, Hk3.
  rewrite (zero_phase fuel g numBins) by first [done|lia]. rewrite bind_Done.
  destruct (foldM_adds (before_barrier2 k)
              (fun c j => contrib (blockIdx c * blockDim_x g + threadIdx c) j)
              (thread_of g b <$> thread_order sched b 1) (length sharedHist0))
    with (m := replicate (length sharedHist0) 0) as (sh2 & -> & Hsh2).
  { intros c m (t & -> & Ht)%list_elem_of_fmap Hm Hmi. simpl.
    rewrite (Hthreads b 1%nat) in Ht. apply elem_of_seqZ in Ht.
    apply Hk2; [done|lia|lia|done]. }
  { by rewrite length_replicate. }
  { apply Forall_replicate. unfold in_int, INT_MIN, INT_MAX. lia. }
  rewrite bind_Done.
  apply (reduce_phase fuel g numBins); try lia; try done.
  intros j Hj. destruct Hsh2 as [Hl2 Hc2].
  pose proof (block_total_range b j Hb Hj) as Hr.
  split; [|apply Hr].
  rewrite (Hc2 (Z.to_nat j) 0) by (apply lookup_replicate_2; lia).
  rewrite Z2Nat.id by lia.
  rewrite <- list_fmap_compose. unfold compose. simpl.
  rewrite (sumZ_fmap_Permutation _ _ _ (Hthreads b 1%nat)).
  fold (block_total b j).
  rewrite Z.add_0_l, wrap32_small; [done|]. unfold in_int, INT_MIN, INT_MAX in *. lia.
Qed.

Lemma phased_grid_adds sharedHist0 hist :
  Z.of_nat (length sharedHist0) = numBins ->
  Z.of_nat (length hist) = numBins -> int_array hist ->
  exists hist', run_grid_in sched k g sharedHist0 hist = Done hist' /\
                adds hist hist' total.
Proof.
  intros Hsh0 Hlen Hint. destruct Hsched as [Hblocks _]. unfold run_grid_in.
  destruct (foldM_adds (run_block_in sched k g sharedHist0) block_total
              (block_order sched) (length hist)) with (m := hist)
    as (hist' & E & Hadds); [|done|done|].
  { intros b m Hb Hm Hmi. rewrite Hblocks in Hb. apply elem_of_seqZ in Hb.
    apply phased_block_adds; [lia|done|lia|done]. }
  rewrite E. eexists; split; [done|].
  eapply adds_ext; [|exact Hadds]. intros j Hj. cbv beta.
  rewrite (sumZ_fmap_Permutation _ _ _ Hblocks). apply grid_total. lia.
Qed.
End PhasedGrid.

Lemma in_order_schedule g : schedule_of g (in_order g).
Proof. by split. Qed.

Lemma run_grid_in_order k g sharedHist0 histogram :
  run_grid_in (in_order g) k g sharedHist0 histogram = run_grid k g sharedHist0 histogram.
Proof. reflexivity. Qed.

Section OptimizedCombine.
Variable numBins : Z.

Lemma combine_local_shared lh L : forall sh,
  foldM Optimized.combine_local L (lh, sh)
  = (foldM (combine_step lh) L sh ≫= fun sh' => Done (lh, sh')).
Proof.
  unfold combine_step.
  induction L as [|i L IH]; intros sh; csimpl; [done|].
  destruct (load lh i) as [v| |]; simpl; [|done|done].
  destruct (0 <? v); simpl; [|by rewrite IH].
  destruct (atomicAdd sh i v); simpl; [by rewrite IH|done|done].
Qed.

(** Lines 90-94: the register counters reach the shared array. *)
Lemma combine_spec sh0 seen st :
  Z.of_nat (length sh0) = numBins -> thread_inv numBins sh0 seen st ->
  exists st', foldM Optimized.combine_local (seqZ 0 32) st = Done st' /\
              adds sh0 (snd st') (fun j => count_of j seen).
Proof.
  intros Hlen (Hl & Hloc & Hadd). destruct st as [lh sh]. cbn [fst snd] in *.
  rewrite combine_local_shared.
  pose proof Hadd as [Hlsh _].
  destruct (foldM_adds (combine_step lh)
              (fun i j => if decide (j = i) then
                            (if i <? numBins then count_of i seen else 0) else 0)
              (seqZ 0 32) (length sh)) with (m := sh) as (sh' & -> & Hadds);
    [|done|by eapply adds_int_array|].
  { intros i m Hi%elem_of_seqZ Hm Hmi. unfold combine_step.
    rewrite (load_Done lh i _ ltac:(lia) (Hloc i ltac:(lia))). simpl.
    pose proof (count_of_nonneg i seen).
    destruct (Z.ltb_spec i numBins).
    - destruct (Z.ltb_spec 0 (count_of i seen)).
      + apply atomicAdd_adds; [done|lia].
      + eexists; split; [done|]. eapply adds_ext; [|by apply adds_refl].
        intros j _. simpl. destruct (decide (j = i)); lia.
    - simpl. eexists; split; [done|]. eapply adds_ext; [|by apply adds_refl].
      intros j _. simpl. by destruct (decide (j = i)). }
  simpl. eexists; split; [done|]. simpl.
  eapply adds_ext; [|eapply adds_trans; [exact Hadd|exact Hadds]].
  intros j Hj. cbv beta.
  destruct (Z.ltb_spec j 32) as [Hj32|Hj32].
  - etrans; [apply f_equal; apply (sumZ_fmap_ext _
               (fun i => if decide (i = j) then count_of j seen else 0))|].
    { intros i _. destruct (decide (j = i)); destruct (decide (i = j)); try congruence.
      subst i. by destruct (Z.ltb_spec j numBins); [|lia]. }
    rewrite sumZ_indicator; [lia|apply NoDup_seqZ|apply elem_of_seqZ; lia].
  - rewrite sumZ_fmap_zero; [lia|]. intros i Hi%elem_of_seqZ.
    destruct (decide (j = i)); [lia|done].
Qed.
End OptimizedCombine.

Section OptimizedKernel.
Variables (fuel : nat) (g : dim3) (input : list Z) (N numBins : Z).
Variable sched : schedule.
Hypothesis Hsched : schedule_of g sched.
Hypothesis Hlaunch : launch_ok Optimized.elementsPerThread g N numBins.
Hypothesis Hinput : Z.of_nat (length input) = N.
Hypothesis Hfuel : (Z.to_nat (Z.max N numBins) <= fuel)%nat.

Let bd := blockDim_x g.
Let gd := gridDim_x g.
Let S := bd * gd.

Abbreviation values_of gid := (thread_values input N S gid).

Local Lemma geometry : 1 <= bd /\ 1 <= gd /\ 0 <= N /\ 0 <= numBins /\
                       0 < S /\ N + 12 * S <= INT_MAX /\ numBins + bd <= INT_MAX.
Proof.
  destruct Hlaunch. unfold S, bd, gd, Optimized.elementsPerThread in *.
  repeat split; try lia; nia.
Qed.

Local Lemma gid_range b t : 0 <= b < gd -> 0 <= t < bd -> 0 <= b * bd + t < S.
Proof. unfold S. nia. Qed.

(** ** Counting: every sample is classified by exactly one thread *)

Lemma count_thread_values j gid :
  0 <= j -> 0 <= gid ->
  count_of j (values_of gid)
  = sumZ ((fun m => if decide (sample_at input N (gid + m * S) = j) then 1 else 0)
           <$> seqZ 0 (12 * N)).
Proof.
  intros Hj Hgid. destruct geometry as (Hbd & Hgd & HN & Hnb & HS & Hidx & Hbi).
  unfold thread_values, count_of. rewrite sumZ_fmap_concat.
  unfold loop_indices, chunk_values, Optimized.elementsPerThread.
  rewrite <- !list_fmap_compose. unfold compose.
  set (K := trip_count gid N (S * 12)).
  assert (0 <= K) as HK by (apply trip_count_nonneg; lia).
  assert (K <= N) as HKN.
  { unfold K, trip_count. destruct (Z.ltb_spec gid N); [|lia].
    apply Z.div_le_upper_bound; nia. }
  set (h := fun m => if decide (sample_at input N (gid + m * S) = j) then 1 else 0).
  transitivity (sumZ (h <$> seqZ 0 (K * 12))).
  - rewrite sumZ_seqZ_mul by lia. apply sumZ_fmap_ext. intros k _.
    rewrite <- list_fmap_compose. apply sumZ_fmap_ext. intros i _.
    unfold compose, h.
    by replace (gid + k * (S * 12) + i * S) with (gid + (k * 12 + i) * S) by ring.
  - symmetry. apply sumZ_seqZ_tail; [lia|]. intros m Hm. unfold h, sample_at.
    pose proof (trip_count_exit gid N (S * 12) ltac:(lia)). fold K in H.
    destruct (Z.leb_spec 0 (gid + m * S)); simpl;
      [destruct (Z.ltb_spec (gid + m * S) N); [nia|]|];
      destruct (decide (-1 = j)); lia.
Qed.

(** The total over the grid is the count in the input. *)
Lemma count_grid j :
  0 <= j ->
  sumZ ((fun b => sumZ ((fun t => count_of j (values_of (b * bd + t))) <$> seqZ 0 bd))
          <$> seqZ 0 gd)
  = count_of j input.
Proof.
  intros Hj. destruct geometry as (Hbd & Hgd & HN & Hnb & HS & Hidx & Hbi).
  rewrite <- (sumZ_seqZ_mul (fun gid => count_of j (values_of gid))) by lia.
  replace (gd * bd) with S by (unfold S; lia).
  rewrite (sumZ_fmap_ext _ (fun gid => sumZ ((fun m =>
             if decide (sample_at input N (gid + m * S) = j) then 1 else 0)
             <$> seqZ 0 (12 * N)))).
  2:{ intros gid Hg%elem_of_seqZ. apply count_thread_values; lia. }
  pose proof (strided_sum (fun x => if decide (sample_at input N x = j) then 1 else 0)
                S (12 * N) N ltac:(lia) ltac:(lia) ltac:(nia)) as E.
  cbv beta in E. rewrite E.
  - symmetry. etrans; [apply (f_equal (count_of j) (list_as_seqZ input))|].
    rewrite count_of_fmap, Hinput. symmetry.
    apply sumZ_fmap_ext. intros x Hx%elem_of_seqZ. unfold sample_at.
    destruct (Z.leb_spec 0 x); [|lia]. by destruct (Z.ltb_spec x N); [|lia].
  - intros x Hx. unfold sample_at.
    destruct (Z.leb_spec 0 x); simpl; [destruct (Z.ltb_spec x N); [lia|]|];
      destruct (decide (-1 = j)); lia.
Qed.

Lemma count_thread_le j b t :
  0 <= j -> 0 <= b < gd -> 0 <= t < bd ->
  count_of j (values_of (b * bd + t)) <= INT_MAX.
Proof.
  intros Hj Hb Ht. destruct geometry as (Hbd & Hgd & HN & Hnb & HS & Hidx & Hbi).
  pose proof (count_of_le_length j input). rewrite <- (count_grid j Hj) in H.
  pose proof (sumZ_fmap_elem_le
    (fun b => sumZ ((fun t => count_of j (values_of (b * bd + t))) <$> seqZ 0 bd))
    (seqZ 0 gd) b) as Hblk.
  pose proof (sumZ_fmap_elem_le
    (fun t => count_of j (values_of (b * bd + t))) (seqZ 0 bd) t) as Hthr.
  cbv beta in *.
  assert (forall b', 0 <= sumZ ((fun t => count_of j (values_of (b' * bd + t)))
                                 <$> seqZ 0 bd)) as Hpos.
  { intros b'. apply sumZ_fmap_nonneg. intros; apply count_of_nonneg. }
  specialize (Hblk ltac:(intros; apply Hpos) ltac:(apply elem_of_seqZ; lia)).
  specialize (Hthr ltac:(intros; apply count_of_nonneg) ltac:(apply elem_of_seqZ; lia)).
  unfold INT_MAX in *. lia.
Qed.

(** ** One thread between the barriers (lines 52-94) *)

Lemma accumulate_spec b t sh :
  0 <= b < gd -> 0 <= t < bd ->
  Z.of_nat (length sh) = numBins -> int_array sh ->
  exists sh',
    Optimized.accumulate fuel input N numBins (thread_of g b t) sh = Done sh' /\
    adds sh sh' (fun j => count_of j (values_of (b * bd + t))).
Proof.
  intros Hb Ht Hlen Hint.
  destruct geometry as (Hbd & Hgd & HN & Hnb & HS & Hidx & Hbi).
  pose proof (gid_range b t Hb Ht) as Hgid.
  unfold Optimized.accumulate, Optimized.tid, Optimized.stride.
  cbn [blockIdx blockDim threadIdx gridDim thread_of].
  fold bd gd. fold S. unfold INT_MAX in *.
  rewrite (wrap32_small S) by int_lia.
  rewrite (wrap32_small (b * bd + t)) by int_lia.
  rewrite wrap32_small
    by (unfold in_int, INT_MIN, INT_MAX, Optimized.elementsPerThread; lia).
  rewrite for_loop_foldM; unfold INT_MIN, INT_MAX, Optimized.elementsPerThread; try lia.
  2:{ unfold trip_count. destruct (Z.ltb_spec (b * bd + t) N); [|lia].
      assert ((N - (b * bd + t) + S * 12 - 1) / (S * 12) <= N); [|lia].
      apply Z.div_le_upper_bound; nia. }
  rewrite (foldM_ext _ (fun base st =>
             foldM (Optimized.classify numBins) (chunk_values input N S base) st)).
  2:{ intros base st Hbase. apply loop_indices_bounds in Hbase; [|lia|lia].
      unfold Optimized.chunk.
      rewrite (prefetch_spec input N Hinput); [done|lia|lia|].
      intros i Hi%elem_of_seqZ. unfold INT_MAX, Optimized.elementsPerThread in *. nia. }
  rewrite foldM_concat. fold (Optimized.elementsPerThread).
  fold (thread_values input N S (b * bd + t)).
  destruct (classify_all_inv numBins sh (values_of (b * bd + t)) []
              (Optimized.localHist0, sh) Hlen (thread_inv_start numBins sh Hint))
    as (st1 & -> & Hinv).
  { intros j Hj. by apply count_thread_le. }
  rewrite bind_Done.
  destruct (combine_spec numBins sh _ st1 Hlen Hinv) as (st2 & -> & Hadd).
  rewrite bind_Done. eauto.
Qed.

(** ** The grid *)

(** The kernel adds to every bin the number of samples equal to it. *)
(** The kernel under any schedule of the launch. *)
Lemma optimized_adds_in sharedHist0 hist :
  Z.of_nat (length sharedHist0) = numBins ->
  Z.of_nat (length hist) = numBins -> int_array hist ->
  exists hist',
    run_grid_in sched (Optimized.kernel fuel input N numBins) g sharedHist0 hist
    = Done hist' /\
    adds hist hist' (fun j => count_of j input).
Proof.
  destruct geometry as (Hbd & Hgd & HN & Hnb & HS & Hidx & Hbi).
  apply (phased_grid_adds fuel g numBins (Optimized.kernel fuel input N numBins)
           (fun gid j => count_of j (values_of gid))); try done; try (fold bd gd; lia).
  - intros b t sh Hb Ht Hlen Hint. by apply accumulate_spec.
  - intros gid j. apply count_of_nonneg.
  - intros j Hj. rewrite (sumZ_seqZ_mul (fun gid => count_of j (values_of gid))) by lia.
    apply count_grid. lia.
  - intros j Hj. pose proof (count_of_le_length j input). unfold INT_MAX in *. lia.
Qed.
End OptimizedKernel.

(** The kernel in index order. *)
Lemma optimized_adds fuel g input N numBins :
  launch_ok Optimized.elementsPerThread g N numBins ->
  Z.of_nat (length input) = N ->
  (Z.to_nat (Z.max N numBins) <= fuel)%nat ->
  forall sharedHist0 hist,
    Z.of_nat (length sharedHist0) = numBins ->
    Z.of_nat (length hist) = numBins -> int_array hist ->
    exists hist',
      computeHistogramOptimized fuel g sharedHist0 input hist N numBins = Done hist' /\
      adds hist hist' (fun j => count_of j input).
Proof.
  intros Hl Hin Hf sharedHist0 hist.
  apply (optimized_adds_in fuel g input N numBins (in_order g) (in_order_schedule g) Hl Hin Hf).
Qed.

(** ** The shared-memory kernel *)

Lemma uchar_val_range c : 0 <= uchar_val c <= 255.
Proof. unfold uchar_val. pose proof (Byte.to_N_bounded c). lia. Qed.

Lemma count_of_range (j : Z) (samples : list Z) (N : Z) :
  Z.of_nat (length samples) = N -> 0 <= j ->
  sumZ ((fun x => if decide (sample_at samples N x = j) then 1 else 0) <$> seqZ 0 N)
  = count_of j samples.
Proof.
  intros HN Hj. symmetry.
  etrans; [apply (f_equal (count_of j) (list_as_seqZ samples))|].
  rewrite count_of_fmap, HN. symmetry.
  apply sumZ_fmap_ext. intros x Hx%elem_of_seqZ. unfold sample_at.
  destruct (Z.leb_spec 0 x); [|lia]. by destruct (Z.ltb_spec x N); [|lia].
Qed.

Lemma load_sample (input : list uchar) (N i : Z) :
  Z.of_nat (length input) = N -> 0 <= i < N ->
  exists c, load input i = Done c /\ uchar_val c = sample_at (samples_of input) N i.
Proof.
  intros HN Hi.
  destruct (lookup_lt_is_Some_2 input (Z.to_nat i)) as [c Hc]; [lia|].
  exists c. split; [by apply load_Done; [lia|]|].
  unfold sample_at, samples_of.
  destruct (Z.leb_spec 0 i); [|lia]. destruct (Z.ltb_spec i N); [|lia]. simpl.
  rewrite (list_lookup_total_fmap uchar_val input (Z.to_nat i)) by lia.
  by rewrite (list_lookup_total_correct _ _ _ Hc).
Qed.

(** One sample counted: line 13, line 26 and line 114 all come to this. *)
Lemma count_sample_adds (input : list uchar) (N numBins i : Z) (m : list Z) :
  Z.of_nat (length input) = N -> 0 <= i < N ->
  Forall (fun v => v < numBins) (samples_of input) ->
  Z.of_nat (length m) = numBins -> int_array m ->
  exists m', (v ← load input i; atomicAdd m (uchar_val v) 1) = Done m' /\
    adds m m' (fun j => if decide (sample_at (samples_of input) N i = j) then 1 else 0).
Proof.
  intros HN Hi Hrange Hm Hmi.
  destruct (load_sample input N i HN Hi) as (c & Hl & Hc). rewrite Hl. simpl.
  assert (samples_of input !! Z.to_nat i = Some (uchar_val c)) as Hs.
  { apply load_inv in Hl as [_ Hl]. unfold samples_of. by rewrite list_lookup_fmap, Hl. }
  pose proof (Forall_lookup_1 (fun v => v < numBins) _ _ _ Hrange Hs) as Hlt. simpl in Hlt.
  pose proof (uchar_val_range c).
  destruct (atomicAdd_adds m (uchar_val c) 1 Hmi ltac:(lia)) as (m' & -> & Hadds).
  eexists; split; [done|]. eapply adds_ext; [|exact Hadds].
  intros j _. simpl. rewrite <- Hc.
  destruct (decide (j = uchar_val c)); destruct (decide (uchar_val c = j)); congruence.
Qed.

Section SharedKernel.
Variables (fuel : nat) (g : dim3) (input : list uchar) (N numBins : Z).
Variable sched : schedule.
Hypothesis Hsched : schedule_of g sched.
Hypothesis Hlaunch : launch_ok 1 g N numBins.
Hypothesis Hinput : Z.of_nat (length input) = N.
Hypothesis Hrange : Forall (fun v => v < numBins) (samples_of input).
Hypothesis Hfuel : (Z.to_nat (Z.max N numBins) <= fuel)%nat.

Let bd := blockDim_x g.
Let gd := gridDim_x g.
Let S := bd * gd.

(** The contribution of position [x] to bin [j]. *)
Let hit (j x : Z) : Z :=
  if decide (sample_at (samples_of input) N x = j) then 1 else 0.

Local Lemma shared_geometry :
  1 <= bd /\ 1 <= gd /\ 0 <= N /\ 0 <= numBins /\
  0 < S /\ N + S <= INT_MAX /\ numBins + bd <= INT_MAX.
Proof. destruct Hlaunch. unfold S, bd, gd in *. repeat split; try lia; nia. Qed.

(** Lines 25-27 for one thread. *)
Lemma shared_accumulate_spec b t sh :
  0 <= b < gd -> 0 <= t < bd ->
  Z.of_nat (length sh) = numBins -> int_array sh ->
  exists sh',
    Shared.accumulate fuel input N (thread_of g b t) sh = Done sh' /\
    adds sh sh' (fun j => sumZ (hit j <$> loop_indices (b * bd + t) N S)).
Proof.
  intros Hb Ht Hlen Hint.
  destruct shared_geometry as (Hbd & Hgd & HN & Hnb & HS & Hidx & Hbi).
  assert (0 <= b * bd + t < S) as Hgid by (unfold S; nia).
  unfold Shared.accumulate. cbn [blockIdx blockDim threadIdx gridDim thread_of].
  fold bd gd. fold S. unfold INT_MAX in *.
  rewrite wrap32_small by int_lia.
  rewrite for_loop_foldM; unfold INT_MIN, INT_MAX; try lia.
  2:{ unfold trip_count. destruct (Z.ltb_spec (b * bd + t) N); [|lia].
      assert ((N - (b * bd + t) + S - 1) / S <= N); [|lia].
      apply Z.div_le_upper_bound; nia. }
  apply (foldM_adds _ (fun i j => hit j i) _ (length sh)); [|done|done].
  intros i m Hi Hm Hmi. apply loop_indices_bounds in Hi; [|lia|lia].
  apply (count_sample_adds input N numBins i m); try done; lia.
Qed.

(** The kernel on samples that are all below [numBins], under any schedule
    of the launch. *)
Lemma shared_adds_in sharedHist0 hist :
  Z.of_nat (length sharedHist0) = numBins ->
  Z.of_nat (length hist) = numBins -> int_array hist ->
  exists hist',
    run_grid_in sched (Shared.kernel fuel input N numBins) g sharedHist0 hist
    = Done hist' /\
    adds hist hist' (fun j => count_of j (samples_of input)).
Proof.
  destruct shared_geometry as (Hbd & Hgd & HN & Hnb & HS & Hidx & Hbi).
  assert (Z.of_nat (length (samples_of input)) = N) as Hlen
    by (unfold samples_of; by rewrite length_fmap).
  apply (phased_grid_adds fuel g numBins (Shared.kernel fuel input N numBins)
           (fun gid j => sumZ (hit j <$> loop_indices gid N S)));
    try done; try (fold bd gd; lia).
  - intros b t sh Hb Ht Hl Hint. by apply shared_accumulate_spec.
  - intros gid j. apply sumZ_fmap_nonneg. intros x _. unfold hit. by destruct (decide _).
  - intros j Hj. fold bd gd. replace (gd * bd) with S by (unfold S; lia).
    rewrite (strided_cover (hit j)) by lia.
    apply count_of_range; [done|lia].
  - intros j Hj. pose proof (count_of_le_length j (samples_of input)).
    unfold INT_MAX in *. lia.
Qed.
End SharedKernel.

(** The kernel in index order. *)
Lemma shared_adds fuel g input N numBins :
  launch_ok 1 g N numBins ->
  Z.of_nat (length input) = N ->
  Forall (fun v => v < numBins) (samples_of input) ->
  (Z.to_nat (Z.max N numBins) <= fuel)%nat ->
  forall sharedHist0 hist,
    Z.of_nat (length sharedHist0) = numBins ->
    Z.of_nat (length hist) = numBins -> int_array hist ->
    exists hist',
      computeHistogramShared fuel g sharedHist0 input hist N numBins = Done hist' /\
      adds hist hist' (fun j => count_of j (samples_of input)).
Proof.
  intros Hl Hin Hrange Hf sharedHist0 hist.
  apply (shared_adds_in fuel g input N numBins (in_order g) (in_order_schedule g)
           Hl Hin Hrange Hf).
Qed.

(** ** The naive kernel *)

Section NaiveKernel.
Variables (g : dim3) (input : list uchar) (N numBins : Z).
Hypothesis Hgrid : 1 <= gridDim_x g.
Hypothesis Hblock : 1 <= blockDim_x g.
Hypothesis Hthreads : blockDim_x g * gridDim_x g <= INT_MAX.
Hypothesis HN : 0 <= N.
Hypothesis Hinput : Z.of_nat (length input) = N.
Hypothesis Hrange : Forall (fun v => v < numBins) (samples_of input).

Let bd := blockDim_x g.
Let gd := gridDim_x g.

(** The kernel counts the samples that have a thread: those at the
    positions below the number of threads launched. *)
Lemma naive_adds hist :
  Z.of_nat (length hist) = numBins -> int_array hist ->
  exists hist',
    computeHistogramNaive g input hist N numBins = Done hist' /\
    adds hist hist' (fun j =>
      sumZ ((fun gid => if decide (sample_at (samples_of input) N gid = j) then 1 else 0)
              <$> seqZ 0 (Z.min N (gd * bd)))).
Proof.
  intros Hlen Hint. unfold computeHistogramNaive, grid_blocks, block_threads.
  set (hit := fun j gid => if decide (sample_at (samples_of input) N gid = j) then 1 else 0).
  set (contrib := fun gid j => if gid <? N then hit j gid else 0).
  destruct (foldM_adds
    (fun b h => foldM (Naive.thread_body input N numBins)
                  (thread_of g b <$> seqZ 0 (blockDim_x g)) h)
    (fun b j => sumZ ((fun t => contrib (b * bd + t) j) <$> seqZ 0 bd))
    (seqZ 0 (gridDim_x g)) (length hist)) with (m := hist) as (hist' & -> & Hadds);
    [|done|done|].
  { intros b m Hb%elem_of_seqZ Hm Hmi. rewrite foldM_fmap.
    apply (foldM_adds _ (fun t j => contrib (b * bd + t) j) _ (length hist)); [|done|done].
    intros t m' Ht%elem_of_seqZ Hm' Hmi'.
    unfold Naive.thread_body. cbn [blockIdx blockDim threadIdx gridDim thread_of].
    fold bd. assert (0 <= b * bd + t < bd * gd) by (unfold bd, gd; nia).
    rewrite wrap32_small by (unfold in_int, INT_MIN, INT_MAX in *; fold bd gd in Hthreads; lia).
    unfold contrib. destruct (Z.ltb_spec (b * bd + t) N).
    - apply (count_sample_adds input N numBins _ m'); try done; lia.
    - eexists; split; [done|]. by apply adds_refl. }
  eexists; split; [done|]. eapply adds_ext; [|exact Hadds].
  intros j Hj. cbv beta. fold gd.
  rewrite <- (sumZ_seqZ_mul (fun gid => contrib gid j)) by (unfold bd, gd; lia).
  destruct (Z.le_ge_cases N (gd * bd)).
  - rewrite Z.min_l by done.
    rewrite (sumZ_seqZ_tail (fun gid => contrib gid j) N (gd * bd)); [|lia|].
    + apply sumZ_fmap_ext. intros x Hx%elem_of_seqZ. unfold contrib.
      by destruct (Z.ltb_spec x N); [|lia].
    + intros x Hx. unfold contrib. by destruct (Z.ltb_spec x N); [lia|].
  - rewrite Z.min_r by lia.
    apply sumZ_fmap_ext. intros x Hx%elem_of_seqZ. unfold contrib.
    by destruct (Z.ltb_spec x N); [|lia].
Qed.
End NaiveKernel.

(** ** The sequential counter *)

Section CPU.
Variables (fuel : nat) (input : list uchar) (N numBins : Z).
Hypothesis HN : 0 <= N < INT_MAX.
Hypothesis Hbins : 0 <= numBins < INT_MAX.
Hypothesis Hinput : Z.of_nat (length input) = N.
Hypothesis Hrange : Forall (fun v => v < numBins) (samples_of input).
Hypothesis Hfuel : (Z.to_nat (Z.max N numBins) <= fuel)%nat.

Lemma unit_loop_foldM {S} n (body : Z -> S -> outcome S) s :
  0 <= n < INT_MAX -> (Z.to_nat n <= fuel)%nat ->
  for_loop fuel 0 n 1 body s = foldM body (seqZ 0 n) s.
Proof.
  intros Hn Hf. unfold INT_MAX in *.
  assert (trip_count 0 n 1 = n) as Htc.
  { unfold trip_count. destruct (Z.ltb_spec 0 n); [|lia].
    rewrite Z.div_1_r. lia. }
  rewrite for_loop_foldM; unfold INT_MIN, INT_MAX; try lia.
  unfold loop_indices. rewrite Htc. f_equal.
  etrans; [|apply list_fmap_id]. apply list_fmap_ext. intros _ k _. simpl. lia.
Qed.

Lemma cpu_adds hist :
  Z.of_nat (length hist) = numBins ->
  exists hist',
    computeHistogramCPU fuel input hist N numBins = Done hist' /\
    adds (replicate (length hist) 0) hist' (fun j => count_of j (samples_of input)).
Proof.
  intros Hlen. unfold computeHistogramCPU.
  rewrite unit_loop_foldM by lia.
  destruct (foldM_store0 (seqZ 0 numBins) hist) as (h0 & -> & Hl0 & Hz).
  { intros i Hi%elem_of_seqZ. lia. }
  rewrite bind_Done.
  assert (h0 = replicate (length hist) 0) as ->.
  { apply list_eq. intros j. destruct (decide (j < length hist)%nat).
    - rewrite lookup_replicate_2 by done. apply Hz; [done|]. left.
      apply elem_of_seqZ. lia.
    - rewrite (lookup_ge_None_2 h0) by lia. symmetry. apply lookup_replicate_None. lia. }
  rewrite unit_loop_foldM by lia.
  destruct (foldM_adds
    (fun i h => v ← load input i; old ← load h (uchar_val v);
                store h (uchar_val v) (wrap32 (old + 1)))
    (fun i j => if decide (sample_at (samples_of input) N i = j) then 1 else 0)
    (seqZ 0 N) (length hist)) with (m := replicate (length hist) 0)
    as (hist' & -> & Hadds).
  { intros i m Hi%elem_of_seqZ Hm Hmi.
    apply (count_sample_adds input N numBins i m); try done; lia. }
  { by rewrite length_replicate. }
  { apply Forall_replicate. unfold in_int, INT_MIN, INT_MAX. lia. }
  eexists; split; [done|]. eapply adds_ext; [|exact Hadds].
  intros j Hj. cbv beta. apply count_of_range; [|lia].
  unfold samples_of. by rewrite length_fmap.
Qed.
End CPU.

(** ** From a zeroed histogram *)

Lemma adds_zero_eq (n : Z) (m' : list Z) (f : Z -> Z) :
  adds (replicate (Z.to_nat n) 0) m' f ->
  (forall j, 0 <= j < n -> 0 <= f j <= INT_MAX) ->
  m' = f <$> seqZ 0 n.
Proof.
  intros [Hl Hc] Hf. rewrite length_replicate in Hl.
  apply list_eq. intros i. rewrite list_lookup_fmap.
  destruct (decide (Z.of_nat i < n)) as [Hi|Hi].
  - rewrite lookup_seqZ_lt by done. csimpl.
    rewrite (Hc i 0) by (apply lookup_replicate_2; lia).
    rewrite !Z.add_0_l, wrap32_small; [done|].
    specialize (Hf (Z.of_nat i)). unfold in_int, INT_MIN, INT_MAX in *. lia.
  - rewrite lookup_seqZ_ge by lia. csimpl. apply lookup_ge_None. lia.
Qed.

Lemma zeros_int_array n : int_array (replicate n 0).
Proof. apply Forall_replicate. unfold in_int, INT_MIN, INT_MAX. lia. Qed.

Lemma count_of_bounds j samples N :
  Z.of_nat (length samples) = N -> N <= INT_MAX -> 0 <= count_of j samples <= INT_MAX.
Proof.
  intros HN Hle. pose proof (count_of_nonneg j samples).
  pose proof (count_of_le_length j samples). lia.
Qed.

(** The hierarchical kernel, started on a zeroed histogram, produces the
    histogram of its input. *)
Lemma optimized_histogram fuel g sharedHist0 input N numBins :
  launch_ok Optimized.elementsPerThread g N numBins ->
  Z.of_nat (length input) = N ->
  Z.of_nat (length sharedHist0) = numBins ->
  (Z.to_nat (Z.max N numBins) <= fuel)%nat ->
  computeHistogramOptimized fuel g sharedHist0 input (replicate (Z.to_nat numBins) 0) N numBins
  = Done (histogram_of numBins input).
Proof.
  intros Hl Hin Hsh Hf.
  destruct (optimized_adds fuel g input N numBins Hl Hin Hf sharedHist0
              (replicate (Z.to_nat numBins) 0)) as (h & -> & Hadds).
  - done.
  - rewrite length_replicate. destruct Hl. lia.
  - apply zeros_int_array.
  - f_equal. apply adds_zero_eq; [done|]. intros j Hj.
    apply (count_of_bounds j input N); [done|].
    destruct Hl. unfold Optimized.elementsPerThread in *. nia.
Qed.

(** ** What the hierarchical kernel reads *)




Section Prefetch.
Variables (input junk : list Z) (N : Z).
Hypothesis Hinput : Z.of_nat (length input) = N.




End Prefetch.

(** ** The statements of the specification *)



(** C2 (as amended). For every sample array of length [N] and every bin
    count, the hierarchical kernel, launched within the [int] range of its
    index arithmetic on a zeroed histogram, ends with a histogram whose bins
    sum to the number of samples with a value in [[0, numBins)]. *)
Theorem C2_hierarchical_sum_is_in_range_count
    (fuel : nat) (g : dim3) (sharedHist0 input : list Z) (N numBins : Z) :
  launch_ok Optimized.elementsPerThread g N numBins ->
  Z.of_nat (length input) = N ->
  Z.of_nat (length sharedHist0) = numBins ->
  (Z.to_nat (Z.max N numBins) <= fuel)%nat ->
  exists histogram,
    computeHistogramOptimized fuel g sharedHist0 input
      (replicate (Z.to_nat numBins) 0) N numBins = Done histogram /\
    sumZ histogram = count_in_range numBins input.
Proof.
  intros Hl Hin Hsh Hf. exists (histogram_of numBins input). split.
  - by apply optimized_histogram.
  - apply sumZ_histogram_of.
Qed.

Lemma launch_ok_2_3_10_4 :
  launch_ok Optimized.elementsPerThread {| gridDim_x := 2; blockDim_x := 3 |} 10 4.
Proof. constructor; simpl; unfold INT_MAX, Optimized.elementsPerThread; lia. Qed.

Lemma C2_witness :
  exists histogram,
    computeHistogramOptimized 10 {| gridDim_x := 2; blockDim_x := 3 |} [7; 7; 7; 7]
      [0; 1; -4; 2; 3; 9; 3; 0; 2; 1] (replicate (Z.to_nat 4) 0) 10 4 = Done histogram /\
    sumZ histogram = count_in_range 4 [0; 1; -4; 2; 3; 9; 3; 0; 2; 1].
Proof.
  apply (C2_hierarchical_sum_is_in_range_count 10 {| gridDim_x := 2; blockDim_x := 3 |}
           [7; 7; 7; 7] [0; 1; -4; 2; 3; 9; 3; 0; 2; 1] 10 4).
  - exact launch_ok_2_3_10_4.
  - reflexivity.
  - reflexivity.
  - simpl. lia.
Defined.

(** C8 (as amended). The hierarchical kernel accumulates into the global
    histogram: whatever [int]s it holds at the start, every bin ends with its
    initial value plus the number of samples equal to the bin, in 32-bit
    wrap-around arithmetic, so with exactly that sum whenever the sum is at
    most [INT_MAX]; and a bin whose shared count is not positive is not
    touched in global memory at all (the step returns the memory it was
    given, even one in which the cell does not exist). *)
Theorem C8_hierarchical_kernel_accumulates
    (fuel : nat) (g : dim3) (sharedHist0 input histogram : list Z) (N numBins : Z) :
  launch_ok Optimized.elementsPerThread g N numBins ->
  Z.of_nat (length input) = N ->
  Z.of_nat (length sharedHist0) = numBins ->
  Z.of_nat (length histogram) = numBins ->
  int_array histogram ->
  (Z.to_nat (Z.max N numBins) <= fuel)%nat ->
  (exists histogram',
     computeHistogramOptimized fuel g sharedHist0 input histogram N numBins
     = Done histogram' /\
     length histogram' = length histogram /\
     forall b initial,
       0 <= b < numBins -> histogram !! Z.to_nat b = Some initial ->
       histogram' !! Z.to_nat b = Some (wrap32 (initial + count_of b input)) /\
       (initial + count_of b input <= INT_MAX ->
        histogram' !! Z.to_nat b = Some (initial + count_of b input))) /\
  (forall sharedHist i val any_histogram,
     load sharedHist i = Done val -> val <= 0 ->
     Optimized.reduce_bin sharedHist i any_histogram = Done any_histogram).
Proof.
  intros Hl Hin Hsh Hlen Hint Hf. split.
  - destruct (optimized_adds fuel g input N numBins Hl Hin Hf sharedHist0 histogram
                Hsh Hlen Hint) as (h & -> & Hlh & Hcells).
    exists h. split; [done|]. split; [done|]. intros b initial Hb Hinit.
    pose proof (Hcells _ _ Hinit) as Hcell. rewrite Z2Nat.id in Hcell by lia.
    split; [done|]. intros Hle. rewrite Hcell. f_equal. apply wrap32_small.
    pose proof (Forall_lookup_1 _ _ _ _ Hint Hinit) as Hi.
    pose proof (count_of_nonneg b input).
    unfold in_int, INT_MIN, INT_MAX in *. lia.
  - intros sh i val h Hload Hval. unfold Optimized.reduce_bin. rewrite Hload. simpl.
    by destruct (Z.ltb_spec 0 val); [lia|].
Qed.

Lemma launch_ok_1_2_3_2 :
  launch_ok Optimized.elementsPerThread {| gridDim_x := 1; blockDim_x := 2 |} 3 2.
Proof. constructor; simpl; unfold INT_MAX, Optimized.elementsPerThread; lia. Qed.

Lemma C8_witness :
  (exists histogram',
     computeHistogramOptimized 3 {| gridDim_x := 1; blockDim_x := 2 |} [7; 7] [1; 1; 0] [40; 2]
       3 2 = Done histogram' /\
     length histogram' = length [40; 2] /\
     forall b initial,
       0 <= b < 2 -> [40; 2] !! Z.to_nat b = Some initial ->
       histogram' !! Z.to_nat b = Some (wrap32 (initial + count_of b [1; 1; 0])) /\
       (initial + count_of b [1; 1; 0] <= INT_MAX ->
        histogram' !! Z.to_nat b = Some (initial + count_of b [1; 1; 0]))) /\
  (forall sharedHist i val any_histogram,
     load sharedHist i = Done val -> val <= 0 ->
     Optimized.reduce_bin sharedHist i any_histogram = Done any_histogram).
Proof.
  apply (C8_hierarchical_kernel_accumulates 3 {| gridDim_x := 1; blockDim_x := 2 |}
           [7; 7] [1; 1; 0] [40; 2] 3 2).
  - exact launch_ok_1_2_3_2.
  - reflexivity.
  - reflexivity.
  - reflexivity.
  - repeat constructor; unfold INT_MIN, INT_MAX; lia.
  - simpl. lia.
Defined.

(** C8 as stated fails: a bin that holds [INT_MAX] and receives one sample
    does not end with [INT_MAX + 1]. *)
Lemma C8_counterexample :
  computeHistogramOptimized 1 {| gridDim_x := 1; blockDim_x := 1 |} [0] [0] [2147483647] 1 1
  = Done [-2147483648] /\
  2147483647 + count_of 0 [0] = 2147483648.
Proof. split; vm_compute; reflexivity. Qed.

(** ** Samples outside the bins *)

Lemma count_of_filter (P : Z -> Prop) `{!forall v, Decision (P v)} b (l : list Z) :
  P b -> count_of b (filter P l) = count_of b l.
Proof.
  intros Hb. unfold count_of. induction l as [|v l IH]; [done|].
  rewrite filter_cons. destruct (decide (P v)) as [Hv|Hv]; csimpl.
  - by rewrite IH.
  - rewrite IH. destruct (decide (v = b)) as [->|]; [done|lia].
Qed.

Lemma histogram_of_in_range numBins (input : list Z) :
  histogram_of numBins (filter (fun v => 0 <= v < numBins) input)
  = histogram_of numBins input.
Proof.
  unfold histogram_of. apply list_fmap_ext. intros _ b Hb%list_elem_of_lookup_2%elem_of_seqZ.
  apply (count_of_filter (fun v => 0 <= v < numBins)). lia.
Qed.

(** C3 (as amended). The hierarchical kernel keeps every sample below [0]
    or at or above the bin count out of every bin, and does not fail on
    them: started on a zeroed histogram it ends with the histogram of the
    samples that are in range.  The shared-memory kernel has no such filter:
    counting a sample at or above the length of the shared array is an
    access outside that array. *)
Theorem C3_hierarchical_filters_shared_does_not
    (fuel : nat) (g : dim3) (sharedHist0 input : list Z) (N numBins : Z) :
  launch_ok Optimized.elementsPerThread g N numBins ->
  Z.of_nat (length input) = N ->
  Z.of_nat (length sharedHist0) = numBins ->
  (Z.to_nat (Z.max N numBins) <= fuel)%nat ->
  computeHistogramOptimized fuel g sharedHist0 input
    (replicate (Z.to_nat numBins) 0) N numBins
  = Done (histogram_of numBins (filter (fun v => 0 <= v < numBins) input)) /\
  (forall (bytes : list uchar) i c (sharedHist : list Z),
     load bytes i = Done c -> Z.of_nat (length sharedHist) <= uchar_val c ->
     Shared.count_sample bytes i sharedHist = Fault).
Proof.
  intros Hl Hin Hsh Hf. split.
  - rewrite histogram_of_in_range. by apply optimized_histogram.
  - intros bytes i c sh Hload Hc. unfold Shared.count_sample. rewrite Hload. simpl.
    by apply atomicAdd_Fault.
Qed.

Lemma C3_witness :
  computeHistogramOptimized 10 {| gridDim_x := 2; blockDim_x := 3 |} [7; 7; 7; 7]
    [0; 1; -4; 2; 3; 9; 3; 0; 2; 1] (replicate (Z.to_nat 4) 0) 10 4
  = Done (histogram_of 4 (filter (fun v => 0 <= v < 4) [0; 1; -4; 2; 3; 9; 3; 0; 2; 1])) /\
  (forall (bytes : list uchar) i c (sharedHist : list Z),
     load bytes i = Done c -> Z.of_nat (length sharedHist) <= uchar_val c ->
     Shared.count_sample bytes i sharedHist = Fault).
Proof.
  apply (C3_hierarchical_filters_shared_does_not 10 {| gridDim_x := 2; blockDim_x := 3 |}
           [7; 7; 7; 7] [0; 1; -4; 2; 3; 9; 3; 0; 2; 1] 10 4).
  - exact launch_ok_2_3_10_4.
  - reflexivity.
  - reflexivity.
  - simpl. lia.
Defined.

(** C3 as stated fails for the shared-memory kernel: one sample of value 5
    with 4 bins is not dropped, the kernel indexes the shared array with it. *)
Lemma C3_counterexample :
  computeHistogramShared 9 {| gridDim_x := 1; blockDim_x := 1 |} [7; 7; 7; 7]
    [Byte.x05] [0; 0; 0; 0] 1 4 = Fault /\
  computeHistogramOptimized 9 {| gridDim_x := 1; blockDim_x := 1 |} [7; 7; 7; 7]
    [5] [0; 0; 0; 0] 1 4 = Done [0; 0; 0; 0].
Proof. split; vm_compute; reflexivity. Qed.

(** ** The reference counter of the harness *)

Lemma reference_histogram_spec (input_data : list Z) (N B : Z) :
  Z.of_nat (length input_data) = N -> N <= INT_MAX -> 0 <= B ->
  Forall (fun v => 0 <= v < B) input_data ->
  tester.reference_histogram input_data N B = Done (histogram_of B input_data).
Proof.
  intros HN Hmax HB Hrange. unfold tester.reference_histogram.
  destruct (foldM_adds
    (fun i histogram => v ← load input_data i; old ← load histogram v;
                        store histogram v (wrap32 (old + 1)))
    (fun i j => if decide (sample_at input_data N i = j) then 1 else 0)
    (seqZ 0 N) (Z.to_nat B)) with (m := replicate (Z.to_nat B) 0)
    as (hist' & -> & Hadds).
  - intros i m Hi%elem_of_seqZ Hm Hmi.
    destruct (lookup_lt_is_Some_2 input_data (Z.to_nat i)) as [v Hv]; [lia|].
    rewrite (load_Done input_data i v) by (done || lia). rewrite bind_Done.
    pose proof (Forall_lookup_1 _ _ _ _ Hrange Hv) as Hvr. simpl in Hvr.
    destruct (atomicAdd_adds m v 1 Hmi ltac:(lia)) as (m' & Hm' & Ha).
    exists m'. split; [exact Hm'|]. eapply adds_ext; [|exact Ha].
    intros j _. simpl. unfold sample_at.
    destruct (Z.leb_spec 0 i); [|lia]. destruct (Z.ltb_spec i N); [|lia]. simpl.
    rewrite (list_lookup_total_correct _ _ _ Hv).
    destruct (decide (j = v)); destruct (decide (v = j)); congruence.
  - by rewrite length_replicate.
  - apply zeros_int_array.
  - f_equal. apply adds_zero_eq.
    + eapply adds_ext; [|exact Hadds]. intros j Hj. cbv beta.
      rewrite length_replicate in Hj. apply count_of_range; [done|lia].
    + intros j Hj. by apply (count_of_bounds j input_data N).
Qed.

(** ** All counters on samples that are in range *)



Lemma launch_ok_1_2_4_4 :
  launch_ok Optimized.elementsPerThread {| gridDim_x := 1; blockDim_x := 2 |} 4 4.
Proof. constructor; simpl; unfold INT_MAX, Optimized.elementsPerThread; lia. Qed.



(** ** The launch planner *)

Lemma ceil_div_spec a b : 0 < b -> b * (ceil_div a b - 1) < a <= b * ceil_div a b.
Proof.
  intros Hb. unfold ceil_div.
  pose proof (Z.div_mod (- a) b ltac:(lia)).
  pose proof (Z.mod_pos_bound (- a) b Hb). nia.
Qed.

Lemma ceil_div_idiom a b : 0 < b -> (a + b - 1) / b = ceil_div a b.
Proof.
  intros Hb. pose proof (ceil_div_spec a b Hb).
  symmetry. apply Z.div_unique with (r := a + b - 1 - b * ceil_div a b); lia.
Qed.

(** Line 168: the occupancy target. *)
Lemma occupancy_target (numSMs : Z) :
  0 <= numSMs <= 1048575 ->
  wrap32 (wrap32 (wrap32 (numSMs * 2048) + solution.blockSize) - 1) `quot` solution.blockSize
  = ceil_div (numSMs * 2048) solution.blockSize.
Proof.
  intros Hs. unfold solution.blockSize.
  rewrite (wrap32_small (numSMs * 2048)) by int_lia.
  rewrite (wrap32_small (numSMs * 2048 + 1024)) by int_lia.
  rewrite wrap32_small by int_lia.
  rewrite Z.quot_div_nonneg by lia. by apply ceil_div_idiom.
Qed.

(** Line 171: the work-covering bound. *)
Lemma work_bound (N : Z) :
  0 <= N <= 2147471359 ->
  wrap32 (wrap32 (N + wrap32 (solution.blockSize * 12)) - 1)
    `quot` wrap32 (solution.blockSize * 12)
  = ceil_div N (solution.blockSize * 12).
Proof.
  intros HN. unfold solution.blockSize.
  rewrite (wrap32_small (1024 * 12)) by int_lia.
  rewrite (wrap32_small (N + 1024 * 12)) by int_lia.
  rewrite wrap32_small by int_lia.
  rewrite Z.quot_div_nonneg by lia. by apply ceil_div_idiom.
Qed.




(** ** The kernel finishes *)

Lemma foldM_finishes {A S} (f : A -> S -> outcome S) l s :
  (forall a s, f a s <> OutOfFuel) -> foldM f l s <> OutOfFuel.
Proof.
  intros Hf. revert s. induction l as [|a l IH]; intros s; csimpl; [done|].
  destruct (f a s) eqn:E; simpl; [apply IH|done|by apply Hf in E].
Qed.

(** A loop with a positive step whose body cannot go on below index [0]
    comes to an end, also when its index wraps around. *)
Lemma for_loop_finishes {S} (body : Z -> S -> outcome S) bound step :
  0 < step <= INT_MAX ->
  (forall j s, body j s <> OutOfFuel) ->
  (forall j s, INT_MIN <= j < 0 -> body j s = Fault) ->
  forall fuel i s,
    0 <= i <= INT_MAX -> (Z.to_nat (bound - i) + 1 <= fuel)%nat ->
    for_loop fuel i bound step body s <> OutOfFuel.
Proof.
  intros Hs Hnf Hneg. induction fuel as [|fuel IH]; intros i s Hi Hf; [lia|].
  simpl. destruct (Z.ltb_spec i bound) as [Hlt|]; [|done].
  destruct (body i s) as [s'| |] eqn:E; simpl; [|done|by apply Hnf in E].
  pose proof (wrap32_in_int (i + step)) as Hw.
  destruct (Z.le_gt_cases (i + step) INT_MAX) as [Hle|Hgt].
  - rewrite wrap32_small by (unfold in_int, INT_MIN, INT_MAX in *; lia).
    apply IH; lia.
  - assert (wrap32 (i + step) < 0) as Hwneg.
    { unfold wrap32, INT_MAX in *.
      replace (i + step + 2147483648) with (i + step - 2147483648 + 1 * 4294967296) by lia.
      rewrite Z.mod_add by lia. rewrite Z.mod_small by lia. lia. }
    destruct fuel as [|fuel]; [lia|]. simpl.
    destruct (Z.ltb_spec (wrap32 (i + step)) bound); [|done].
    rewrite Hneg by (unfold in_int in Hw; lia). done.
Qed.

Lemma load_finishes {A} (m : list A) i : load m i <> OutOfFuel.
Proof. unfold load. destruct (i <? 0); [done|]. by destruct (m !! Z.to_nat i). Qed.

Lemma store_finishes {A} (m : list A) i v : store m i v <> OutOfFuel.
Proof. unfold store. by destruct (_ && _). Qed.

Lemma atomicAdd_finishes m i v : atomicAdd m i v <> OutOfFuel.
Proof.
  unfold atomicAdd. destruct (load m i) eqn:E; simpl; [apply store_finishes|done|].
  by apply load_finishes in E.
Qed.

Lemma load_negative {A} (m : list A) i : i < 0 -> load m i = Fault.
Proof. intros Hi. unfold load. by destruct (Z.ltb_spec i 0); [|lia]. Qed.

Lemma store_negative {A} (m : list A) i v : i < 0 -> store m i v = Fault.
Proof. intros Hi. unfold store. by destruct (Z.leb_spec 0 i); [lia|]. Qed.

Section Finishes.
Variables (fuel : nat) (g : dim3) (input : list Z) (N numBins : Z).
Hypothesis Hgrid : 1 <= gridDim_x g.
Hypothesis Hblock : 1 <= blockDim_x g.
Hypothesis Hstride : 12 * (blockDim_x g * gridDim_x g) <= INT_MAX.
Hypothesis HN : 0 <= N.
Hypothesis Hfuel : (Z.to_nat (Z.max N numBins) + 1 <= fuel)%nat.

Lemma prefetch_finishes base strd slots :
  Optimized.prefetch input N base strd slots <> OutOfFuel.
Proof.
  induction slots as [|i slots IH]; simpl; [done|].
  unfold Optimized.prefetch_slot.
  destruct (wrap32 (base + wrap32 (i * strd)) <? N); simpl.
  - destruct (load input _) eqn:E; simpl; [|done|by apply load_finishes in E].
    by destruct (Optimized.prefetch input N base strd slots).
  - by destruct (Optimized.prefetch input N base strd slots).
Qed.

Lemma classify_finishes v st : Optimized.classify numBins v st <> OutOfFuel.
Proof.
  destruct st as [lh sh]. unfold Optimized.classify.
  destruct (_ && _); [|done]. destruct (v <? 32).
  - destruct (load lh v) eqn:E; simpl; [|done|by apply load_finishes in E].
    destruct (store lh v _) eqn:E'; simpl; [done|done|by apply store_finishes in E'].
  - destruct (atomicAdd sh v 1) eqn:E; simpl; [done|done|by apply atomicAdd_finishes in E].
Qed.

Lemma chunk_finishes strd base st :
  Optimized.chunk input N numBins strd base st <> OutOfFuel.
Proof.
  unfold Optimized.chunk.
  destruct (Optimized.prefetch input N base strd _) eqn:E; simpl;
    [|done|by apply prefetch_finishes in E].
  apply foldM_finishes. apply classify_finishes.
Qed.

Lemma chunk_negative strd base st :
  INT_MIN <= base < 0 -> Optimized.chunk input N numBins strd base st = Fault.
Proof.
  intros Hb. unfold Optimized.chunk, Optimized.elementsPerThread.
  rewrite seqZ_cons by lia. cbn [Optimized.prefetch].
  unfold Optimized.prefetch_slot. rewrite Z.mul_0_l.
  rewrite (wrap32_small 0) by int_lia.
  rewrite Z.add_0_r, wrap32_small by (unfold in_int, INT_MIN, INT_MAX in *; lia).
  destruct (Z.ltb_spec base N); [|lia]. by rewrite load_negative by lia.
Qed.

Lemma combine_local_finishes i st : Optimized.combine_local i st <> OutOfFuel.
Proof.
  destruct st as [lh sh]. unfold Optimized.combine_local.
  destruct (load lh i) eqn:E; simpl; [|done|by apply load_finishes in E].
  destruct (0 <? _); [|done].
  destruct (atomicAdd sh i _) eqn:E'; simpl; [done|done|by apply atomicAdd_finishes in E'].
Qed.

Local Lemma thread_range b t :
  0 <= b < gridDim_x g -> 0 <= t < blockDim_x g ->
  0 <= b * blockDim_x g + t < blockDim_x g * gridDim_x g.
Proof. nia. Qed.

Lemma zero_shared_finishes b t sh :
  0 <= b < gridDim_x g -> 0 <= t < blockDim_x g ->
  Optimized.zero_shared fuel numBins (thread_of g b t) sh <> OutOfFuel.
Proof.
  intros Hb Ht. unfold Optimized.zero_shared. cbn [threadIdx blockDim thread_of].
  pose proof (thread_range b t Hb Ht). unfold INT_MAX in *.
  rewrite wrap32_small by (unfold in_int, INT_MIN, INT_MAX; nia).
  apply for_loop_finishes; unfold INT_MAX, INT_MIN; try nia.
  - intros; apply store_finishes.
  - intros; apply store_negative; lia.
Qed.

Lemma reduce_finishes b t sh h :
  0 <= b < gridDim_x g -> 0 <= t < blockDim_x g ->
  Optimized.reduce fuel numBins (thread_of g b t) sh h <> OutOfFuel.
Proof.
  intros Hb Ht. unfold Optimized.reduce. cbn [threadIdx blockDim thread_of].
  pose proof (thread_range b t Hb Ht). unfold INT_MAX in *.
  rewrite wrap32_small by (unfold in_int, INT_MIN, INT_MAX; nia).
  apply for_loop_finishes; unfold INT_MAX, INT_MIN; try nia.
  - intros j s. unfold Optimized.reduce_bin.
    destruct (load sh j) eqn:E; simpl; [|done|by apply load_finishes in E].
    destruct (0 <? _); [apply atomicAdd_finishes|done].
  - intros j s Hj. unfold Optimized.reduce_bin. by rewrite load_negative by lia.
Qed.

Lemma accumulate_finishes b t sh :
  0 <= b < gridDim_x g -> 0 <= t < blockDim_x g ->
  Optimized.accumulate fuel input N numBins (thread_of g b t) sh <> OutOfFuel.
Proof.
  intros Hb Ht. unfold Optimized.accumulate, Optimized.tid, Optimized.stride.
  cbn [blockIdx threadIdx blockDim gridDim thread_of].
  pose proof (thread_range b t Hb Ht). unfold INT_MAX, Optimized.elementsPerThread in *.
  rewrite (wrap32_small (blockDim_x g * gridDim_x g))
    by int_lia.
  rewrite (wrap32_small (b * blockDim_x g + t)) by int_lia.
  rewrite wrap32_small by int_lia.
  destruct (for_loop fuel _ N _ _ _) as [st| |] eqn:E;
    [rewrite bind_Done|by cbn [mbind outcome_bind]|exfalso].
  - destruct (foldM Optimized.combine_local (seqZ 0 32) st) eqn:E';
      [by rewrite bind_Done|by cbn [mbind outcome_bind]|].
    by apply foldM_finishes in E'; [|apply combine_local_finishes].
  - apply for_loop_finishes in E; unfold INT_MAX, INT_MIN; try lia; try done.
    + intros; apply chunk_finishes.
    + intros; by apply chunk_negative.
Qed.

Lemma foldM_threads_finishes {S} (f : thread -> S -> outcome S) b s :
  0 <= b < gridDim_x g ->
  (forall t s, 0 <= t < blockDim_x g -> f (thread_of g b t) s <> OutOfFuel) ->
  foldM f (block_threads g b) s <> OutOfFuel.
Proof.
  intros Hb Hf. unfold block_threads. rewrite foldM_fmap.
  pose proof (foldM_ext (fun t => f (thread_of g b t))
                (fun t s => if decide (0 <= t < blockDim_x g)
                            then f (thread_of g b t) s else Done s)
                (seqZ 0 (blockDim_x g)) s) as E.
  rewrite E.
  - apply foldM_finishes. intros t s'. destruct (decide _); [by apply Hf|done].
  - intros t s' Ht%elem_of_seqZ. by destruct (decide _); [|lia].
Qed.

Lemma optimized_finishes sharedHist0 histogram :
  computeHistogramOptimized fuel g sharedHist0 input histogram N numBins <> OutOfFuel.
Proof.
  unfold computeHistogramOptimized, run_grid, grid_blocks.
  pose proof (foldM_ext (run_block (Optimized.kernel fuel input N numBins) g sharedHist0)
                (fun b h => if decide (0 <= b < gridDim_x g)
                            then run_block (Optimized.kernel fuel input N numBins) g
                                   sharedHist0 b h
                            else Done h)
                (seqZ 0 (gridDim_x g)) histogram) as E.
  rewrite E.
  2:{ intros b h Hb%elem_of_seqZ. by destruct (decide _); [|lia]. }
  apply foldM_finishes. intros b h. destruct (decide _) as [Hb|]; [|done].
  unfold run_block. cbn [before_barrier1 before_barrier2 after_barrier2 Optimized.kernel].
  destruct (foldM (Optimized.zero_shared fuel numBins) _ _) as [s1| |] eqn:E1;
    simpl; [|done|].
  2:{ apply foldM_threads_finishes in E1; [done|done|].
      intros; by apply zero_shared_finishes. }
  destruct (foldM (Optimized.accumulate fuel input N numBins) _ _) as [s2| |] eqn:E2;
    simpl; [|done|].
  2:{ apply foldM_threads_finishes in E2; [done|done|].
      intros; by apply accumulate_finishes. }
  apply foldM_threads_finishes; [done|]. intros; by apply reduce_finishes.
Qed.
End Finishes.

(** ** [compute] *)

Lemma gridSize_le dev N : solution.gridSize dev N <= 174762.
Proof.
  unfold solution.gridSize, solution.blockSize.
  set (gs := wrap32 (wrap32 (wrap32 (solution.numSMs dev * 2048) + 1024) - 1) `quot` 1024).
  set (x := wrap32 (wrap32 (N + wrap32 (1024 * 12)) - 1)).
  assert (x `quot` wrap32 (1024 * 12) <= 174762) as Hle.
  { change (wrap32 (1024 * 12)) with 12288.
    change 174762 with (2147483647 `quot` 12288).
    apply Z.quot_le_mono; [lia|]. pose proof (wrap32_in_int (wrap32 (N + 12288) - 1)).
    unfold in_int, INT_MAX in *. subst x. change (wrap32 (1024 * 12)) with 12288. lia. }
  destruct (Z.ltb_spec (x `quot` wrap32 (1024 * 12)) gs); lia.
Qed.

Lemma gridSize_no_samples dev : solution.gridSize dev 0 <= 0.
Proof.
  unfold solution.gridSize, solution.blockSize.
  set (gs := wrap32 (wrap32 (wrap32 (solution.numSMs dev * 2048) + 1024) - 1) `quot` 1024).
  change (wrap32 (wrap32 (0 + wrap32 (1024 * 12)) - 1) `quot` wrap32 (1024 * 12)) with 0.
  destruct (Z.ltb_spec 0 gs); lia.
Qed.

Lemma launch_optimized_finishes fuel dev grid smem d_input d_histogram N B :
  0 <= N -> grid <= 174762 -> (Z.to_nat (Z.max N B) + 1 <= fuel)%nat ->
  launch_optimized fuel dev grid solution.blockSize smem d_input d_histogram N B
  <> OutOfFuel.
Proof.
  intros HN Hg Hf. unfold launch_optimized.
  destruct (launch_accepted dev grid solution.blockSize smem) eqn:E; [|done].
  unfold launch_accepted in E. repeat (apply andb_prop in E as [E ?]).
  apply optimized_finishes; simpl; unfold solution.blockSize, INT_MAX in *; lia.
Qed.

Lemma launch_refused fuel dev grid block smem d_input d_histogram N B :
  launch_accepted dev grid block smem = false ->
  launch_optimized fuel dev grid block smem d_input d_histogram N B = Done d_histogram.
Proof. intros E. unfold launch_optimized. by rewrite E. Qed.

(** C6. For every bin count [B], [compute] with [N = 0] returns and
    leaves in its output file a histogram of length [B] whose bins are all
    zero (the grid size comes out at most [0], the device refuses the launch
    and the zero-filled histogram is copied back). *)
Theorem C6_no_samples_all_zero
    (fuel : nat) (dev : device) (tmp : string) (fs : files) (input_path : string) (B : Z) :
  0 <= B ->
  let r := solution.compute fuel dev tmp fs input_path 0 B in
  result r = Returned (solution.sol_path tmp) /\
  files_after r !! solution.sol_path tmp = Some (replicate (Z.to_nat B) 0).
Proof.
  intros HB r. subst r. unfold solution.compute.
  destruct (Z.ltb_spec 0 0); [lia|]. destruct (Z.ltb_spec B 0); [lia|].
  rewrite launch_refused.
  - simpl. split; [done|]. by rewrite lookup_insert_eq.
  - unfold launch_accepted. pose proof (gridSize_no_samples dev).
    destruct (Z.leb_spec 1 (solution.gridSize dev 0)); [lia|].
    by rewrite andb_false_r.
Qed.

Lemma C6_witness :
  let r := solution.compute 0 v100 "/tmp" ∅ "/tmp/input-0.dat" 0 5 in
  result r = Returned (solution.sol_path "/tmp") /\
  files_after r !! solution.sol_path "/tmp" = Some (replicate (Z.to_nat 5) 0).
Proof.
  apply (C6_no_samples_all_zero 0 v100 "/tmp" ∅ "/tmp/input-0.dat" 5). lia.
Defined.

(** C10. For every input path and all [N >= 0] and [B >= 0], [compute]
    returns the same path, the file [student_histogram.dat] in the temporary
    directory, and that file exists afterwards; and whatever an earlier call
    left in that file has no effect on the call: it is emptied first and
    written anew. *)
Theorem C10_compute_returns_constant_path
    (fuel : nat) (dev : device) (tmp : string) (fs : files) (input_path : string)
    (N B : Z) :
  0 <= N -> 0 <= B -> (Z.to_nat (Z.max N B) + 1 <= fuel)%nat ->
  let r := solution.compute fuel dev tmp fs input_path N B in
  result r = Returned (path_join tmp "student_histogram.dat") /\
  is_Some (files_after r !! path_join tmp "student_histogram.dat") /\
  forall previous,
    solution.compute fuel dev tmp (<[path_join tmp "student_histogram.dat" := previous]> fs)
      input_path N B = r.
Proof.
  intros HN HB Hf r. subst r. split; [|split].
  - unfold solution.compute.
    destruct (Z.ltb_spec N 0); [lia|]. destruct (Z.ltb_spec B 0); [lia|].
    destruct (launch_optimized _ _ _ _ _ _ _ _ _) eqn:E; [done|done|].
    by apply launch_optimized_finishes in E; [| |apply gridSize_le|].
  - unfold solution.compute.
    destruct (Z.ltb_spec N 0); [lia|]. destruct (Z.ltb_spec B 0); [lia|].
    destruct (launch_optimized _ _ _ _ _ _ _ _ _) eqn:E; simpl.
    + fold (solution.sol_path tmp). rewrite lookup_insert_eq. eauto.
    + fold (solution.sol_path tmp). rewrite lookup_insert_eq. eauto.
    + by apply launch_optimized_finishes in E; [| |apply gridSize_le|].
  - intros previous. unfold solution.compute.
    fold (solution.sol_path tmp). by rewrite insert_insert_eq.
Qed.

Lemma C10_witness :
  let r := solution.compute 5 v100 "/tmp" ∅ "/tmp/input-4.dat" 4 2 in
  result r = Returned (path_join "/tmp" "student_histogram.dat") /\
  is_Some (files_after r !! path_join "/tmp" "student_histogram.dat") /\
  forall previous,
    solution.compute 5 v100 "/tmp" (<[path_join "/tmp" "student_histogram.dat" := previous]> ∅)
      "/tmp/input-4.dat" 4 2 = r.
Proof.
  apply (C10_compute_returns_constant_path 5 v100 "/tmp" ∅ "/tmp/input-4.dat" 4 2).
  - lia.
  - lia.
  - simpl. lia.
Defined.




(** ** The top of the [int] range *)

(** A loop whose [m]-th iteration is an access outside an array. *)
Lemma for_loop_reaches_fault {S} (inv : S -> Prop) (body : Z -> S -> outcome S)
    (bound step : Z) (m : nat) :
  0 < step ->
  forall fuel i s,
    inv s -> INT_MIN <= i ->
    i + Z.of_nat m * step < bound -> i + Z.of_nat m * step <= INT_MAX ->
    (forall k s, 0 <= k < Z.of_nat m -> inv s ->
       exists s', body (i + k * step) s = Done s' /\ inv s') ->
    (forall s, inv s -> body (i + Z.of_nat m * step) s = Fault) ->
    (m < fuel)%nat ->
    for_loop fuel i bound step body s = Fault.
Proof.
  intros Hstep. induction m as [|m IH]; intros fuel i s Hinv Hi Hlt Hmax Hgood Hbad Hf.
  - destruct fuel as [|fuel]; [lia|]. simpl.
    destruct (Z.ltb_spec i bound); [|lia].
    replace (i + Z.of_nat 0 * step) with i in Hbad by lia. by rewrite Hbad.
  - destruct fuel as [|fuel]; [lia|]. simpl.
    destruct (Z.ltb_spec i bound); [|nia].
    destruct (Hgood 0 s ltac:(lia) Hinv) as (s' & E & Hinv').
    replace (i + 0 * step) with i in E by lia. rewrite E, bind_Done.
    rewrite wrap32_small by (unfold in_int, INT_MIN, INT_MAX in *; nia).
    apply IH; try done; try lia.
    + intros k s0 Hk Hs0.
      destruct (Hgood (k + 1) s0 ltac:(lia) Hs0) as (s1 & E1 & H1).
      exists s1. split; [|done]. rewrite <- E1. f_equal. lia.
    + intros s0 Hs0. rewrite <- (Hbad s0 Hs0). f_equal. lia.
Qed.

Lemma foldM_inv {A S} (inv : S -> Prop) (f : A -> S -> outcome S) l s :
  (forall a s, inv s -> exists s', f a s = Done s' /\ inv s') ->
  inv s -> exists s', foldM f l s = Done s' /\ inv s'.
Proof.
  intros Hf. revert s. induction l as [|a l IH]; intros s Hs; csimpl; [eauto|].
  destruct (Hf a s Hs) as (s1 & -> & H1). rewrite bind_Done. by apply IH.
Qed.

(** A thread that has its two arrays classifies any value. *)
Lemma classify_Done numBins v (st : list Z * list Z) :
  length (fst st) = 32%nat -> Z.of_nat (length (snd st)) = numBins ->
  exists st', Optimized.classify numBins v st = Done st' /\
    length (fst st') = 32%nat /\ Z.of_nat (length (snd st')) = numBins.
Proof.
  destruct st as [lh sh]. simpl. intros Hlh Hsh. unfold Optimized.classify.
  destruct (Z.leb_spec 0 v); [|by eauto]. destruct (Z.ltb_spec v numBins); [|by eauto].
  simpl. destruct (Z.ltb_spec v 32).
  - destruct (lookup_lt_is_Some_2 lh (Z.to_nat v)) as [x Hx]; [lia|].
    rewrite (load_Done lh v x) by done. rewrite bind_Done.
    rewrite store_Done by lia. rewrite bind_Done.
    eexists; split; [done|]. simpl. by rewrite length_insert.
  - destruct (lookup_lt_is_Some_2 sh (Z.to_nat v)) as [x Hx]; [lia|].
    rewrite (atomicAdd_Done sh v 1 x) by (done || lia). rewrite bind_Done.
    eexists; split; [done|]. simpl. by rewrite length_insert.
Qed.

Section TopOfRange.
Variables (fuel : nat) (input sharedHist0 histogram : list Z).
Hypothesis Hinput : Z.of_nat (length input) = 2147483647.
Hypothesis Hshared : Z.of_nat (length sharedHist0) = 1.

Let inv (st : list Z * list Z) : Prop :=
  length (fst st) = 32%nat /\ Z.of_nat (length (snd st)) = 1.

(** The chunks below the last one: all twelve positions are samples. *)
Local Lemma chunk_below k st :
  0 <= k < 178956970 -> inv st ->
  exists st', Optimized.chunk input 2147483647 1 1 (0 + k * 12) st = Done st' /\ inv st'.
Proof.
  intros Hk [Hlh Hsh]. unfold Optimized.chunk, Optimized.elementsPerThread.
  rewrite (prefetch_spec input 2147483647 Hinput);
    [|lia|lia|intros i Hi%elem_of_seqZ; unfold INT_MAX; lia].
  rewrite bind_Done. apply (foldM_inv inv); [|done].
  intros v s [H1 H2]. by apply classify_Done.
Qed.

(** The last chunk starts at 2147483640: its slot 8 is at [2^31], which in
    an [int] is [INT_MIN]. *)
Local Lemma chunk_last st :
  Optimized.chunk input 2147483647 1 1 (0 + 178956970 * 12) st = Fault.
Proof.
  unfold Optimized.chunk, Optimized.elementsPerThread.
  change (0 + 178956970 * 12) with 2147483640.
  change (seqZ 0 12) with [0; 1; 2; 3; 4; 5; 6; 7; 8; 9; 10; 11].
  cbn [Optimized.prefetch].
  rewrite (prefetch_slot_spec input 2147483647 Hinput 2147483640 1 0),
    (prefetch_slot_spec input 2147483647 Hinput 2147483640 1 1),
    (prefetch_slot_spec input 2147483647 Hinput 2147483640 1 2),
    (prefetch_slot_spec input 2147483647 Hinput 2147483640 1 3),
    (prefetch_slot_spec input 2147483647 Hinput 2147483640 1 4),
    (prefetch_slot_spec input 2147483647 Hinput 2147483640 1 5),
    (prefetch_slot_spec input 2147483647 Hinput 2147483640 1 6),
    (prefetch_slot_spec input 2147483647 Hinput 2147483640 1 7)
    by (unfold INT_MAX; lia).
  rewrite !bind_Done.
  assert (Optimized.prefetch_slot input 2147483647 2147483640 1 8 = Fault) as ->; [|done].
  unfold Optimized.prefetch_slot.
  change (wrap32 (2147483640 + wrap32 (8 * 1))) with (-2147483648).
  change (-2147483648 <? 2147483647) with true. cbv iota.
  by rewrite load_negative by lia.
Qed.

Hypothesis Hfuel : 178956970 < Z.of_nat fuel.

Lemma one_thread_at_the_top :
  computeHistogramOptimized fuel {| gridDim_x := 1; blockDim_x := 1 |} sharedHist0
    input histogram 2147483647 1 = Fault.
Proof.
  unfold computeHistogramOptimized, run_grid, grid_blocks. cbn [gridDim_x].
  change (seqZ 0 1) with [0]. cbn [foldM]. unfold run_block, block_threads.
  cbn [blockDim_x before_barrier1 before_barrier2 after_barrier2 Optimized.kernel].
  rewrite (zero_phase fuel {| gridDim_x := 1; blockDim_x := 1 |} 1) by
    first [done | simpl; unfold INT_MAX; lia].
  rewrite bind_Done. change (seqZ 0 1) with [0]. cbn [fmap list_fmap foldM].
  assert (Optimized.accumulate fuel input 2147483647 1
            (thread_of {| gridDim_x := 1; blockDim_x := 1 |} 0 0)
            (replicate (length sharedHist0) 0) = Fault) as ->; [|done].
  unfold Optimized.accumulate, Optimized.tid, Optimized.stride,
    Optimized.elementsPerThread.
  cbn [thread_of blockIdx blockDim threadIdx gridDim gridDim_x blockDim_x].
  change (wrap32 (0 * 1 + 0)) with 0. change (wrap32 (1 * 1)) with 1.
  change (wrap32 (1 * 12)) with 12.
  rewrite (for_loop_reaches_fault inv _ 2147483647 12 (Z.to_nat 178956970)); [done|lia|..].
  - split; [done|]. simpl. rewrite length_replicate. lia.
  - unfold INT_MIN. lia.
  - rewrite Z2Nat.id by lia. lia.
  - rewrite Z2Nat.id by lia. unfold INT_MAX. lia.
  - intros k s Hk Hs. rewrite Z2Nat.id in Hk by lia. by apply chunk_below.
  - intros s _. rewrite Z2Nat.id by lia. apply chunk_last.
  - apply Nat2Z.inj_lt. rewrite Z2Nat.id by lia. done.
Qed.
End TopOfRange.

Lemma count_in_range_zeros (B : Z) (n : nat) :
  0 < B -> count_in_range B (replicate n 0) = Z.of_nat n.
Proof.
  intros HB. unfold count_in_range. induction n as [|n IH]; [done|].
  cbn [replicate]. csimpl. rewrite IH. destruct (decide (0 <= 0 < B)); lia.
Qed.

Lemma read_ints_missing (N : Z) : read_ints None N = replicate (Z.to_nat N) 0.
Proof.
  unfold read_ints. cbn [default fmap list_fmap app].
  by rewrite take_replicate, Nat.min_id.
Qed.

(** With [INT_MAX] samples the work-covering bound of the planner is
    negative on every device, and the launch is refused. *)
Lemma compute_at_the_top fuel dev tmp (fs : files) input_path B :
  0 <= B ->
  let r := solution.compute fuel dev tmp fs input_path 2147483647 B in
  result r = Returned (solution.sol_path tmp) /\
  files_after r !! solution.sol_path tmp = Some (replicate (Z.to_nat B) 0).
Proof.
  intros HB r. subst r. unfold solution.compute.
  change (2147483647 <? 0) with false. cbv iota.
  destruct (Z.ltb_spec B 0); [lia|].
  rewrite launch_refused.
  - cbn [result files_after]. split; [done|]. by rewrite lookup_insert_eq.
  - unfold launch_accepted.
    assert (solution.gridSize dev 2147483647 <= -174761) as Hg.
    { unfold solution.gridSize, solution.blockSize.
      set (gs := wrap32 (wrap32 (wrap32 (solution.numSMs dev * 2048) + 1024) - 1) `quot` 1024).
      change (wrap32 (wrap32 (2147483647 + wrap32 (1024 * 12)) - 1) `quot` wrap32 (1024 * 12))
        with (-174761).
      destruct (Z.ltb_spec (-174761) gs); lia. }
    destruct (Z.leb_spec 1 (solution.gridSize dev 2147483647)); [lia|].
    by rewrite andb_false_r.
Qed.

(** C2 as stated fails at [N = INT_MAX], with every sample in range.  The
    kernel, launched with one thread, reads its input at index [INT_MIN] in
    its last chunk: slot 8 of the chunk at 2147483640 is at [2^31].  And
    [compute] is refused the launch, its grid size being negative, and
    writes a histogram whose bins sum to 0. *)
Lemma C2_counterexample :
  computeHistogramOptimized (Z.to_nat 178956971) {| gridDim_x := 1; blockDim_x := 1 |} [7]
    (replicate (Z.to_nat 2147483647) 0) [0] 2147483647 1 = Fault /\
  count_in_range 1 (replicate (Z.to_nat 2147483647) 0) = 2147483647 /\
  files_after (solution.compute (Z.to_nat 2147483648) v100 "/tmp" ∅ "/tmp/input.dat"
                 2147483647 1) !! solution.sol_path "/tmp" = Some [0] /\
  count_in_range 1 (read_ints ((∅ : files) !! "/tmp/input.dat") 2147483647) = 2147483647.
Proof.
  split; [|split; [|split]].
  - apply one_thread_at_the_top.
    + rewrite length_replicate. by rewrite Z2Nat.id by lia.
    + reflexivity.
    + rewrite Z2Nat.id by lia. lia.
  - rewrite count_in_range_zeros by lia. by rewrite Z2Nat.id by lia.
  - apply (compute_at_the_top (Z.to_nat 2147483648) v100 "/tmp" ∅ "/tmp/input.dat" 1). lia.
  - rewrite lookup_empty, read_ints_missing, count_in_range_zeros by lia.
    by rewrite Z2Nat.id by lia.
Qed.

(** ** The production path end to end *)

Lemma histogram_of_nil B : histogram_of B [] = replicate (Z.to_nat B) 0.
Proof.
  unfold histogram_of. apply list_eq. intros i. rewrite list_lookup_fmap.
  destruct (decide (Z.of_nat i < B)) as [Hi|Hi].
  - rewrite lookup_seqZ_lt by done. csimpl. symmetry. apply lookup_replicate_2. lia.
  - rewrite lookup_seqZ_ge by lia. csimpl. symmetry. apply lookup_ge_None.
    rewrite length_replicate. lia.
Qed.

Lemma read_ints_length content N : 0 <= N -> Z.of_nat (length (read_ints content N)) = N.
Proof.
  intros HN. unfold read_ints. rewrite length_take, length_app, length_replicate. lia.
Qed.

Lemma v100_capable : capable v100.
Proof. constructor; vm_compute; try split; discriminate. Qed.

Lemma gridSize_bounds dev N :
  capable dev -> 1 <= N <= 1073735679 ->
  1 <= solution.gridSize dev N <= 2 * multiProcessorCount dev /\
  12288 * (solution.gridSize dev N - 1) < N.
Proof.
  intros [Hd Hu _ _ _] HN.
  assert (solution.numSMs dev = multiProcessorCount dev) as Hsm.
  { unfold solution.numSMs. by destruct (Z.ltb_spec 0 (deviceCount dev)); [|lia]. }
  unfold solution.gridSize.
  rewrite Hsm, (occupancy_target (multiProcessorCount dev)), (work_bound N) by lia.
  unfold solution.blockSize.
  pose proof (ceil_div_spec (multiProcessorCount dev * 2048) 1024 ltac:(lia)).
  pose proof (ceil_div_spec N (1024 * 12) ltac:(lia)).
  destruct (Z.ltb_spec (ceil_div N (1024 * 12))
              (ceil_div (multiProcessorCount dev * 2048) 1024)); lia.
Qed.

(** [compute] on a capable device, within the budget and the [int] range:
    the input is read once the output file is emptied. *)
Lemma compute_histogram_read fuel dev tmp (fs : files) input_path N B :
  capable dev ->
  0 <= N <= 1073735679 ->
  0 <= B -> B * 4 <= sharedMemPerBlock dev ->
  (Z.to_nat (Z.max N B) <= fuel)%nat ->
  let emptied := <[solution.sol_path tmp := []]> fs in
  solution.compute fuel dev tmp fs input_path N B
  = {| result := Returned (solution.sol_path tmp);
       files_after :=
         <[solution.sol_path tmp := histogram_of B (read_ints (emptied !! input_path) N)]>
           emptied;
       cuda_calls :=
         [cudaMalloc (N * 4); cudaMalloc (B * 4); cudaStreamCreate;
          cudaHostRegister (N * 4); cudaMemcpyAsync_HostToDevice (N * 4);
          cudaMemsetAsync (B * 4); cudaGetDeviceCount; cudaGetDeviceProperties;
          cudaLaunchKernel (solution.gridSize dev N) solution.blockSize (B * 4);
          cudaStreamSynchronize; cudaMemcpyAsync_DeviceToHost (B * 4);
          cudaStreamSynchronize; cudaHostUnregister; cudaFree; cudaFree;
          cudaStreamDestroy] |}.
Proof.
  intros Hcap HN HB Hfoot Hf emptied. unfold solution.compute. fold emptied.
  destruct (Z.ltb_spec N 0); [lia|]. destruct (Z.ltb_spec B 0); [lia|].
  assert (solution.sharedMemSize B = B * 4) as Hs.
  { unfold solution.sharedMemSize. apply wrap32_small. destruct Hcap.
    unfold in_int, INT_MIN, INT_MAX in *. lia. }
  assert ((0 <? deviceCount dev) = true) as Hdev.
  { destruct Hcap. by apply Z.ltb_lt. }
  rewrite Hdev, Hs.
  destruct (decide (N = 0)) as [->|HN0].
  - rewrite launch_refused.
    + unfold read_ints. simpl. by rewrite histogram_of_nil.
    + unfold launch_accepted. pose proof (gridSize_no_samples dev).
      destruct (Z.leb_spec 1 (solution.gridSize dev 0)); [lia|].
      by rewrite andb_false_r.
  - destruct (gridSize_bounds dev N Hcap ltac:(lia)) as [Hg Hwork].
    unfold launch_optimized.
    assert (launch_accepted dev (solution.gridSize dev N) solution.blockSize (B * 4)
            = true) as ->.
    { unfold launch_accepted. destruct Hcap. unfold solution.blockSize in *.
      repeat (apply andb_true_intro; split); lia. }
    rewrite Z.quot_mul by lia.
    rewrite optimized_histogram; [done| | | |done].
    + destruct Hcap. constructor; simpl; unfold solution.blockSize,
        Optimized.elementsPerThread, INT_MAX in *; lia.
    + by apply read_ints_length.
    + rewrite length_fmap, length_seqZ. lia.
Qed.

(** With an input file that is not the output file. *)
Lemma compute_histogram fuel dev tmp (fs : files) input_path N B :
  capable dev ->
  0 <= N <= 1073735679 ->
  0 <= B -> B * 4 <= sharedMemPerBlock dev ->
  input_path <> solution.sol_path tmp ->
  (Z.to_nat (Z.max N B) <= fuel)%nat ->
  solution.compute fuel dev tmp fs input_path N B
  = {| result := Returned (solution.sol_path tmp);
       files_after :=
         <[solution.sol_path tmp := histogram_of B (read_ints (fs !! input_path) N)]>
           (<[solution.sol_path tmp := []]> fs);
       cuda_calls :=
         [cudaMalloc (N * 4); cudaMalloc (B * 4); cudaStreamCreate;
          cudaHostRegister (N * 4); cudaMemcpyAsync_HostToDevice (N * 4);
          cudaMemsetAsync (B * 4); cudaGetDeviceCount; cudaGetDeviceProperties;
          cudaLaunchKernel (solution.gridSize dev N) solution.blockSize (B * 4);
          cudaStreamSynchronize; cudaMemcpyAsync_DeviceToHost (B * 4);
          cudaStreamSynchronize; cudaHostUnregister; cudaFree; cudaFree;
          cudaStreamDestroy] |}.
Proof.
  intros Hcap HN HB Hfoot Hpath Hf.
  rewrite compute_histogram_read by done. cbv zeta. by rewrite lookup_insert_ne.
Qed.

(** X1. On a device that admits the launch, for [0 <= N <= 1073735679] and a
    bin count [B >= 0] whose footprint [B * 4] is within the shared-memory
    budget, [compute] returns its output path and leaves in the output file
    the histogram of the [N] integers it read from the input file: bin [b]
    holds the number of them equal to [b], for every [b] in [[0, B)]. *)
Theorem compute_writes_the_histogram
    (fuel : nat) (dev : device) (tmp : string) (fs : files) (input_path : string) (N B : Z) :
  capable dev ->
  0 <= N <= 1073735679 ->
  0 <= B -> B * 4 <= sharedMemPerBlock dev ->
  input_path <> solution.sol_path tmp ->
  (Z.to_nat (Z.max N B) <= fuel)%nat ->
  let r := solution.compute fuel dev tmp fs input_path N B in
  result r = Returned (solution.sol_path tmp) /\
  files_after r !! solution.sol_path tmp
  = Some (histogram_of B (read_ints (fs !! input_path) N)).
Proof.
  intros Hcap HN HB Hfoot Hpath Hf r. subst r.
  rewrite compute_histogram by done. simpl. split; [done|]. by rewrite lookup_insert_eq.
Qed.

Lemma compute_writes_the_histogram_witness :
  let fs : files := {[ "/tmp/input-4.dat" := [0; 1; 1; 5] ]} in
  let r := solution.compute 4 v100 "/tmp" fs "/tmp/input-4.dat" 4 2 in
  result r = Returned (solution.sol_path "/tmp") /\
  files_after r !! solution.sol_path "/tmp"
  = Some (histogram_of 2 (read_ints (fs !! "/tmp/input-4.dat") 4)).
Proof.
  apply (compute_writes_the_histogram 4 v100 "/tmp"
           {[ "/tmp/input-4.dat" := [0; 1; 1; 5] ]} "/tmp/input-4.dat" 4 2).
  - exact v100_capable.
  - lia.
  - lia.
  - simpl. lia.
  - discriminate.
  - simpl. lia.
Defined.



(** ** Boundaries of the hierarchical kernel *)

Lemma adds_unique m m1 m2 f : adds m m1 f -> adds m m2 f -> m1 = m2.
Proof.
  intros [Hl1 H1] [Hl2 H2]. apply list_eq. intros j.
  destruct (m !! j) as [x|] eqn:E.
  - by rewrite (H1 j x E), (H2 j x E).
  - apply lookup_ge_None in E.
    rewrite (lookup_ge_None_2 m1), (lookup_ge_None_2 m2) by lia. done.
Qed.

(** X3. One bin: with [B = 1] the hierarchical kernel, started on a
    zeroed histogram, ends with a single bin that holds the number of
    samples in range, that is, of samples equal to [0]. *)
Theorem single_bin_holds_the_in_range_count
    (fuel : nat) (g : dim3) (sharedHist0 input : list Z) (N : Z) :
  launch_ok Optimized.elementsPerThread g N 1 ->
  Z.of_nat (length input) = N ->
  Z.of_nat (length sharedHist0) = 1 ->
  (Z.to_nat (Z.max N 1) <= fuel)%nat ->
  computeHistogramOptimized fuel g sharedHist0 input [0] N 1
  = Done [count_in_range 1 input] /\
  count_in_range 1 input = count_of 0 input.
Proof.
  intros Hl Hin Hsh Hf.
  assert (count_in_range 1 input = count_of 0 input) as E.
  { rewrite <- sumZ_histogram_of. unfold histogram_of.
    change (seqZ 0 1) with [0]. cbn [fmap list_fmap sumZ]. lia. }
  split; [|done]. rewrite E.
  change [0] with (replicate (Z.to_nat 1) 0).
  by rewrite (optimized_histogram fuel g sharedHist0 input N 1 Hl Hin Hsh Hf).
Qed.

Lemma launch_ok_1_2_3_1 :
  launch_ok Optimized.elementsPerThread {| gridDim_x := 1; blockDim_x := 2 |} 3 1.
Proof. constructor; simpl; unfold INT_MAX, Optimized.elementsPerThread; lia. Qed.

Lemma single_bin_witness :
  computeHistogramOptimized 3 {| gridDim_x := 1; blockDim_x := 2 |} [7] [0; 4; 0] [0] 3 1
  = Done [count_in_range 1 [0; 4; 0]] /\
  count_in_range 1 [0; 4; 0] = count_of 0 [0; 4; 0].
Proof.
  apply (single_bin_holds_the_in_range_count 3 {| gridDim_x := 1; blockDim_x := 2 |}
           [7] [0; 4; 0] 3).
  - exact launch_ok_1_2_3_1.
  - reflexivity.
  - reflexivity.
  - simpl. lia.
Defined.

(** X4. No bins: with [B = 0] the histogram is empty and the kernel
    changes nothing; every sample is out of range. *)
Theorem no_bins_is_a_no_op
    (fuel : nat) (g : dim3) (input : list Z) (N : Z) :
  launch_ok Optimized.elementsPerThread g N 0 ->
  Z.of_nat (length input) = N ->
  (Z.to_nat N <= fuel)%nat ->
  computeHistogramOptimized fuel g [] input [] N 0 = Done [] /\
  count_in_range 0 input = 0.
Proof.
  intros Hl Hin Hf. split.
  - apply (optimized_histogram fuel g [] input N 0 Hl Hin); [done|].
    destruct Hl. lia.
  - by rewrite <- sumZ_histogram_of.
Qed.

Lemma launch_ok_1_2_3_0 :
  launch_ok Optimized.elementsPerThread {| gridDim_x := 1; blockDim_x := 2 |} 3 0.
Proof. constructor; simpl; unfold INT_MAX, Optimized.elementsPerThread; lia. Qed.

Lemma no_bins_witness :
  computeHistogramOptimized 3 {| gridDim_x := 1; blockDim_x := 2 |} [] [0; 4; 0] [] 3 0
  = Done [] /\
  count_in_range 0 [0; 4; 0] = 0.
Proof.
  apply (no_bins_is_a_no_op 3 {| gridDim_x := 1; blockDim_x := 2 |} [0; 4; 0] 3).
  - exact launch_ok_1_2_3_0.
  - reflexivity.
  - simpl. lia.
Defined.

(** X5. What the shared array of a block holds when the block starts has
    no effect: the first phase of the kernel zeroes it. *)
Theorem stale_shared_memory_has_no_effect
    (fuel : nat) (g : dim3) (stale1 stale2 input histogram : list Z) (N numBins : Z) :
  launch_ok Optimized.elementsPerThread g N numBins ->
  Z.of_nat (length input) = N ->
  Z.of_nat (length stale1) = numBins ->
  Z.of_nat (length stale2) = numBins ->
  Z.of_nat (length histogram) = numBins ->
  int_array histogram ->
  (Z.to_nat (Z.max N numBins) <= fuel)%nat ->
  computeHistogramOptimized fuel g stale1 input histogram N numBins
  = computeHistogramOptimized fuel g stale2 input histogram N numBins.
Proof.
  intros Hl Hin H1 H2 Hlen Hint Hf.
  destruct (optimized_adds fuel g input N numBins Hl Hin Hf stale1 histogram H1 Hlen Hint)
    as (h1 & -> & Ha1).
  destruct (optimized_adds fuel g input N numBins Hl Hin Hf stale2 histogram H2 Hlen Hint)
    as (h2 & -> & Ha2).
  f_equal. eapply adds_unique; eassumption.
Qed.

Lemma stale_shared_memory_witness :
  computeHistogramOptimized 3 {| gridDim_x := 1; blockDim_x := 2 |} [7; -9] [1; 1; 0] [40; 2] 3 2
  = computeHistogramOptimized 3 {| gridDim_x := 1; blockDim_x := 2 |} [0; 99] [1; 1; 0] [40; 2] 3 2.
Proof.
  apply (stale_shared_memory_has_no_effect 3 {| gridDim_x := 1; blockDim_x := 2 |}
           [7; -9] [0; 99] [1; 1; 0] [40; 2] 3 2).
  - exact launch_ok_1_2_3_2.
  - reflexivity.
  - reflexivity.
  - reflexivity.
  - reflexivity.
  - repeat constructor; unfold INT_MIN, INT_MAX; lia.
  - simpl. lia.
Defined.

(** X6. The result of the hierarchical kernel does not depend on the order
    in which the blocks run nor, in any phase of any block, on the order of
    the threads: under every schedule of the launch the kernel ends with the
    histogram it ends with in index order. *)
Theorem hierarchical_kernel_is_schedule_independent
    (fuel : nat) (g : dim3) (sched : schedule)
    (sharedHist0 input histogram : list Z) (N numBins : Z) :
  schedule_of g sched ->
  launch_ok Optimized.elementsPerThread g N numBins ->
  Z.of_nat (length input) = N ->
  Z.of_nat (length sharedHist0) = numBins ->
  Z.of_nat (length histogram) = numBins ->
  int_array histogram ->
  (Z.to_nat (Z.max N numBins) <= fuel)%nat ->
  run_grid_in sched (Optimized.kernel fuel input N numBins) g sharedHist0 histogram
  = computeHistogramOptimized fuel g sharedHist0 input histogram N numBins.
Proof.
  intros Hsched Hl Hin Hsh Hlen Hint Hf.
  destruct (optimized_adds_in fuel g input N numBins sched Hsched Hl Hin Hf
              sharedHist0 histogram Hsh Hlen Hint) as (h1 & -> & Ha1).
  destruct (optimized_adds fuel g input N numBins Hl Hin Hf sharedHist0 histogram
              Hsh Hlen Hint) as (h2 & -> & Ha2).
  f_equal. eapply adds_unique; eassumption.
Qed.

Lemma shuffled_schedule : schedule_of {| gridDim_x := 2; blockDim_x := 3 |} shuffled.
Proof.
  split; [apply (bool_decide_unpack _); by vm_compute|].
  intros b phase. unfold shuffled. simpl.
  destruct (decide (b = 0)); apply (bool_decide_unpack _); by vm_compute.
Qed.

Lemma schedule_independent_witness :
  run_grid_in shuffled (Optimized.kernel 10 [0; 1; -4; 2; 3; 9; 3; 0; 2; 1] 10 4)
    {| gridDim_x := 2; blockDim_x := 3 |} [7; 7; 7; 7] [5; 0; 0; 1]
  = computeHistogramOptimized 10 {| gridDim_x := 2; blockDim_x := 3 |} [7; 7; 7; 7]
      [0; 1; -4; 2; 3; 9; 3; 0; 2; 1] [5; 0; 0; 1] 10 4.
Proof.
  apply (hierarchical_kernel_is_schedule_independent 10
           {| gridDim_x := 2; blockDim_x := 3 |} shuffled
           [7; 7; 7; 7] [0; 1; -4; 2; 3; 9; 3; 0; 2; 1] [5; 0; 0; 1] 10 4).
  - exact shuffled_schedule.
  - exact launch_ok_2_3_10_4.
  - reflexivity.
  - reflexivity.
  - reflexivity.
  - repeat constructor; unfold INT_MIN, INT_MAX; lia.
  - simpl. lia.
Defined.

(** X7. The kernel runs to completion: on every input, of whatever length
    and content, and from every state of the shared array and of the
    histogram, a launch of at least one block and one thread whose twelve
    strides fit an [int] comes to an end once every loop is given
    [max(N, numBins) + 1] steps; it ends with a histogram or with an access
    outside an array. *)
Theorem hierarchical_kernel_runs_to_completion
    (fuel : nat) (g : dim3) (sharedHist0 input histogram : list Z) (N numBins : Z) :
  1 <= gridDim_x g -> 1 <= blockDim_x g ->
  12 * (blockDim_x g * gridDim_x g) <= INT_MAX ->
  0 <= N ->
  (Z.to_nat (Z.max N numBins) + 1 <= fuel)%nat ->
  let r := computeHistogramOptimized fuel g sharedHist0 input histogram N numBins in
  (exists histogram', r = Done histogram') \/ r = Fault.
Proof.
  intros Hg Hb Hs HN Hf r.
  pose proof (optimized_finishes fuel g input N numBins Hg Hb Hs HN Hf sharedHist0 histogram)
    as Hfin.
  fold r in Hfin. destruct r; [left; eauto|by right|done].
Qed.

Lemma runs_to_completion_witness :
  let r := computeHistogramOptimized 4 {| gridDim_x := 1; blockDim_x := 2 |} [7; 7]
             [0; 9] [0; 0] 3 2 in
  (exists histogram', r = Done histogram') \/ r = Fault.
Proof.
  apply (hierarchical_kernel_runs_to_completion 4 {| gridDim_x := 1; blockDim_x := 2 |}
           [7; 7] [0; 9] [0; 0] 3 2).
  - simpl. lia.
  - simpl. lia.
  - simpl. unfold INT_MAX. lia.
  - lia.
  - simpl. lia.
Defined.

(** ** The naive kernel *)

Lemma sample_at_take (samples : list Z) (N T x : Z) :
  0 <= T -> x < Z.min N T ->
  sample_at (take (Z.to_nat T) samples) (Z.min N T) x = sample_at samples N x.
Proof.
  intros HT Hx. unfold sample_at.
  destruct (Z.leb_spec 0 x); [|done].
  destruct (Z.ltb_spec x (Z.min N T)); [|lia]. destruct (Z.ltb_spec x N); [|lia]. simpl.
  rewrite lookup_total_take. by destruct (decide (Z.to_nat x < Z.to_nat T)%nat); [|lia].
Qed.

(** X8. The naive kernel counts one sample a thread: started on a zeroed
    histogram, with samples that are all below the bin count, it ends with
    the histogram of the samples at the positions below the number of
    threads launched, [blockDim.x * gridDim.x]; samples past that are not
    counted. *)
Theorem naive_kernel_counts_one_sample_per_thread
    (g : dim3) (input : list uchar) (N numBins : Z) :
  1 <= gridDim_x g -> 1 <= blockDim_x g ->
  blockDim_x g * gridDim_x g <= INT_MAX ->
  Z.of_nat (length input) = N -> N <= INT_MAX -> 0 <= numBins ->
  Forall (fun v => v < numBins) (samples_of input) ->
  computeHistogramNaive g input (replicate (Z.to_nat numBins) 0) N numBins
  = Done (histogram_of numBins
            (take (Z.to_nat (blockDim_x g * gridDim_x g)) (samples_of input))).
Proof.
  intros Hg Hb Ht Hin HN Hbins Hrange.
  set (T := blockDim_x g * gridDim_x g).
  assert (0 <= T) as HT by (unfold T; nia).
  destruct (naive_adds g input N numBins Hg Hb Ht ltac:(lia) Hin Hrange
              (replicate (Z.to_nat numBins) 0)) as (h & -> & Hadds).
  { rewrite length_replicate. lia. }
  { apply zeros_int_array. }
  f_equal.
  assert (Z.of_nat (length (take (Z.to_nat T) (samples_of input))) = Z.min N T) as Hlen.
  { unfold samples_of. rewrite length_take, length_fmap. lia. }
  assert (forall j, 0 <= j ->
    sumZ ((fun gid => if decide (sample_at (samples_of input) N gid = j) then 1 else 0)
            <$> seqZ 0 (Z.min N (gridDim_x g * blockDim_x g)))
    = count_of j (take (Z.to_nat T) (samples_of input))) as Hcount.
  { intros j Hj. replace (gridDim_x g * blockDim_x g) with T by (unfold T; lia).
    rewrite <- (count_of_range j _ (Z.min N T) Hlen Hj).
    apply sumZ_fmap_ext. intros x Hx%elem_of_seqZ. by rewrite sample_at_take by lia. }
  rewrite (adds_zero_eq numBins h _ Hadds).
  - unfold histogram_of. apply list_fmap_ext.
    intros _ j Hj%list_elem_of_lookup_2%elem_of_seqZ. apply Hcount. lia.
  - intros j Hj. rewrite Hcount by lia.
    apply (count_of_bounds j _ (Z.min N T)); [done|lia].
Qed.

Lemma naive_kernel_witness :
  computeHistogramNaive {| gridDim_x := 1; blockDim_x := 2 |}
    [Byte.x00; Byte.x01; Byte.x01] (replicate (Z.to_nat 2) 0) 3 2
  = Done (histogram_of 2
            (take (Z.to_nat (blockDim_x {| gridDim_x := 1; blockDim_x := 2 |}
                             * gridDim_x {| gridDim_x := 1; blockDim_x := 2 |}))
               (samples_of [Byte.x00; Byte.x01; Byte.x01]))).
Proof.
  apply (naive_kernel_counts_one_sample_per_thread {| gridDim_x := 1; blockDim_x := 2 |}
           [Byte.x00; Byte.x01; Byte.x01] 3 2).
  - simpl. lia.
  - simpl. lia.
  - simpl. unfold INT_MAX. lia.
  - reflexivity.
  - unfold INT_MAX. lia.
  - lia.
  - repeat constructor.
Defined.

(** ** The harness *)




Lemma path_join_inj dir a b : path_join dir a = path_join dir b -> a = b.
Proof.
  unfold path_join. intros E. apply (inj (String.append dir)) in E.
  by apply (inj (String.append "/")) in E.
Qed.





(** Four runs of the harness, one for each way to an exit: too few
    arguments, an exception ([N < 0]), a histogram that does not match the
    cached reference, and a success. *)
Example harness_runs :
  (let e := tester.main 5 lab ["./tester"; "4"] in
   (exit_status e, stdout e, stderr e)
   = (Exit 0, ["-1"], ["Usage: ./tester.out <N> <B> <optional:seed>"])) /\
  (let e := tester.main 5 lab ["./tester"; "-4"; "2"] in
   (exit_status e, last (stdout e), stderr e)
   = (Exit 0, Some "-1", ["std::bad_array_new_length"])) /\
  (let e := tester.main 5 lab_with_stale_reference ["./tester"; "4"; "2"; "111"] in
   (exit_status e, last (stdout e), stderr e)
   = (Exit 0, Some "-1", ["Histogram mismatch at bin 0: expected 9, got 2"])) /\
  (let e := tester.main 5 lab ["./tester"; "4"; "2"; "111"] in
   (exit_status e, last (stdout e), stderr e,
    files_end e !! "/tmp/sol-4-2.dat", files_end e !! "/tmp/student_histogram.dat")
   = (Exit 0, Some "Execution time: 3 ms", [], Some [2; 2], None)).
Proof. split; [|split; [|split]]; vm_compute; reflexivity. Qed.

(** ** The harness and [compute] together *)

Lemma first_mismatch_same i (h : list Z) : tester.first_mismatch i h h = None.
Proof.
  revert i. induction h as [|x h IH]; intros i; simpl; [done|].
  by destruct (decide (x = x)).
Qed.

Lemma read_ints_exact (l : list Z) N :
  Z.of_nat (length l) = N -> int_array l -> read_ints (Some l) N = l.
Proof.
  intros Hl Hint. unfold read_ints. simpl.
  rewrite take_app_length' by (rewrite length_fmap; lia).
  etrans; [|apply list_fmap_id]. apply list_fmap_ext.
  intros i x Hx. apply wrap32_small. exact (Forall_lookup_1 _ _ _ _ Hint Hx).
Qed.

Lemma harness_run fuel env argv N B :
  (3 <= length argv)%nat ->
  atoi (argv !!! 1%nat) = N -> atoi (argv !!! 2%nat) = B ->
  let seed := if (3 <? Z.of_nat (length argv)) then atoi (argv !!! 3%nat)
              else random_device env in
  let tmp := temp_directory_path env in
  let input_path := path_join tmp ("input-" +:+ pretty N +:+ ".dat") in
  let sol_path := path_join tmp ("sol-" +:+ pretty N +:+ "-" +:+ pretty B +:+ ".dat") in
  let samples := random_value env seed B <$> seqZ 0 N in
  capable (the_device env) ->
  0 <= N <= 1073735679 -> 1 <= B -> B * 4 <= sharedMemPerBlock (the_device env) ->
  files_start env !! input_path = None ->
  files_start env !! sol_path = None ->
  (forall i, 0 <= i < N -> 0 <= random_value env seed B i < B) ->
  (Z.to_nat (Z.max N B) <= fuel)%nat ->
  tester.main fuel env argv
  = {| exit_status := Exit 0;
       stdout := ["[1/4] Looking for input file";
                  "	- Input file not found. Creating new test data: " +:+ input_path;
                  "[2/4] Looking for verification file " +:+ sol_path;
                  "[3/4] Verification file not found. Creating new verification data";
                  "[4/4] Running student solution";
                  "Execution time: " +:+ pretty (elapsed_ms env) +:+ " ms"];
       stderr := [];
       files_end :=
         delete (solution.sol_path tmp)
           (<[solution.sol_path tmp := histogram_of B samples]>
              (<[solution.sol_path tmp := []]>
                 (<[sol_path := histogram_of B samples]>
                    (<[input_path := samples]> (files_start env))))) |}.
Proof.
  intros Hargc HN HB seed tmp input_path sol_path samples Hcap HNr HBr Hfoot Hin Hsol Hgen Hf.
  assert (input_path <> sol_path) as Hne1.
  { intros E%path_join_inj. discriminate E. }
  assert (input_path <> solution.sol_path tmp) as Hne2.
  { intros E%path_join_inj. discriminate E. }
  assert (sol_path <> solution.sol_path tmp) as Hne3.
  { intros E%path_join_inj. discriminate E. }
  assert (Z.of_nat (length samples) = N) as Hlen.
  { unfold samples. rewrite length_fmap, length_seqZ. lia. }
  assert (Forall (fun v => 0 <= v < B) samples) as Hrange.
  { unfold samples. apply Forall_fmap, Forall_forall. intros i Hi%elem_of_seqZ.
    simpl. apply Hgen. lia. }
  assert (int_array samples) as Hint.
  { eapply Forall_impl; [exact Hrange|]. intros v Hv. simpl in Hv.
    destruct Hcap. unfold in_int, INT_MIN, INT_MAX in *. lia. }
  unfold tester.main. rewrite HN, HB. cbv zeta.
  fold tmp. fold input_path. fold sol_path. fold seed.
  destruct (Z.ltb_spec (Z.of_nat (length argv)) 3); [lia|].
  destruct (Z.ltb_spec N 0); [lia|].
  rewrite (bool_decide_eq_false_2 (is_Some (files_start env !! input_path)))
    by (rewrite Hin; apply is_Some_None).
  destruct (Z.leb_spec B 0); [lia|]. rewrite andb_false_r.
  fold samples.
  rewrite (bool_decide_eq_false_2 (is_Some (<[input_path:=samples]> (files_start env) !! sol_path)))
    by (rewrite lookup_insert_ne by done; rewrite Hsol; apply is_Some_None).
  destruct (Z.ltb_spec B 0); [lia|]. cbn [negb andb].
  rewrite reference_histogram_spec; [|done|unfold INT_MAX; lia|lia|done].
  rewrite bind_Done.
  rewrite compute_histogram; [|first [done|lia]..].
  cbn [result files_after].
  assert (<[sol_path:=histogram_of B samples]> (<[input_path:=samples]> (files_start env))
          !! input_path = Some samples) as ->.
  { rewrite lookup_insert_ne by done. apply lookup_insert_eq. }
  rewrite read_ints_exact by done.
  rewrite lookup_insert_eq.
  rewrite !(lookup_insert_ne _ (solution.sol_path tmp) sol_path) by done.
  rewrite lookup_insert_eq.
  rewrite first_mismatch_same. reflexivity.
Qed.

(** X9. The harness accepts the engine.  On a start without cached input
    and reference files, with a generator that draws from [[0, B)], a device
    that admits the launch, [0 <= N <= 1073735679] and [B >= 1] within the
    shared-memory budget, the run ends with exit code 0 on the success path:
    the histogram [compute] wrote equals the reference histogram bin for bin,
    the last line printed is the execution time, nothing is written to
    standard error, the reference file holds the histogram of the generated
    samples and the engine's output file is removed. *)
Theorem harness_accepts_the_engine
    (fuel : nat) (env : environment) (argv : list string) (N B : Z) :
  (3 <= length argv)%nat ->
  atoi (argv !!! 1%nat) = N -> atoi (argv !!! 2%nat) = B ->
  let seed := if (3 <? Z.of_nat (length argv)) then atoi (argv !!! 3%nat)
              else random_device env in
  let tmp := temp_directory_path env in
  let input_path := path_join tmp ("input-" +:+ pretty N +:+ ".dat") in
  let sol_path := path_join tmp ("sol-" +:+ pretty N +:+ "-" +:+ pretty B +:+ ".dat") in
  let samples := random_value env seed B <$> seqZ 0 N in
  capable (the_device env) ->
  0 <= N <= 1073735679 -> 1 <= B -> B * 4 <= sharedMemPerBlock (the_device env) ->
  files_start env !! input_path = None ->
  files_start env !! sol_path = None ->
  (forall i, 0 <= i < N -> 0 <= random_value env seed B i < B) ->
  (Z.to_nat (Z.max N B) <= fuel)%nat ->
  let e := tester.main fuel env argv in
  exit_status e = Exit 0 /\
  success env e /\
  files_end e !! input_path = Some samples /\
  files_end e !! sol_path = Some (histogram_of B samples) /\
  files_end e !! solution.sol_path tmp = None.
Proof.
  intros Hargc HN HB seed tmp input_path sol_path samples Hcap HNr HBr Hfoot Hin Hsol Hgen Hf e.
  assert (input_path <> sol_path) as Hne1.
  { intros E%path_join_inj. discriminate E. }
  assert (input_path <> solution.sol_path tmp) as Hne2.
  { intros E%path_join_inj. discriminate E. }
  assert (sol_path <> solution.sol_path tmp) as Hne3.
  { intros E%path_join_inj. discriminate E. }
  subst e. rewrite (harness_run fuel env argv N B) by done.
  fold seed tmp input_path sol_path samples. cbn [exit_status stdout stderr files_end].
  split; [done|]. split; [by split|].
  rewrite !lookup_delete_ne by done.
  rewrite !(lookup_insert_ne _ (solution.sol_path tmp)) by done.
  split; [|split].
  - rewrite lookup_insert_ne by done. apply lookup_insert_eq.
  - apply lookup_insert_eq.
  - apply lookup_delete_eq.
Qed.

Lemma harness_accepts_witness :
  let e := tester.main 4 lab ["./tester"; "4"; "2"; "111"] in
  exit_status e = Exit 0 /\
  success lab e /\
  files_end e !! path_join "/tmp" ("input-" +:+ pretty 4 +:+ ".dat")
  = Some (random_value lab 111 2 <$> seqZ 0 4) /\
  files_end e !! path_join "/tmp" ("sol-" +:+ pretty 4 +:+ "-" +:+ pretty 2 +:+ ".dat")
  = Some (histogram_of 2 (random_value lab 111 2 <$> seqZ 0 4)) /\
  files_end e !! solution.sol_path "/tmp" = None.
Proof.
  apply (harness_accepts_the_engine 4 lab ["./tester"; "4"; "2"; "111"] 4 2).
  - simpl. lia.
  - reflexivity.
  - reflexivity.
  - exact v100_capable.
  - lia.
  - lia.
  - simpl. lia.
  - reflexivity.
  - reflexivity.
  - intros i Hi. apply Z.mod_pos_bound. lia.
  - simpl. lia.
Defined.

(** X10. The default invocation, [tester 536870912 256 111]: on every start
    without cached files, with a generator that draws from [[0, 256)] and a
    device that admits the launch and gives a block at least 1024 bytes of
    shared memory, the histogram of the engine matches the reference
    histogram of the generated samples and the run ends with exit code 0 on
    the success path. *)
Theorem default_invocation_is_accepted (fuel : nat) (env : environment) :
  let tmp := temp_directory_path env in
  capable (the_device env) ->
  1024 <= sharedMemPerBlock (the_device env) ->
  files_start env !! path_join tmp "input-536870912.dat" = None ->
  files_start env !! path_join tmp "sol-536870912-256.dat" = None ->
  (forall i, 0 <= i < 536870912 -> 0 <= random_value env 111 256 i < 256) ->
  (Z.to_nat 536870912 <= fuel)%nat ->
  let e := tester.main fuel env ["./tester"; "536870912"; "256"; "111"] in
  exit_status e = Exit 0 /\
  success env e /\
  files_end e !! path_join tmp "sol-536870912-256.dat"
  = Some (histogram_of 256 (random_value env 111 256 <$> seqZ 0 536870912)).
Proof.
  intros tmp Hcap Hshared Hin Hsol Hgen Hf e.
  pose proof (harness_run fuel env ["./tester"; "536870912"; "256"; "111"] 536870912 256)
    as Hrun.
  assert (atoi "536870912" = 536870912 /\ atoi "256" = 256 /\ atoi "111" = 111
          /\ pretty 536870912 = "536870912" /\ pretty 256 = "256") as (E1 & E2 & E3 & E4 & E5).
  { repeat split; vm_compute; reflexivity. }
  cbv zeta in Hrun. cbn [length lookup_total list_lookup_total] in Hrun.
  change (3 <? Z.of_nat 4) with true in Hrun. cbv iota in Hrun.
  rewrite E3, E4, E5 in Hrun. fold tmp in Hrun.
  change ("input-" +:+ "536870912" +:+ ".dat") with "input-536870912.dat" in Hrun.
  change ("sol-" +:+ "536870912" +:+ "-" +:+ "256" +:+ ".dat")
    with "sol-536870912-256.dat" in Hrun.
  subst e. rewrite Hrun by first [done|lia].
  cbn [exit_status stdout stderr files_end].
  split; [done|]. split; [by split|].
  assert (path_join tmp "sol-536870912-256.dat" <> solution.sol_path tmp) as Hne.
  { intros E%path_join_inj. discriminate E. }
  rewrite lookup_delete_ne by done.
  rewrite !(lookup_insert_ne _ (solution.sol_path tmp)) by done.
  apply lookup_insert_eq.
Qed.

Lemma default_invocation_witness :
  let e := tester.main (Z.to_nat 536870912) lab ["./tester"; "536870912"; "256"; "111"] in
  exit_status e = Exit 0 /\
  success lab e /\
  files_end e !! path_join "/tmp" "sol-536870912-256.dat"
  = Some (histogram_of 256 (random_value lab 111 256 <$> seqZ 0 536870912)).
Proof.
  apply (default_invocation_is_accepted (Z.to_nat 536870912) lab).
  - exact v100_capable.
  - simpl. lia.
  - reflexivity.
  - reflexivity.
  - intros i Hi. apply Z.mod_pos_bound. lia.
  - apply le_n.
Defined.

(* ------------------------------------------------------------------ *)
(** * Further properties of the code *)

(** ** Computations that come to an end *)

Lemma ends_within_bind {A B} (P : A -> Prop) (Q : B -> Prop) (m : outcome A)
    (k : A -> outcome B) :
  ends_within P m -> (forall a, P a -> ends_within Q (k a)) -> ends_within Q (m ≫= k).
Proof. destruct m; simpl; auto. Qed.

Lemma ends_within_impl {A} (P Q : A -> Prop) (m : outcome A) :
  (forall a, P a -> Q a) -> ends_within P m -> ends_within Q m.
Proof. destruct m; simpl; auto. Qed.

Lemma ends_within_finishes {A} (P : A -> Prop) (m : outcome A) :
  m <> OutOfFuel -> (forall a, m = Done a -> P a) -> ends_within P m.
Proof. destruct m; simpl; auto. Qed.

Lemma ends_within_Done {A} (P : A -> Prop) (m : outcome A) a :
  ends_within P m -> m = Done a -> P a.
Proof. by intros H ->. Qed.

Lemma foldM_ends_within {A S} (inv : S -> Prop) (f : A -> S -> outcome S) l :
  (forall a s, a ∈ l -> inv s -> ends_within inv (f a s)) ->
  forall s, inv s -> ends_within inv (foldM f l s).
Proof.
  induction l as [|a l IH]; intros Hf s Hs; csimpl; [done|].
  apply (ends_within_bind inv); [apply Hf; [left|done]|].
  intros s' Hs'. apply IH; [|done]. intros; apply Hf; [by right|done].
Qed.

(** A step that is an access outside an array ends the iteration with it,
    whenever the steps before it come to an end. *)
Lemma foldM_reaches_fault {A S} (inv : S -> Prop) (f : A -> S -> outcome S) l a :
  a ∈ l ->
  (forall x s, x ∈ l -> inv s -> ends_within inv (f x s)) ->
  (forall s, inv s -> f a s = Fault) ->
  forall s, inv s -> foldM f l s = Fault.
Proof.
  induction l as [|x l IH]; intros Ha Hf Hbad s Hs; [by apply elem_of_nil in Ha|].
  csimpl. apply elem_of_cons in Ha as [->|Ha]; [by rewrite Hbad|].
  pose proof (Hf x s ltac:(left) Hs) as Hx.
  destruct (f x s) as [s'| |]; simpl in *; [|done|done].
  apply IH; try done. intros; apply Hf; [by right|done].
Qed.

Lemma foldM_preserves {A S} (inv : S -> Prop) (f : A -> S -> outcome S) l :
  (forall a s s', inv s -> f a s = Done s' -> inv s') ->
  forall s s', inv s -> foldM f l s = Done s' -> inv s'.
Proof.
  intros Hf. induction l as [|a l IH]; intros s s' Hs; csimpl; [by intros [= <-]|].
  destruct (f a s) as [s1| |] eqn:E; simpl; [|done|done]. apply IH. by eapply Hf.
Qed.

Lemma for_loop_preserves {S} (inv : S -> Prop) (body : Z -> S -> outcome S) bound step :
  (forall i s s', inv s -> body i s = Done s' -> inv s') ->
  forall fuel i s s', inv s -> for_loop fuel i bound step body s = Done s' -> inv s'.
Proof.
  intros Hb. induction fuel as [|fuel IH]; intros i s s' Hs; simpl.
  - destruct (i <? bound); [done|]. by intros [= <-].
  - destruct (i <? bound); [|by intros [= <-]].
    destruct (body i s) as [s1| |] eqn:E; simpl; [|done|done]. apply IH. by eapply Hb.
Qed.

Lemma load_ends_within {A} (m : list A) i : ends_within (fun _ => True) (load m i).
Proof. unfold load. destruct (i <? 0); [done|]. by destruct (m !! Z.to_nat i). Qed.

Lemma store_ends_within {A} (m : list A) i v :
  ends_within (fun m' => length m' = length m) (store m i v).
Proof. unfold store. destruct (_ && _); simpl; [|done]. by rewrite length_insert. Qed.

Lemma atomicAdd_ends_within m i v :
  ends_within (fun m' => length m' = length m) (atomicAdd m i v).
Proof.
  unfold atomicAdd. eapply ends_within_bind; [apply load_ends_within|].
  intros old _. apply store_ends_within.
Qed.

(** ** The counters without a filter, on samples outside the bins *)

(** One sample counted (lines 13, 26 and 114): the array keeps its length,
    and a sample at or beyond that length is an access outside the array. *)
Lemma count_sample_ends_within (input : list uchar) i (m : list Z) :
  ends_within (fun m' => length m' = length m) (v ← load input i; atomicAdd m (uchar_val v) 1).
Proof.
  eapply ends_within_bind; [apply load_ends_within|].
  intros v _. apply atomicAdd_ends_within.
Qed.

Lemma count_sample_fault (input : list uchar) (p : nat) c (m : list Z) :
  input !! p = Some c -> Z.of_nat (length m) <= uchar_val c ->
  (v ← load input (Z.of_nat p); atomicAdd m (uchar_val v) 1) = Fault.
Proof.
  intros Hc Hm. rewrite (load_Done input (Z.of_nat p) c) by (rewrite ?Nat2Z.id; done || lia).
  rewrite bind_Done. by apply atomicAdd_Fault.
Qed.

(** Samples that are not all below [numBins] have one at or above it. *)
Lemma sample_beyond (input : list uchar) (numBins : Z) :
  ~ Forall (fun v => v < numBins) (samples_of input) ->
  exists (p : nat) c, input !! p = Some c /\ numBins <= uchar_val c.
Proof.
  intros Hn. apply not_Forall_Exists in Hn; [|intros v; apply _].
  apply Exists_exists in Hn as (v & Hv & Hge). simpl in Hge.
  apply list_elem_of_lookup in Hv as [p Hp]. unfold samples_of in Hp.
  rewrite list_lookup_fmap in Hp.
  destruct (input !! p) as [c|] eqn:E; [|done]. simpl in Hp.
  exists p, c. split; [done|]. injection Hp as <-. lia.
Qed.

(** X11. The sequential counter [computeHistogramCPU] returns the histogram
    of the samples, whatever the array held before, exactly when every
    sample is below [numBins]; with a sample at or above [numBins] it indexes
    the histogram outside its bounds.  It has no check of its own. *)
Theorem sequential_counter_needs_samples_below_the_bin_count
    (fuel : nat) (input : list uchar) (stale : list Z) (N numBins : Z) :
  0 <= N < INT_MAX -> 0 <= numBins < INT_MAX ->
  Z.of_nat (length input) = N ->
  Z.of_nat (length stale) = numBins ->
  (Z.to_nat (Z.max N numBins) <= fuel)%nat ->
  computeHistogramCPU fuel input stale N numBins
  = if decide (Forall (fun v => v < numBins) (samples_of input))
    then Done (histogram_of numBins (samples_of input))
    else Fault.
Proof.
  intros HN Hbins Hin Hst Hf. destruct (decide _) as [Hrange|Hout].
  - destruct (cpu_adds fuel input N numBins HN Hbins Hin Hrange Hf stale Hst)
      as (h & -> & Hadds).
    f_equal. apply adds_zero_eq.
    + by replace (Z.to_nat numBins) with (length stale) by lia.
    + intros j _. apply (count_of_bounds j _ N); [|lia].
      unfold samples_of. by rewrite length_fmap.
  - destruct (sample_beyond input numBins Hout) as (p & c & Hc & Hge).
    pose proof (lookup_lt_Some _ _ _ Hc) as Hp.
    unfold computeHistogramCPU.
    rewrite (unit_loop_foldM fuel input N numBins Hf) by lia.
    destruct (foldM_store0 (seqZ 0 numBins) stale) as (h0 & -> & Hl0 & _).
    { intros i Hi%elem_of_seqZ. lia. }
    rewrite bind_Done, (unit_loop_foldM fuel input N numBins Hf) by lia.
    apply (foldM_reaches_fault (fun h => length h = length stale) _ _ (Z.of_nat p));
      [apply elem_of_seqZ; lia| | |done].
    + intros i h _ Hh. rewrite <- Hh. apply count_sample_ends_within.
    + intros h Hh. apply (count_sample_fault input p c h Hc). lia.
Qed.

Lemma sequential_counter_witness :
  computeHistogramCPU 3 [Byte.x00; Byte.x05; Byte.x01] [9; 9] 3 2
  = if decide (Forall (fun v => v < 2) (samples_of [Byte.x00; Byte.x05; Byte.x01]))
    then Done (histogram_of 2 (samples_of [Byte.x00; Byte.x05; Byte.x01]))
    else Fault.
Proof.
  apply (sequential_counter_needs_samples_below_the_bin_count 3
           [Byte.x00; Byte.x05; Byte.x01] [9; 9] 3 2).
  - unfold INT_MAX. lia.
  - unfold INT_MAX. lia.
  - reflexivity.
  - reflexivity.
  - simpl. lia.
Defined.

Lemma naive_thread_ends_within (input : list uchar) N numBins c (h : list Z) :
  ends_within (fun h' => length h' = length h) (Naive.thread_body input N numBins c h).
Proof.
  unfold Naive.thread_body. destruct (_ <? N); [|done]. apply count_sample_ends_within.
Qed.

(** X12. The naive kernel indexes the histogram with the sample itself: a
    sample at a position that has a thread (below [N] and below the number
    of threads launched) and whose value is at or beyond the length of the
    histogram makes the kernel access the histogram outside its bounds,
    whatever the other samples are.  The parameter [numBins] is not looked
    at. *)
Theorem naive_kernel_indexes_the_histogram_with_the_sample
    (g : dim3) (input : list uchar) (histogram : list Z) (N numBins : Z) (p : nat) (c : uchar) :
  1 <= blockDim_x g ->
  blockDim_x g * gridDim_x g <= INT_MAX ->
  Z.of_nat p < N -> Z.of_nat p < blockDim_x g * gridDim_x g ->
  input !! p = Some c ->
  Z.of_nat (length histogram) <= uchar_val c ->
  computeHistogramNaive g input histogram N numBins = Fault.
Proof.
  intros Hb Ht HpN HpT Hc Hge.
  set (bd := blockDim_x g) in *. set (gd := gridDim_x g) in *.
  set (b0 := Z.of_nat p / bd). set (t0 := Z.of_nat p mod bd).
  assert (Z.of_nat p = b0 * bd + t0) as Hp.
  { unfold b0, t0. pose proof (Z.div_mod (Z.of_nat p) bd ltac:(lia)). lia. }
  assert (0 <= t0 < bd) as Ht0 by (apply Z.mod_pos_bound; lia).
  assert (0 <= b0 < gd) as Hb0.
  { split; [apply Z.div_pos; lia|]. apply Z.div_lt_upper_bound; lia. }
  unfold computeHistogramNaive, grid_blocks, block_threads. fold bd gd.
  apply (foldM_reaches_fault (fun h => length h = length histogram) _ _ b0);
    [apply elem_of_seqZ; lia| | |done].
  - intros b h _ Hh. rewrite <- Hh. apply foldM_ends_within; [|done].
    intros c' h' _ Hh'. rewrite <- Hh'. apply naive_thread_ends_within.
  - intros h Hh.
    apply (foldM_reaches_fault (fun h' => length h' = length histogram) _ _ (thread_of g b0 t0));
      [apply list_elem_of_fmap; exists t0; split; [done|apply elem_of_seqZ; lia]| | |done].
    + intros c' h' _ Hh'. rewrite <- Hh'. apply naive_thread_ends_within.
    + intros h' Hh'. unfold Naive.thread_body.
      cbn [blockIdx blockDim threadIdx thread_of]. fold bd. rewrite <- Hp.
      rewrite wrap32_small by (unfold in_int, INT_MIN, INT_MAX in *; lia).
      destruct (Z.ltb_spec (Z.of_nat p) N); [|lia].
      apply (count_sample_fault input p c h' Hc). lia.
Qed.

Lemma naive_kernel_fault_witness :
  computeHistogramNaive {| gridDim_x := 1; blockDim_x := 2 |} [Byte.x00; Byte.x05]
    [0; 0] 2 2 = Fault.
Proof.
  apply (naive_kernel_indexes_the_histogram_with_the_sample
           {| gridDim_x := 1; blockDim_x := 2 |} [Byte.x00; Byte.x05] [0; 0] 2 2
           1%nat Byte.x05).
  - simpl. lia.
  - simpl. unfold INT_MAX. lia.
  - lia.
  - simpl. lia.
  - reflexivity.
  - vm_compute. discriminate.
Defined.

(** ** The shared-memory kernel, on any samples and under any schedule *)

Section SharedAnySamples.
Variables (fuel : nat) (g : dim3) (input : list uchar) (N numBins : Z).
Variable sched : schedule.
Hypothesis Hsched : schedule_of g sched.
Hypothesis Hlaunch : launch_ok 1 g N numBins.
Hypothesis Hfuel : (Z.to_nat (Z.max N numBins) <= fuel)%nat.

Let bd := blockDim_x g.
Let gd := gridDim_x g.
Let S := bd * gd.

Local Lemma shared_launch :
  1 <= bd /\ 1 <= gd /\ 0 <= N /\ 0 <= numBins /\
  0 < S /\ N + S <= INT_MAX /\ numBins + bd <= INT_MAX.
Proof. destruct Hlaunch. unfold S, bd, gd in *. repeat split; try lia; nia. Qed.

(** Lines 25-27 for one thread: the samples at the thread's positions, one
    after the other. *)
Lemma shared_accumulate_foldM b t sh :
  0 <= b < gd -> 0 <= t < bd ->
  Shared.accumulate fuel input N (thread_of g b t) sh
  = foldM (Shared.count_sample input) (loop_indices (b * bd + t) N S) sh.
Proof.
  intros Hb Ht. destruct shared_launch as (Hbd & Hgd & HN & Hnb & HS & Hidx & Hbi).
  assert (0 <= b * bd + t < S) as Hgid by (unfold S; nia).
  unfold Shared.accumulate. cbn [blockIdx blockDim threadIdx gridDim thread_of].
  fold bd gd. fold S. unfold INT_MAX in *.
  rewrite wrap32_small by int_lia.
  rewrite for_loop_foldM; unfold INT_MIN, INT_MAX; try lia; [done|].
  unfold trip_count. destruct (Z.ltb_spec (b * bd + t) N); [|lia].
  assert ((N - (b * bd + t) + S - 1) / S <= N); [|lia].
  assert (0 <= (S - 1) * (N - 1)) by (apply Z.mul_nonneg_nonneg; lia).
  apply Z.div_le_upper_bound; lia.
Qed.

Lemma shared_accumulate_ends_within b t sh :
  0 <= b < gd -> 0 <= t < bd ->
  ends_within (fun sh' => length sh' = length sh)
    (Shared.accumulate fuel input N (thread_of g b t) sh).
Proof.
  intros Hb Ht. rewrite shared_accumulate_foldM by done.
  apply (foldM_ends_within (fun sh' => length sh' = length sh)); [|done].
  intros i sh' _ Hl. rewrite <- Hl. apply count_sample_ends_within.
Qed.

Lemma shared_reduce_ends_within b t sh h :
  0 <= t < bd ->
  ends_within (fun h' => length h' = length h)
    (Shared.reduce fuel numBins (thread_of g b t) sh h).
Proof.
  intros Ht. destruct shared_launch as (Hbd & Hgd & HN & Hnb & HS & Hidx & Hbi).
  unfold Shared.reduce. cbn [threadIdx blockDim thread_of].
  rewrite (bin_loop_foldM fuel g numBins) by (done || lia).
  apply (foldM_ends_within (fun h' => length h' = length h)); [|done].
  intros i h' _ Hl. rewrite <- Hl.
  eapply ends_within_bind; [apply load_ends_within|]. intros v _.
  destruct (0 <? v); [apply atomicAdd_ends_within|done].
Qed.

(** A block comes to an end, and leaves the histogram its length. *)
Lemma shared_block_ends_within sharedHist0 b h :
  Z.of_nat (length sharedHist0) = numBins ->
  0 <= b < gd ->
  ends_within (fun h' => length h' = length h)
    (run_block_in sched (Shared.kernel fuel input N numBins) g sharedHist0 b h).
Proof.
  intros Hsh Hb. destruct shared_launch as (Hbd & Hgd & HN & Hnb & HS & Hidx & Hbi).
  destruct Hsched as [_ Hthreads].
  unfold run_block_in. cbn [before_barrier1 before_barrier2 after_barrier2 Shared.kernel].
  change (Shared.zero_shared fuel numBins) with (Optimized.zero_shared fuel numBins).
  rewrite (zero_phase fuel g numBins) by first [done|lia]. rewrite bind_Done.
  eapply ends_within_bind.
  - apply (foldM_ends_within (fun sh => length sh = length sharedHist0));
      [|by rewrite length_replicate].
    intros c sh (t & -> & Ht)%list_elem_of_fmap Hl.
    rewrite (Hthreads b 1%nat) in Ht. apply elem_of_seqZ in Ht.
    rewrite <- Hl. apply shared_accumulate_ends_within; [done|lia].
  - intros s2 _. apply (foldM_ends_within (fun h' => length h' = length h)); [|done].
    intros c h' (t & -> & Ht)%list_elem_of_fmap Hl.
    rewrite (Hthreads b 2%nat) in Ht. apply elem_of_seqZ in Ht.
    rewrite <- Hl. apply shared_reduce_ends_within. lia.
Qed.

(** The thread that has position [p] among its positions counts the sample
    there; when the sample is no bin, the block and the grid end there. *)
Lemma shared_sample_beyond sharedHist0 histogram (p : nat) c :
  Z.of_nat (length sharedHist0) = numBins ->
  Z.of_nat p < N -> input !! p = Some c -> numBins <= uchar_val c ->
  run_grid_in sched (Shared.kernel fuel input N numBins) g sharedHist0 histogram = Fault.
Proof.
  intros Hsh HpN Hc Hge. destruct shared_launch as (Hbd & Hgd & HN & Hnb & HS & Hidx & Hbi).
  set (gid := Z.of_nat p mod S).
  assert (0 <= gid < S) as Hgid by (apply Z.mod_pos_bound; lia).
  set (b0 := gid / bd). set (t0 := gid mod bd).
  assert (gid = b0 * bd + t0) as Egid.
  { unfold b0, t0. pose proof (Z.div_mod gid bd ltac:(lia)). lia. }
  assert (0 <= t0 < bd) as Ht0 by (apply Z.mod_pos_bound; lia).
  assert (0 <= b0 < gd) as Hb0.
  { split; [apply Z.div_pos; lia|]. apply Z.div_lt_upper_bound; [lia|]. fold S. lia. }
  pose proof Hsched as [Hblocks Hthreads].
  unfold run_grid_in.
  apply (foldM_reaches_fault (fun h => True) _ _ b0); [| | |done].
  - rewrite Hblocks. apply elem_of_seqZ. fold gd. lia.
  - intros b h Hb _. rewrite Hblocks in Hb. apply elem_of_seqZ in Hb.
    eapply ends_within_impl; [|apply shared_block_ends_within; [done|fold gd in Hb; lia]].
    done.
  - intros h _. unfold run_block_in.
    cbn [before_barrier1 before_barrier2 after_barrier2 Shared.kernel].
    change (Shared.zero_shared fuel numBins) with (Optimized.zero_shared fuel numBins).
    rewrite (zero_phase fuel g numBins) by first [done|lia]. rewrite bind_Done.
    rewrite (foldM_reaches_fault (fun sh => length sh = length sharedHist0) _ _
               (thread_of g b0 t0)); [done| | | |by rewrite length_replicate].
    + apply list_elem_of_fmap. exists t0. split; [done|].
      rewrite (Hthreads b0 1%nat). apply elem_of_seqZ. fold bd. lia.
    + intros c' sh (t & -> & Ht)%list_elem_of_fmap Hl.
      rewrite (Hthreads b0 1%nat) in Ht. apply elem_of_seqZ in Ht.
      rewrite <- Hl. apply shared_accumulate_ends_within; [done|fold bd in Ht; lia].
    + intros sh Hl. rewrite shared_accumulate_foldM by done. rewrite <- Egid.
      apply (foldM_reaches_fault (fun sh' => length sh' = length sharedHist0) _ _
               (Z.of_nat p)); [| | |done].
      * apply elem_of_loop_indices; [done|]. exists (Z.of_nat p / S).
        split; [apply Z.div_pos; lia|]. split; [|done].
        unfold gid. pose proof (Z.div_mod (Z.of_nat p) S ltac:(lia)). lia.
      * intros i sh' _ Hl'. rewrite <- Hl'. apply count_sample_ends_within.
      * intros sh' Hl'. apply (count_sample_fault input p c sh' Hc). lia.
Qed.
End SharedAnySamples.

Lemma adds_imap m m' f :
  adds m m' f -> m' = imap (fun j x => wrap32 (x + f (Z.of_nat j))) m.
Proof.
  intros [Hl H]. apply list_eq. intros j. rewrite list_lookup_imap.
  destruct (m !! j) as [x|] eqn:E; simpl.
  - by apply H.
  - apply lookup_ge_None. apply lookup_ge_None in E. lia.
Qed.

(** X13. The shared-memory kernel accumulates, under every schedule: on
    samples that are all below [numBins] it ends, in whatever order the
    blocks and the threads of a block run and whatever the shared array held
    at the start, with the histogram it was given plus the count of every
    bin, in [int] arithmetic; the run in index order is one of them. *)
Theorem shared_kernel_accumulates_under_every_schedule
    (fuel : nat) (g : dim3) (sched : schedule) (input : list uchar)
    (sharedHist0 histogram : list Z) (N numBins : Z) :
  schedule_of g sched ->
  launch_ok 1 g N numBins ->
  Z.of_nat (length input) = N ->
  Forall (fun v => v < numBins) (samples_of input) ->
  Z.of_nat (length sharedHist0) = numBins ->
  Z.of_nat (length histogram) = numBins ->
  int_array histogram ->
  (Z.to_nat (Z.max N numBins) <= fuel)%nat ->
  computeHistogramShared fuel g sharedHist0 input histogram N numBins
  = Done (add_counts histogram (samples_of input)) /\
  run_grid_in sched (Shared.kernel fuel input N numBins) g sharedHist0 histogram
  = Done (add_counts histogram (samples_of input)).
Proof.
  intros Hsched Hl Hin Hrange Hsh Hlen Hint Hf. split.
  - destruct (shared_adds fuel g input N numBins Hl Hin Hrange Hf sharedHist0 histogram
                Hsh Hlen Hint) as (h & -> & Hadds).
    f_equal. exact (adds_imap _ _ _ Hadds).
  - destruct (shared_adds_in fuel g input N numBins sched Hsched Hl Hin Hrange Hf
                sharedHist0 histogram Hsh Hlen Hint) as (h & -> & Hadds).
    f_equal. exact (adds_imap _ _ _ Hadds).
Qed.

Lemma launch_ok_shared_2_3_4_4 : launch_ok 1 {| gridDim_x := 2; blockDim_x := 3 |} 4 4.
Proof. constructor; simpl; unfold INT_MAX; lia. Qed.

Lemma shared_kernel_accumulates_witness :
  computeHistogramShared 4 {| gridDim_x := 2; blockDim_x := 3 |} [7; 7; 7; 7]
    [Byte.x00; Byte.x01; Byte.x01; Byte.x03] [5; 0; 0; 1] 4 4
  = Done (add_counts [5; 0; 0; 1] (samples_of [Byte.x00; Byte.x01; Byte.x01; Byte.x03])) /\
  run_grid_in shuffled (Shared.kernel 4 [Byte.x00; Byte.x01; Byte.x01; Byte.x03] 4 4)
    {| gridDim_x := 2; blockDim_x := 3 |} [7; 7; 7; 7] [5; 0; 0; 1]
  = Done (add_counts [5; 0; 0; 1] (samples_of [Byte.x00; Byte.x01; Byte.x01; Byte.x03])).
Proof.
  apply (shared_kernel_accumulates_under_every_schedule 4
           {| gridDim_x := 2; blockDim_x := 3 |} shuffled
           [Byte.x00; Byte.x01; Byte.x01; Byte.x03] [7; 7; 7; 7] [5; 0; 0; 1] 4 4).
  - exact shuffled_schedule.
  - exact launch_ok_shared_2_3_4_4.
  - reflexivity.
  - repeat constructor.
  - reflexivity.
  - reflexivity.
  - repeat constructor; unfold INT_MIN, INT_MAX; lia.
  - simpl. lia.
Defined.

(** X14. The shared-memory kernel indexes the shared array with the sample
    itself: one sample at or above [numBins] among the first [N], wherever
    it stands, makes the kernel access the shared array outside its bounds,
    under every schedule. *)
Theorem shared_kernel_indexes_the_shared_array_with_the_sample
    (fuel : nat) (g : dim3) (sched : schedule) (input : list uchar)
    (sharedHist0 histogram : list Z) (N numBins : Z) (p : nat) (c : uchar) :
  schedule_of g sched ->
  launch_ok 1 g N numBins ->
  Z.of_nat (length sharedHist0) = numBins ->
  (Z.to_nat (Z.max N numBins) <= fuel)%nat ->
  Z.of_nat p < N -> input !! p = Some c -> numBins <= uchar_val c ->
  computeHistogramShared fuel g sharedHist0 input histogram N numBins = Fault /\
  run_grid_in sched (Shared.kernel fuel input N numBins) g sharedHist0 histogram = Fault.
Proof.
  intros Hsched Hl Hsh Hf Hp Hc Hge. split.
  - apply (shared_sample_beyond fuel g input N numBins (in_order g) (in_order_schedule g)
             Hl Hf sharedHist0 histogram p c Hsh Hp Hc Hge).
  - by apply (shared_sample_beyond fuel g input N numBins sched Hsched Hl Hf
                sharedHist0 histogram p c).
Qed.

Lemma shared_kernel_fault_witness :
  computeHistogramShared 4 {| gridDim_x := 2; blockDim_x := 3 |} [7; 7; 7; 7]
    [Byte.x00; Byte.x05; Byte.x01; Byte.x03] [5; 0; 0; 1] 4 4 = Fault /\
  run_grid_in shuffled (Shared.kernel 4 [Byte.x00; Byte.x05; Byte.x01; Byte.x03] 4 4)
    {| gridDim_x := 2; blockDim_x := 3 |} [7; 7; 7; 7] [5; 0; 0; 1] = Fault.
Proof.
  apply (shared_kernel_indexes_the_shared_array_with_the_sample 4
           {| gridDim_x := 2; blockDim_x := 3 |} shuffled
           [Byte.x00; Byte.x05; Byte.x01; Byte.x03] [7; 7; 7; 7] [5; 0; 0; 1] 4 4
           1%nat Byte.x05).
  - exact shuffled_schedule.
  - exact launch_ok_shared_2_3_4_4.
  - reflexivity.
  - simpl. lia.
  - lia.
  - reflexivity.
  - vm_compute. discriminate.
Defined.

(** ** The hierarchical kernel: launches in sequence, and a short buffer *)

(** X15. Launches compose: a launch on one batch of samples from a zeroed
    histogram, followed by a launch on a second batch into the histogram the
    first left, ends with the histogram of the two batches together; the
    launches may differ in their geometry.  (Together the batches have at
    most [INT_MAX] samples.) *)
Theorem launches_accumulate
    (fuel : nat) (g1 g2 : dim3) (stale1 stale2 input1 input2 : list Z) (N1 N2 numBins : Z) :
  launch_ok Optimized.elementsPerThread g1 N1 numBins ->
  launch_ok Optimized.elementsPerThread g2 N2 numBins ->
  Z.of_nat (length input1) = N1 -> Z.of_nat (length input2) = N2 ->
  N1 + N2 <= INT_MAX ->
  Z.of_nat (length stale1) = numBins -> Z.of_nat (length stale2) = numBins ->
  (Z.to_nat (Z.max (Z.max N1 N2) numBins) <= fuel)%nat ->
  (histogram ← computeHistogramOptimized fuel g1 stale1 input1
                 (replicate (Z.to_nat numBins) 0) N1 numBins;
   computeHistogramOptimized fuel g2 stale2 input2 histogram N2 numBins)
  = Done (histogram_of numBins (input1 ++ input2)).
Proof.
  intros Hl1 Hl2 Hin1 Hin2 Hsum Hs1 Hs2 Hf.
  assert (0 <= numBins) as Hb by (by destruct Hl1).
  destruct (optimized_adds fuel g1 input1 N1 numBins Hl1 Hin1 ltac:(lia) stale1
              (replicate (Z.to_nat numBins) 0)) as (h1 & -> & Ha1);
    [done|rewrite length_replicate; lia|apply zeros_int_array|].
  rewrite bind_Done.
  destruct (optimized_adds fuel g2 input2 N2 numBins Hl2 Hin2 ltac:(lia) stale2 h1)
    as (h2 & -> & Ha2);
    [done|destruct Ha1 as [-> _]; rewrite length_replicate; lia|by eapply adds_int_array|].
  f_equal. apply adds_zero_eq.
  - eapply adds_ext; [|exact (adds_trans _ _ _ _ _ Ha1 Ha2)].
    intros j _. cbv beta. by rewrite count_of_app.
  - intros j _. apply (count_of_bounds j _ (N1 + N2)); [|done].
    rewrite length_app. lia.
Qed.

Lemma launch_ok_2_3_3_4 :
  launch_ok Optimized.elementsPerThread {| gridDim_x := 2; blockDim_x := 3 |} 3 4.
Proof. constructor; simpl; unfold INT_MAX, Optimized.elementsPerThread; lia. Qed.

Lemma launches_accumulate_witness :
  (histogram ← computeHistogramOptimized 4 {| gridDim_x := 1; blockDim_x := 2 |} [7; 7; 7; 7]
                 [0; 1; -4; 2] (replicate (Z.to_nat 4) 0) 4 4;
   computeHistogramOptimized 4 {| gridDim_x := 2; blockDim_x := 3 |} [0; 0; 9; 9]
     [3; 9; 3] histogram 3 4)
  = Done (histogram_of 4 ([0; 1; -4; 2] ++ [3; 9; 3])).
Proof.
  apply (launches_accumulate 4 {| gridDim_x := 1; blockDim_x := 2 |}
           {| gridDim_x := 2; blockDim_x := 3 |} [7; 7; 7; 7] [0; 0; 9; 9]
           [0; 1; -4; 2] [3; 9; 3] 4 3 4).
  - exact launch_ok_1_2_4_4.
  - exact launch_ok_2_3_3_4.
  - reflexivity.
  - reflexivity.
  - unfold INT_MAX. lia.
  - reflexivity.
  - reflexivity.
  - simpl. lia.
Defined.

Lemma prefetch_fault (input : list Z) N base strd i slots :
  i ∈ slots ->
  Optimized.prefetch_slot input N base strd i = Fault ->
  Optimized.prefetch input N base strd slots = Fault.
Proof.
  intros Hi Hbad. induction slots as [|j slots IH]; [by apply elem_of_nil in Hi|].
  cbn [Optimized.prefetch]. apply elem_of_cons in Hi as [<-|Hi]; [by rewrite Hbad|].
  destruct (Optimized.prefetch_slot input N base strd j) as [v| |] eqn:E; simpl; [|done|].
  - by rewrite IH.
  - unfold Optimized.prefetch_slot in E. destruct (_ <? N); [|done].
    by apply load_finishes in E.
Qed.

Section ShortBuffer.
Variables (fuel : nat) (g : dim3) (input : list Z) (N numBins : Z).
Variable sched : schedule.
Hypothesis Hsched : schedule_of g sched.
Hypothesis Hlaunch : launch_ok Optimized.elementsPerThread g N numBins.
Hypothesis Hshort : Z.of_nat (length input) < N.
Hypothesis Hfuel : (Z.to_nat (Z.max N numBins) + 1 <= fuel)%nat.

Let bd := blockDim_x g.
Let gd := gridDim_x g.
Let S := bd * gd.
Let L := Z.of_nat (length input).

Local Lemma short_geometry :
  1 <= bd /\ 1 <= gd /\ 0 <= N /\ 0 < S /\ N + 12 * S <= INT_MAX /\
  12 * (blockDim_x g * gridDim_x g) <= INT_MAX.
Proof.
  destruct Hlaunch. unfold S, bd, gd, Optimized.elementsPerThread in *.
  repeat split; try lia; nia.
Qed.

(** The thread that has the first position past the buffer among its
    positions: the prefetch of the chunk with that position reads there. *)
Lemma accumulate_past_the_buffer sh :
  Optimized.accumulate fuel input N numBins
    (thread_of g ((L mod S) / bd) ((L mod S) mod bd)) sh = Fault.
Proof.
  destruct short_geometry as (Hbd & Hgd & HN & HS & Hidx & Hstride).
  assert (0 <= L) as HL by (unfold L; lia).
  assert (0 <= L mod S < S) as Hgid by (apply Z.mod_pos_bound; lia).
  assert (L mod S = L mod S / bd * bd + L mod S mod bd) as Egid.
  { pose proof (Z.div_mod (L mod S) bd ltac:(lia)). lia. }
  assert (0 <= L / S) as Hm by (apply Z.div_pos; lia).
  assert (0 <= L / S / 12) as Hk by (apply Z.div_pos; lia).
  pose proof (Z.mod_pos_bound (L / S) 12 ltac:(lia)) as Hi.
  set (gid := L mod S) in *. set (k := L / S / 12) in *. set (i := (L / S) mod 12) in *.
  (* the position [L] is slot [i] of chunk [k] of thread [gid] *)
  assert (L = gid + k * (S * 12) + i * S) as EL.
  { pose proof (Z.div_mod L S ltac:(lia)) as E1.
    pose proof (Z.div_mod (L / S) 12 ltac:(lia)) as E2.
    rewrite E1 at 1. rewrite E2 at 1. fold gid k i. ring. }
  assert (0 <= k * S) as HkS by (apply Z.mul_nonneg_nonneg; lia).
  assert (0 <= i * S) as HiS by (apply Z.mul_nonneg_nonneg; lia).
  assert (0 < N -> 0 <= (S * 12 - 1) * (N - 1)) as HSN
    by (intros; apply Z.mul_nonneg_nonneg; lia).
  assert (i * S <= 11 * S) as HiS' by (apply Z.mul_le_mono_nonneg_r; lia).
  unfold Optimized.accumulate, Optimized.tid, Optimized.stride.
  cbn [blockIdx blockDim threadIdx gridDim thread_of]. fold bd gd. fold S.
  rewrite <- Egid.
  unfold INT_MAX, Optimized.elementsPerThread in *.
  rewrite (wrap32_small S) by int_lia.
  rewrite (wrap32_small gid) by int_lia.
  rewrite wrap32_small by int_lia.
  rewrite for_loop_foldM; unfold INT_MIN, INT_MAX; try lia.
  2:{ unfold trip_count. destruct (Z.ltb_spec gid N); [|lia].
      assert ((N - gid + S * 12 - 1) / (S * 12) <= N); [|lia].
      specialize (HSN ltac:(lia)). apply Z.div_le_upper_bound; lia. }
  rewrite (foldM_reaches_fault (fun _ => True) _ _ (gid + k * (S * 12))); [done| | | |done].
  - apply elem_of_loop_indices; [lia|]. exists k. split; [done|]. split; [done|]. lia.
  - intros base st _ _. apply ends_within_finishes; [apply chunk_finishes|done].
  - intros st _. unfold Optimized.chunk.
    rewrite (prefetch_fault input N _ S i);
      [done|apply elem_of_seqZ; unfold Optimized.elementsPerThread; lia|].
    unfold Optimized.prefetch_slot.
    rewrite (wrap32_small (i * S)) by int_lia.
    rewrite <- EL.
    rewrite wrap32_small by int_lia.
    destruct (Z.ltb_spec L N); [|lia].
    unfold load. destruct (Z.ltb_spec L 0); [done|].
    by rewrite lookup_ge_None_2 by (unfold L; lia).
Qed.

Lemma optimized_block_ends sharedHist0 b h :
  0 <= b < gd ->
  ends_within (fun _ => True)
    (run_block_in sched (Optimized.kernel fuel input N numBins) g sharedHist0 b h).
Proof.
  intros Hb. destruct short_geometry as (Hbd & Hgd & HN & HS & Hidx & Hstride).
  destruct Hsched as [_ Hthreads].
  unfold run_block_in. cbn [before_barrier1 before_barrier2 after_barrier2 Optimized.kernel].
  apply (ends_within_bind (fun _ => True)).
  { apply (foldM_ends_within (fun _ => True)); [|done].
    intros c sh (t & -> & Ht)%list_elem_of_fmap _.
    rewrite (Hthreads b 0%nat) in Ht. apply elem_of_seqZ in Ht.
    apply ends_within_finishes; [|done].
    apply (zero_shared_finishes fuel g N numBins); try done; lia. }
  intros s1 _. apply (ends_within_bind (fun _ => True)).
  { apply (foldM_ends_within (fun _ => True)); [|done].
    intros c sh (t & -> & Ht)%list_elem_of_fmap _.
    rewrite (Hthreads b 1%nat) in Ht. apply elem_of_seqZ in Ht.
    apply ends_within_finishes; [|done].
    apply (accumulate_finishes fuel g input N numBins); try done; lia. }
  intros s2 _. apply (foldM_ends_within (fun _ => True)); [|done].
  intros c sh (t & -> & Ht)%list_elem_of_fmap _.
  rewrite (Hthreads b 2%nat) in Ht. apply elem_of_seqZ in Ht.
  apply ends_within_finishes; [|done].
  apply (reduce_finishes fuel g N numBins); try done; lia.
Qed.

Lemma optimized_short_buffer sharedHist0 histogram :
  run_grid_in sched (Optimized.kernel fuel input N numBins) g sharedHist0 histogram = Fault.
Proof.
  destruct short_geometry as (Hbd & Hgd & HN & HS & Hidx & Hstride).
  pose proof Hsched as [Hblocks Hthreads].
  set (gid := L mod S).
  assert (0 <= gid < S) as Hgid by (apply Z.mod_pos_bound; lia).
  assert (0 <= gid mod bd < bd) as Ht0 by (apply Z.mod_pos_bound; lia).
  assert (0 <= gid / bd < gd) as Hb0.
  { split; [apply Z.div_pos; lia|]. apply Z.div_lt_upper_bound; [lia|]. fold S. lia. }
  unfold run_grid_in.
  apply (foldM_reaches_fault (fun _ => True) _ _ (gid / bd)); [| | |done].
  - rewrite Hblocks. apply elem_of_seqZ. fold gd. lia.
  - intros b h Hb _. rewrite Hblocks in Hb. apply elem_of_seqZ in Hb.
    apply optimized_block_ends. fold gd in Hb. lia.
  - intros h _. unfold run_block_in.
    cbn [before_barrier1 before_barrier2 after_barrier2 Optimized.kernel].
    assert (ends_within (fun _ => True)
              (foldM (Optimized.zero_shared fuel numBins)
                 (thread_of g (gid / bd) <$> thread_order sched (gid / bd) 0) sharedHist0))
      as Hzero.
    { apply (foldM_ends_within (fun _ => True)); [|done].
      intros c sh (t & -> & Ht)%list_elem_of_fmap _.
      rewrite (Hthreads _ 0%nat) in Ht. apply elem_of_seqZ in Ht.
      apply ends_within_finishes; [|done].
      apply (zero_shared_finishes fuel g N numBins); try done; lia. }
    destruct (foldM (Optimized.zero_shared fuel numBins) _ sharedHist0) as [s1| |];
      simpl in Hzero |- *; [|done|done].
    rewrite (foldM_reaches_fault (fun _ => True) _ _ (thread_of g (gid / bd) (gid mod bd)));
      [done| | | |done].
    + apply list_elem_of_fmap. exists (gid mod bd). split; [done|].
      rewrite (Hthreads _ 1%nat). apply elem_of_seqZ. fold bd. lia.
    + intros c sh (t & -> & Ht)%list_elem_of_fmap _.
      rewrite (Hthreads _ 1%nat) in Ht. apply elem_of_seqZ in Ht.
      apply ends_within_finishes; [|done].
      apply (accumulate_finishes fuel g input N numBins); try done; lia.
    + intros sh _. apply accumulate_past_the_buffer.
Qed.
End ShortBuffer.

(** X16. The hierarchical kernel reads every position below [N]: given a
    buffer with fewer than [N] elements it reads past the end of the buffer,
    under every schedule and whatever the buffer, the shared array and the
    histogram hold.  Its range check is against [N], not against the
    buffer. *)
Theorem hierarchical_kernel_reads_every_position_below_N
    (fuel : nat) (g : dim3) (sched : schedule)
    (sharedHist0 input histogram : list Z) (N numBins : Z) :
  schedule_of g sched ->
  launch_ok Optimized.elementsPerThread g N numBins ->
  Z.of_nat (length input) < N ->
  (Z.to_nat (Z.max N numBins) + 1 <= fuel)%nat ->
  computeHistogramOptimized fuel g sharedHist0 input histogram N numBins = Fault /\
  run_grid_in sched (Optimized.kernel fuel input N numBins) g sharedHist0 histogram = Fault.
Proof.
  intros Hsched Hl Hshort Hf. split.
  - apply (optimized_short_buffer fuel g input N numBins (in_order g) (in_order_schedule g)
             Hl Hshort Hf).
  - by apply optimized_short_buffer.
Qed.

Lemma short_buffer_witness :
  computeHistogramOptimized 11 {| gridDim_x := 2; blockDim_x := 3 |} [7; 7; 7; 7]
    [0; 1; 2; 3; 0; 1; 2; 3] [0; 0; 0; 0] 10 4 = Fault /\
  run_grid_in shuffled (Optimized.kernel 11 [0; 1; 2; 3; 0; 1; 2; 3] 10 4)
    {| gridDim_x := 2; blockDim_x := 3 |} [7; 7; 7; 7] [0; 0; 0; 0] = Fault.
Proof.
  apply (hierarchical_kernel_reads_every_position_below_N 11
           {| gridDim_x := 2; blockDim_x := 3 |} shuffled
           [7; 7; 7; 7] [0; 1; 2; 3; 0; 1; 2; 3] [0; 0; 0; 0] 10 4).
  - exact shuffled_schedule.
  - exact launch_ok_2_3_10_4.
  - simpl. lia.
  - simpl. lia.
Defined.

(** ** [compute] at its edges *)

(** X17. Every launch failure is silent.  Without a CUDA device, on a
    device that does not allow 1024 threads a block or a grid of the size
    the planner chose, or with a shared-memory request beyond what a block
    may have, the launch is refused and [compute], which reads no error
    code, goes on as after a success: it returns its output path and writes
    a histogram of [B] zeros. *)
Theorem compute_is_silent_when_the_launch_fails
    (fuel : nat) (dev : device) (tmp : string) (fs : files) (input_path : string) (N B : Z) :
  0 <= N -> 0 <= B ->
  deviceCount dev <= 0 \/
  maxThreadsPerBlock dev < solution.blockSize \/
  maxGridSize dev < solution.gridSize dev N \/
  sharedMemPerBlock dev < solution.sharedMemSize B ->
  let r := solution.compute fuel dev tmp fs input_path N B in
  result r = Returned (solution.sol_path tmp) /\
  files_after r !! solution.sol_path tmp = Some (replicate (Z.to_nat B) 0).
Proof.
  intros HN HB Hwhy r. subst r. unfold solution.compute.
  destruct (Z.ltb_spec N 0); [lia|]. destruct (Z.ltb_spec B 0); [lia|].
  rewrite launch_refused.
  - cbn [result files_after]. split; [done|]. by rewrite lookup_insert_eq.
  - unfold launch_accepted.
    destruct Hwhy as [Hd|[Ht|[Hg|Hs]]].
    + by destruct (Z.ltb_spec 0 (deviceCount dev)); [lia|].
    + destruct (Z.leb_spec solution.blockSize (maxThreadsPerBlock dev)); [lia|].
      by rewrite !andb_false_r.
    + destruct (Z.leb_spec (solution.gridSize dev N) (maxGridSize dev)); [lia|].
      by rewrite !andb_false_r.
    + destruct (Z.leb_spec (solution.sharedMemSize B) (sharedMemPerBlock dev)); [lia|].
      by rewrite !andb_false_r.
Qed.

Lemma compute_is_silent_witness :
  let r := solution.compute 0 no_device "/tmp" {[ "/tmp/input-4.dat" := [0; 1; 1; 0] ]}
             "/tmp/input-4.dat" 4 2 in
  result r = Returned (solution.sol_path "/tmp") /\
  files_after r !! solution.sol_path "/tmp" = Some (replicate (Z.to_nat 2) 0).
Proof.
  apply (compute_is_silent_when_the_launch_fails 0 no_device "/tmp"
           {[ "/tmp/input-4.dat" := [0; 1; 1; 0] ]} "/tmp/input-4.dat" 4 2).
  - lia.
  - lia.
  - left. simpl. lia.
Defined.

Lemma count_of_zeros b (n : nat) :
  count_of b (replicate n 0) = if decide (b = 0) then Z.of_nat n else 0.
Proof.
  unfold count_of. induction n as [|n IH]; [by destruct (decide _)|].
  cbn [replicate]. csimpl. rewrite IH.
  destruct (decide (0 = b)); destruct (decide (b = 0)); lia.
Qed.

Lemma histogram_of_zeros (B : Z) (n : nat) :
  1 <= B -> histogram_of B (replicate n 0) = Z.of_nat n :: replicate (Z.to_nat (B - 1)) 0.
Proof.
  intros HB. unfold histogram_of.
  rewrite seqZ_cons by lia. csimpl. rewrite count_of_zeros.
  destruct (decide (0 = 0)); [|done]. f_equal.
  replace (Z.pred B) with (B - 1) by lia.
  apply list_eq. intros i. rewrite list_lookup_fmap.
  destruct (decide (Z.of_nat i < B - 1)) as [Hi|Hi].
  - rewrite lookup_seqZ_lt by done. csimpl. rewrite count_of_zeros.
    destruct (decide _); [lia|]. symmetry. apply lookup_replicate_2. lia.
  - rewrite lookup_seqZ_ge by lia. csimpl. symmetry. apply lookup_ge_None.
    rewrite length_replicate. lia.
Qed.

(** X18. An input file that does not exist is read as [N] zeros, and so is
    the output file when it is given as the input file, for it is emptied
    before the input is read: [compute] reports no error, and writes a
    histogram with [N] in bin 0 and [0] in every other bin. *)
Theorem compute_reads_a_missing_input_as_zeros
    (fuel : nat) (dev : device) (tmp : string) (fs : files) (input_path : string) (N B : Z) :
  capable dev ->
  0 <= N <= 1073735679 ->
  1 <= B -> B * 4 <= sharedMemPerBlock dev ->
  (Z.to_nat (Z.max N B) <= fuel)%nat ->
  fs !! input_path = None \/ input_path = solution.sol_path tmp ->
  let r := solution.compute fuel dev tmp fs input_path N B in
  result r = Returned (solution.sol_path tmp) /\
  files_after r !! solution.sol_path tmp = Some (N :: replicate (Z.to_nat (B - 1)) 0).
Proof.
  intros Hcap HN HB Hfoot Hf Hmissing r. subst r.
  rewrite compute_histogram_read by first [done|lia]. cbn [result files_after].
  split; [done|]. rewrite lookup_insert_eq. f_equal.
  assert (read_ints (<[solution.sol_path tmp:=[]]> fs !! input_path) N
          = replicate (Z.to_nat N) 0) as ->.
  { destruct (decide (input_path = solution.sol_path tmp)) as [->|Hne].
    - rewrite lookup_insert_eq. unfold read_ints.
      cbn [default from_option id fmap list_fmap app].
      by rewrite take_replicate, Nat.min_id.
    - destruct Hmissing as [Hnone|]; [|done].
      rewrite lookup_insert_ne, Hnone by done. apply read_ints_missing. }
  rewrite histogram_of_zeros by done. f_equal. lia.
Qed.

Lemma compute_missing_input_witness :
  let r := solution.compute 4 v100 "/tmp" {[ "/tmp/student_histogram.dat" := [3; 1] ]}
             "/tmp/student_histogram.dat" 4 2 in
  result r = Returned (solution.sol_path "/tmp") /\
  files_after r !! solution.sol_path "/tmp" = Some (4 :: replicate (Z.to_nat (2 - 1)) 0).
Proof.
  apply (compute_reads_a_missing_input_as_zeros 4 v100 "/tmp"
           {[ "/tmp/student_histogram.dat" := [3; 1] ]} "/tmp/student_histogram.dat" 4 2).
  - exact v100_capable.
  - lia.
  - lia.
  - simpl. lia.
  - simpl. lia.
  - right. reflexivity.
Defined.

(** The hierarchical kernel leaves the histogram its length, whatever the
    launch and the input. *)
Lemma optimized_length fuel g sharedHist0 input histogram N numBins histogram' :
  computeHistogramOptimized fuel g sharedHist0 input histogram N numBins = Done histogram' ->
  length histogram' = length histogram.
Proof.
  unfold computeHistogramOptimized, run_grid.
  apply (foldM_preserves (fun h => length h = length histogram)); [|done].
  intros b h h' Hh. unfold run_block.
  destruct (foldM _ _ sharedHist0) as [s1| |]; simpl; [|done|done].
  destruct (foldM _ _ s1) as [s2| |]; simpl; [|done|done].
  apply (foldM_preserves (fun h => length h = length histogram)); [|done].
  intros c h1 h2 Hh1. cbn [after_barrier2 Optimized.kernel]. unfold Optimized.reduce.
  apply (for_loop_preserves (fun h => length h = length histogram)); [|done].
  intros i h3 h4 Hh3 E. unfold Optimized.reduce_bin in E.
  destruct (load s2 i) as [v| |]; simpl in E; [|done|done].
  destruct (0 <? v); [|by injection E as <-].
  rewrite <- Hh3. exact (ends_within_Done _ _ _ (atomicAdd_ends_within h3 i v) E).
Qed.

(** X19. [compute] writes one integer a bin: for all [N >= 0] and [B >= 0],
    on every device and whatever the files hold, the output file holds
    exactly [B] integers when [compute] is done, once the loops of the
    kernel are given [max(N, B) + 1] steps. *)
Theorem compute_writes_one_integer_a_bin
    (fuel : nat) (dev : device) (tmp : string) (fs : files) (input_path : string) (N B : Z) :
  0 <= N -> 0 <= B -> (Z.to_nat (Z.max N B) + 1 <= fuel)%nat ->
  exists histogram,
    files_after (solution.compute fuel dev tmp fs input_path N B) !! solution.sol_path tmp
    = Some histogram /\
    Z.of_nat (length histogram) = B.
Proof.
  intros HN HB Hf. unfold solution.compute.
  destruct (Z.ltb_spec N 0); [lia|]. destruct (Z.ltb_spec B 0); [lia|].
  destruct (launch_optimized _ _ _ _ _ _ _ _ _) as [h| |] eqn:E; cbn [files_after].
  - exists h. split; [by rewrite lookup_insert_eq|].
    unfold launch_optimized in E. destruct (launch_accepted _ _ _ _).
    + apply optimized_length in E. rewrite E, length_replicate. lia.
    + injection E as <-. rewrite length_replicate. lia.
  - exists (replicate (Z.to_nat B) 0). split; [by rewrite lookup_insert_eq|].
    rewrite length_replicate. lia.
  - by apply launch_optimized_finishes in E; [| |apply gridSize_le|].
Qed.

Lemma compute_writes_one_integer_a_bin_witness :
  exists histogram,
    files_after (solution.compute 5 v100 "/tmp" {[ "/tmp/input-4.dat" := [0; 1; 1; 5] ]}
                   "/tmp/input-4.dat" 4 2) !! solution.sol_path "/tmp"
    = Some histogram /\
    Z.of_nat (length histogram) = 2.
Proof.
  apply (compute_writes_one_integer_a_bin 5 v100 "/tmp"
           {[ "/tmp/input-4.dat" := [0; 1; 1; 5] ]} "/tmp/input-4.dat" 4 2).
  - lia.
  - lia.
  - simpl. lia.
Defined.

(** ** The launch planner on a device that admits the launch *)

(** X20. On a device that admits the launch and for [1 <= N <= INT_MAX -
    12288], the planner launches at least one block and at most two a
    multiprocessor; no block is without work, the first position of the
    last block being below [N]; one chunk of twelve samples a thread covers
    all [N] samples unless the grid is at its occupancy target; and more
    samples never give a smaller grid. *)
Theorem planner_gives_every_block_work (dev : device) (N N' : Z) :
  capable dev ->
  1 <= N <= N' -> N' <= 2147471359 ->
  let grid := solution.gridSize dev N in
  1 <= grid <= 2 * multiProcessorCount dev /\
  solution.blockSize * 12 * (grid - 1) < N /\
  (N <= solution.blockSize * 12 * grid \/ grid = 2 * multiProcessorCount dev) /\
  grid <= solution.gridSize dev N'.
Proof.
  intros [Hd Hu _ _ _] HN HN' grid. subst grid.
  assert (solution.numSMs dev = multiProcessorCount dev) as Hsm.
  { unfold solution.numSMs. by destruct (Z.ltb_spec 0 (deviceCount dev)); [|lia]. }
  unfold solution.gridSize.
  rewrite Hsm, (occupancy_target (multiProcessorCount dev)), (work_bound N), (work_bound N')
    by lia.
  unfold solution.blockSize.
  pose proof (ceil_div_spec (multiProcessorCount dev * 2048) 1024 ltac:(lia)).
  pose proof (ceil_div_spec N (1024 * 12) ltac:(lia)).
  pose proof (ceil_div_spec N' (1024 * 12) ltac:(lia)).
  destruct (Z.ltb_spec (ceil_div N (1024 * 12))
              (ceil_div (multiProcessorCount dev * 2048) 1024));
    destruct (Z.ltb_spec (ceil_div N' (1024 * 12))
                (ceil_div (multiProcessorCount dev * 2048) 1024)); lia.
Qed.

Lemma planner_witness :
  let grid := solution.gridSize v100 100000 in
  1 <= grid <= 2 * multiProcessorCount v100 /\
  solution.blockSize * 12 * (grid - 1) < 100000 /\
  (100000 <= solution.blockSize * 12 * grid \/ grid = 2 * multiProcessorCount v100) /\
  grid <= solution.gridSize v100 536870912.
Proof.
  apply (planner_gives_every_block_work v100 100000 536870912).
  - exact v100_capable.
  - lia.
  - lia.
Defined.

(** ** The harness and its files *)

Lemma first_mismatch_at (k : nat) : forall i (l1 l2 : list Z) x y,
  take k l1 = take k l2 -> l1 !! k = Some x -> l2 !! k = Some y -> x <> y ->
  tester.first_mismatch i l1 l2 = Some (i + Z.of_nat k, x, y).
Proof.
  induction k as [|k IH]; intros i [|a l1] [|b l2] x y Ht H1 H2 Hne; try done.
  - simpl in *. injection H1 as ->. injection H2 as ->.
    destruct (decide (x = y)); [done|]. do 3 f_equal. lia.
  - simpl in *. injection Ht as -> Ht. destruct (decide (b = b)); [|done].
    rewrite (IH (i + 1) l1 l2 x y) by done. do 3 f_equal. lia.
Qed.

Lemma first_mismatch_None i (l1 l2 : list Z) :
  length l1 = length l2 -> tester.first_mismatch i l1 l2 = None -> l1 = l2.
Proof.
  revert i l2. induction l1 as [|a l1 IH]; intros i [|b l2] Hl E; try done.
  simpl in *. destruct (decide (a = b)) as [->|]; [|done].
  f_equal. apply (IH (i + 1)); [lia|done].
Qed.

Lemma histogram_of_length B samples : 0 <= B -> Z.of_nat (length (histogram_of B samples)) = B.
Proof. intros HB. unfold histogram_of. rewrite length_fmap, length_seqZ. lia. Qed.

Lemma histogram_of_int_array B samples :
  Z.of_nat (length samples) <= INT_MAX -> int_array (histogram_of B samples).
Proof.
  intros Hlen. unfold histogram_of. apply Forall_fmap, Forall_forall. intros b _. simpl.
  pose proof (count_of_nonneg b samples). pose proof (count_of_le_length b samples).
  unfold in_int, INT_MIN, INT_MAX in *. lia.
Qed.

(** A run of the harness that finds both of its files. *)
Lemma harness_run_cached fuel env argv N B :
  (3 <= length argv)%nat ->
  atoi (argv !!! 1%nat) = N -> atoi (argv !!! 2%nat) = B ->
  let tmp := temp_directory_path env in
  let input_path := path_join tmp ("input-" +:+ pretty N +:+ ".dat") in
  let sol_path := path_join tmp ("sol-" +:+ pretty N +:+ "-" +:+ pretty B +:+ ".dat") in
  let expected := read_ints (files_start env !! sol_path) B in
  let got := histogram_of B (read_ints (files_start env !! input_path) N) in
  let out := ["[1/4] Looking for input file";
              "	- Input file: " +:+ input_path +:+ " found, using existing input file";
              "[2/4] Looking for verification file " +:+ sol_path;
              "[3/4] Verification file found, using existing verification data";
              "[4/4] Running student solution"] in
  let fs := <[solution.sol_path tmp := got]>
              (<[solution.sol_path tmp := []]> (files_start env)) in
  capable (the_device env) ->
  0 <= N <= 1073735679 -> 0 <= B -> B * 4 <= sharedMemPerBlock (the_device env) ->
  is_Some (files_start env !! input_path) ->
  is_Some (files_start env !! sol_path) ->
  (Z.to_nat (Z.max N B) <= fuel)%nat ->
  tester.main fuel env argv
  = match tester.first_mismatch 0 expected got with
    | Some (i, x, y) =>
        __terminate_gracefully
          ("Histogram mismatch at bin " +:+ pretty i +:+ ": expected " +:+ pretty x
             +:+ ", got " +:+ pretty y) out [] fs
    | None =>
        {| exit_status := Exit EXIT_SUCCESS;
           stdout := out ++ ["Execution time: " +:+ pretty (elapsed_ms env) +:+ " ms"];
           stderr := [];
           files_end := delete (solution.sol_path tmp) fs |}
    end.
Proof.
  intros Hargc HN HB tmp input_path sol_path expected got out fs Hcap HNr HBr Hfoot Hin Hsol Hf.
  assert (input_path <> solution.sol_path tmp) as Hne2.
  { intros E%path_join_inj. discriminate E. }
  assert (sol_path <> solution.sol_path tmp) as Hne3.
  { intros E%path_join_inj. discriminate E. }
  unfold tester.main. rewrite HN, HB. cbv zeta.
  fold tmp. fold input_path. fold sol_path.
  destruct (Z.ltb_spec (Z.of_nat (length argv)) 3); [lia|].
  destruct (Z.ltb_spec N 0); [lia|].
  rewrite (bool_decide_eq_true_2 (is_Some (files_start env !! input_path))) by done.
  cbn [negb andb].
  rewrite (bool_decide_eq_true_2 (is_Some (files_start env !! sol_path))) by done.
  cbn [negb andb].
  rewrite compute_histogram; [|first [done|lia]..].
  cbn [result files_after].
  destruct (Z.ltb_spec B 0); [lia|].
  fold got. fold fs.
  assert (fs !! sol_path = files_start env !! sol_path) as ->.
  { unfold fs. by rewrite !lookup_insert_ne by done. }
  assert (fs !! solution.sol_path tmp = Some got) as ->.
  { unfold fs. apply lookup_insert_eq. }
  rewrite (read_ints_exact got).
  - fold expected. reflexivity.
  - by apply histogram_of_length.
  - apply histogram_of_int_array. rewrite read_ints_length by lia. unfold INT_MAX. lia.
Qed.

(** X21. With a cached input file and a cached reference file the harness
    is an exact check of [compute] against the reference file, which it
    takes as it is.  The run exits with code 0; it is a success exactly when
    the [B] integers of the reference file are the histogram of the [N]
    integers of the input file, and then the engine's output file is
    removed; otherwise the diagnostic names the first bin at which the two
    differ, with the value expected and the value got, the last line on
    standard output is [-1], and the engine's output file is left behind. *)
Theorem harness_compares_with_the_cached_reference
    (fuel : nat) (env : environment) (argv : list string) (N B : Z) :
  (3 <= length argv)%nat ->
  atoi (argv !!! 1%nat) = N -> atoi (argv !!! 2%nat) = B ->
  let tmp := temp_directory_path env in
  let input_path := path_join tmp ("input-" +:+ pretty N +:+ ".dat") in
  let sol_path := path_join tmp ("sol-" +:+ pretty N +:+ "-" +:+ pretty B +:+ ".dat") in
  let expected := read_ints (files_start env !! sol_path) B in
  let got := histogram_of B (read_ints (files_start env !! input_path) N) in
  capable (the_device env) ->
  0 <= N <= 1073735679 -> 0 <= B -> B * 4 <= sharedMemPerBlock (the_device env) ->
  is_Some (files_start env !! input_path) ->
  is_Some (files_start env !! sol_path) ->
  (Z.to_nat (Z.max N B) <= fuel)%nat ->
  let e := tester.main fuel env argv in
  exit_status e = Exit 0 /\
  (success env e <-> expected = got) /\
  (expected = got -> files_end e !! solution.sol_path tmp = None) /\
  (forall (k : nat) x y,
     take k expected = take k got ->
     expected !! k = Some x -> got !! k = Some y -> x <> y ->
     last (stdout e) = Some "-1" /\
     stderr e = ["Histogram mismatch at bin " +:+ pretty (Z.of_nat k) +:+ ": expected "
                   +:+ pretty x +:+ ", got " +:+ pretty y] /\
     files_end e !! solution.sol_path tmp = Some got).
Proof.
  intros Hargc HN HB tmp input_path sol_path expected got Hcap HNr HBr Hfoot Hin Hsol Hf e.
  subst e. rewrite (harness_run_cached fuel env argv N B) by done.
  fold tmp input_path sol_path expected got.
  assert (length expected = length got) as Hlen.
  { apply Nat2Z.inj. unfold expected, got.
    by rewrite read_ints_length, histogram_of_length by lia. }
  destruct (tester.first_mismatch 0 expected got) as [[[i x] y]|] eqn:E.
  - assert (expected <> got) as Hne.
    { intros Heq. rewrite Heq, first_mismatch_same in E. done. }
    cbn [__terminate_gracefully exit_status stdout stderr files_end].
    split; [done|]. split; [|split].
    + split; [|done]. by intros [_ ?].
    + done.
    + intros k x' y' Ht Hx Hy Hxy.
      rewrite (first_mismatch_at k 0 expected got x' y' Ht Hx Hy Hxy) in E.
      injection E as <- <- <-. rewrite Z.add_0_l.
      split; [apply last_snoc|]. split; [done|]. apply lookup_insert_eq.
  - apply first_mismatch_None in E; [|done].
    cbn [exit_status stdout stderr files_end].
    split; [done|]. split; [|split].
    + split; [done|]. intros _. split; [apply last_snoc|done].
    + intros _. apply lookup_delete_eq.
    + intros k x' y' _ Hx Hy Hxy. rewrite E in Hx. congruence.
Qed.

Lemma harness_verdict_witness :
  let env := lab_with_cached_files in
  let expected :=
    read_ints (files_start env !!
                 path_join "/tmp" ("sol-" +:+ pretty 4 +:+ "-" +:+ pretty 2 +:+ ".dat")) 2 in
  let got :=
    histogram_of 2
      (read_ints (files_start env !! path_join "/tmp" ("input-" +:+ pretty 4 +:+ ".dat")) 4) in
  let e := tester.main 4 env ["./tester"; "4"; "2"] in
  exit_status e = Exit 0 /\
  (success env e <-> expected = got) /\
  (expected = got -> files_end e !! solution.sol_path "/tmp" = None) /\
  (forall (k : nat) x y,
     take k expected = take k got ->
     expected !! k = Some x -> got !! k = Some y -> x <> y ->
     last (stdout e) = Some "-1" /\
     stderr e = ["Histogram mismatch at bin " +:+ pretty (Z.of_nat k) +:+ ": expected "
                   +:+ pretty x +:+ ", got " +:+ pretty y] /\
     files_end e !! solution.sol_path "/tmp" = Some got).
Proof.
  apply (harness_compares_with_the_cached_reference 4 lab_with_cached_files
           ["./tester"; "4"; "2"] 4 2).
  - simpl. lia.
  - reflexivity.
  - reflexivity.
  - exact v100_capable.
  - lia.
  - lia.
  - simpl. lia.
  - exists [0; 1; 1; 0]. vm_compute. reflexivity.
  - exists [2; 2]. vm_compute. reflexivity.
  - simpl. lia.
Defined.

(** X22. A second run finds what the first left.  After a run that started
    without cached files and was accepted, a run with the same [N] and [B],
    whatever its seed, finds the input file and the reference file of the
    first, is accepted too, and leaves the files as the first run left
    them. *)
Theorem second_run_is_accepted_and_changes_no_file
    (fuel : nat) (env env2 : environment) (argv argv2 : list string) (N B : Z) :
  (3 <= length argv)%nat ->
  atoi (argv !!! 1%nat) = N -> atoi (argv !!! 2%nat) = B ->
  let seed := if (3 <? Z.of_nat (length argv)) then atoi (argv !!! 3%nat)
              else random_device env in
  let tmp := temp_directory_path env in
  let input_path := path_join tmp ("input-" +:+ pretty N +:+ ".dat") in
  let sol_path := path_join tmp ("sol-" +:+ pretty N +:+ "-" +:+ pretty B +:+ ".dat") in
  capable (the_device env) ->
  0 <= N <= 1073735679 -> 1 <= B -> B * 4 <= sharedMemPerBlock (the_device env) ->
  files_start env !! input_path = None ->
  files_start env !! sol_path = None ->
  (forall i, 0 <= i < N -> 0 <= random_value env seed B i < B) ->
  (Z.to_nat (Z.max N B) <= fuel)%nat ->
  let e := tester.main fuel env argv in
  (3 <= length argv2)%nat ->
  atoi (argv2 !!! 1%nat) = N -> atoi (argv2 !!! 2%nat) = B ->
  temp_directory_path env2 = tmp ->
  the_device env2 = the_device env ->
  files_start env2 = files_end e ->
  let e2 := tester.main fuel env2 argv2 in
  exit_status e2 = Exit 0 /\ success env2 e2 /\ files_end e2 = files_end e.
Proof.
  intros Hargc HN HB seed tmp input_path sol_path Hcap HNr HBr Hfoot Hin Hsol Hgen Hf e
    Hargc2 HN2 HB2 Htmp Hdev Hfs e2.
  assert (input_path <> sol_path) as Hne1.
  { intros E%path_join_inj. discriminate E. }
  assert (input_path <> solution.sol_path tmp) as Hne2.
  { intros E%path_join_inj. discriminate E. }
  assert (sol_path <> solution.sol_path tmp) as Hne3.
  { intros E%path_join_inj. discriminate E. }
  set (samples := random_value env seed B <$> seqZ 0 N).
  assert (Z.of_nat (length samples) = N) as Hlen.
  { unfold samples. rewrite length_fmap, length_seqZ. lia. }
  assert (int_array samples) as Hint.
  { unfold samples. apply Forall_fmap, Forall_forall. intros i Hi%elem_of_seqZ. simpl.
    pose proof (Hgen i ltac:(lia)). destruct Hcap. unfold in_int, INT_MIN, INT_MAX in *. lia. }
  assert (files_end e
          = delete (solution.sol_path tmp)
              (<[sol_path := histogram_of B samples]>
                 (<[input_path := samples]> (files_start env)))) as He.
  { subst e. rewrite (harness_run fuel env argv N B) by first [done|lia].
    cbn [files_end]. fold tmp input_path sol_path seed. fold samples.
    by rewrite !delete_insert_eq. }
  assert (files_start env2 !! input_path = Some samples) as Hin2.
  { rewrite Hfs, He. rewrite lookup_delete_ne, lookup_insert_ne by done.
    apply lookup_insert_eq. }
  assert (files_start env2 !! sol_path = Some (histogram_of B samples)) as Hsol2.
  { rewrite Hfs, He. rewrite lookup_delete_ne by done. apply lookup_insert_eq. }
  subst e2. rewrite (harness_run_cached fuel env2 argv2 N B);
    rewrite ?Htmp, ?Hdev; fold tmp input_path sol_path;
    rewrite ?Hin2, ?Hsol2; try done; try lia.
  rewrite (read_ints_exact samples N Hlen Hint).
  rewrite (read_ints_exact (histogram_of B samples) B);
    [|apply histogram_of_length; lia|apply histogram_of_int_array; unfold INT_MAX; lia].
  rewrite first_mismatch_same. cbn [exit_status stdout stderr files_end].
  split; [done|]. split; [split; [apply last_snoc|done]|].
  rewrite !delete_insert_eq, Hfs, He. apply delete_delete_eq.
Qed.

Lemma second_run_witness :
  let e := tester.main 4 lab ["./tester"; "4"; "2"; "111"] in
  let env2 :=
    {| temp_directory_path := "/tmp";
       files_start := files_end e;
       random_device := 0;
       random_value := fun _ _ _ => 0;
       the_device := v100;
       elapsed_ms := 5 |} in
  let e2 := tester.main 4 env2 ["./tester"; "4"; "2"] in
  exit_status e2 = Exit 0 /\ success env2 e2 /\ files_end e2 = files_end e.
Proof.
  apply (second_run_is_accepted_and_changes_no_file 4 lab
           {| temp_directory_path := "/tmp";
              files_start := files_end (tester.main 4 lab ["./tester"; "4"; "2"; "111"]);
              random_device := 0;
              random_value := fun _ _ _ => 0;
              the_device := v100;
              elapsed_ms := 5 |}
           ["./tester"; "4"; "2"; "111"] ["./tester"; "4"; "2"] 4 2).
  - simpl. lia.
  - reflexivity.
  - reflexivity.
  - exact v100_capable.
  - lia.
  - lia.
  - simpl. lia.
  - reflexivity.
  - reflexivity.
  - intros i Hi. apply Z.mod_pos_bound. lia.
  - simpl. lia.
  - simpl. lia.
  - reflexivity.
  - reflexivity.
  - reflexivity.
  - reflexivity.
  - reflexivity.
Defined.

(** X23. With a cached input file the seed has no effect: the random
    generator is seeded (line 30) but never asked for a value (lines 45-49),
    so a run with any other seed argument, no seed argument, or another
    random device ends the same way in every respect. *)
Theorem cached_input_makes_the_seed_irrelevant
    (fuel : nat) (env : environment) (prog prog' n b : string) (rest rest' : list string)
    (rd : Z) (rv : Z -> Z -> Z -> Z) :
  is_Some (files_start env !!
             path_join (temp_directory_path env) ("input-" +:+ pretty (atoi n) +:+ ".dat")) ->
  tester.main fuel env (prog :: n :: b :: rest)
  = tester.main fuel
      {| temp_directory_path := temp_directory_path env;
         files_start := files_start env;
         random_device := rd;
         random_value := rv;
         the_device := the_device env;
         elapsed_ms := elapsed_ms env |}
      (prog' :: n :: b :: rest').
Proof.
  intros Hcached. unfold tester.main.
  cbn [length lookup_total list_lookup_total temp_directory_path files_start the_device
       elapsed_ms].
  destruct (Z.ltb_spec (Z.of_nat (S (S (S (length rest))))) 3); [lia|].
  destruct (Z.ltb_spec (Z.of_nat (S (S (S (length rest'))))) 3); [lia|].
  cbv zeta. destruct (atoi n <? 0); [done|].
  rewrite (bool_decide_eq_true_2 _ Hcached). cbn [negb andb]. reflexivity.
Qed.

Lemma seed_irrelevant_witness :
  tester.main 5 lab_with_cached_files ["./tester"; "4"; "2"]
  = tester.main 5
      {| temp_directory_path := temp_directory_path lab_with_cached_files;
         files_start := files_start lab_with_cached_files;
         random_device := 99;
         random_value := fun _ _ _ => 1;
         the_device := the_device lab_with_cached_files;
         elapsed_ms := elapsed_ms lab_with_cached_files |}
      ["./tester.out"; "4"; "2"; "111"].
Proof.
  apply (cached_input_makes_the_seed_irrelevant 5 lab_with_cached_files
           "./tester" "./tester.out" "4" "2" [] ["111"] 99 (fun _ _ _ => 1)).
  exists [0; 1; 1; 0]. vm_compute. reflexivity.
Defined.

(** [compute] changes no file but its output file, and returns no other
    path. *)
Lemma compute_frame fuel dev tmp (fs : files) input_path N B p :
  p <> solution.sol_path tmp ->
  files_after (solution.compute fuel dev tmp fs input_path N B) !! p = fs !! p.
Proof.
  intros Hp. unfold solution.compute.
  destruct (N <? 0); [cbn [files_after]; by rewrite lookup_insert_ne|].
  destruct (B <? 0); [cbn [files_after]; by rewrite lookup_insert_ne|].
  destruct (launch_optimized _ _ _ _ _ _ _ _ _); cbn [files_after];
    by rewrite !lookup_insert_ne.
Qed.

Lemma compute_result_path fuel dev tmp (fs : files) input_path N B path :
  result (solution.compute fuel dev tmp fs input_path N B) = Returned path ->
  path = solution.sol_path tmp.
Proof.
  unfold solution.compute. destruct (N <? 0); [done|]. destruct (B <? 0); [done|].
  destruct (launch_optimized _ _ _ _ _ _ _ _ _); cbn [result]; congruence.
Qed.

(** The files a run ends with: those it starts with, an input file and a
    reference file where there was none, and what [compute] does to them,
    with its output file removed at the end of a run that is accepted. *)
Lemma main_files fuel env argv (Q : files -> Prop) :
  let N := atoi (argv !!! 1%nat) in
  let B := atoi (argv !!! 2%nat) in
  let tmp := temp_directory_path env in
  let input_path := path_join tmp ("input-" +:+ pretty N +:+ ".dat") in
  let sol_path := path_join tmp ("sol-" +:+ pretty N +:+ "-" +:+ pretty B +:+ ".dat") in
  Q (files_start env) ->
  (forall fs data, files_start env !! input_path = None -> Q fs -> Q (<[input_path := data]> fs)) ->
  (forall fs h, files_start env !! sol_path = None -> Q fs -> Q (<[sol_path := h]> fs)) ->
  (forall fs, Q fs ->
     Q (files_after (solution.compute fuel (the_device env) tmp fs input_path N B))) ->
  (forall fs, Q fs -> Q (delete (solution.sol_path tmp) fs)) ->
  Q (files_end (tester.main fuel env argv)).
Proof.
  intros N B tmp input_path sol_path H0 Hinput Href Hcompute Hremove.
  unfold tester.main. cbv zeta. fold N B tmp input_path sol_path.
  assert (input_path <> sol_path) as Hne.
  { intros E%path_join_inj. discriminate E. }
  destruct (_ <? 3); [done|]. destruct (N <? 0); [done|].
  set (data := if bool_decide _ then read_ints _ _ else _).
  set (fs1 := if bool_decide (is_Some (files_start env !! input_path))
              then files_start env else <[input_path := data]> (files_start env)).
  assert (Q fs1) as H1.
  { unfold fs1. destruct (bool_decide _) eqn:E; [done|].
    apply Hinput; [|done]. apply bool_decide_eq_false in E. by apply eq_None_not_Some. }
  assert (fs1 !! sol_path = files_start env !! sol_path) as Hsol.
  { unfold fs1. destruct (bool_decide _); [done|]. by rewrite lookup_insert_ne. }
  destruct (negb _ && (0 <? N) && (B <=? 0)); [done|].
  fold fs1. rewrite Hsol.
  destruct (bool_decide (is_Some (files_start env !! sol_path))) eqn:Ecached; cbn [negb andb].
  - destruct (result _) as [path| |] eqn:Er; cbn [files_end]; [|by apply Hcompute..].
    apply compute_result_path in Er as ->.
    destruct (B <? 0); [by apply Hcompute|].
    destruct (tester.first_mismatch _ _ _) as [[[i x] y]|]; cbn [files_end];
      [|apply Hremove]; by apply Hcompute.
  - apply bool_decide_eq_false in Ecached. apply eq_None_not_Some in Ecached.
    destruct (B <? 0); [done|].
    destruct (tester.reference_histogram data N B) as [h| |]; rewrite ?bind_Done; [|done..].
    destruct (result _) as [path| |] eqn:Er; cbn [files_end];
      [|by apply Hcompute, Href..].
    apply compute_result_path in Er as ->.
    destruct (tester.first_mismatch _ _ _) as [[[i x] y]|]; cbn [files_end];
      [|apply Hremove]; by apply Hcompute, Href.
Qed.

(** X24. The harness touches only its own files.  However a run ends, and
    whatever the fuel, a file other than the engine's output file holds at
    the end what it held at the start, unless it is the input file or the
    reference file of the run and did not exist: a cached input file and a
    cached reference file are never rewritten, and no other file is created,
    changed or removed. *)
Theorem harness_touches_only_its_own_files
    (fuel : nat) (env : environment) (argv : list string) (path : string) :
  let N := atoi (argv !!! 1%nat) in
  let B := atoi (argv !!! 2%nat) in
  let tmp := temp_directory_path env in
  let input_path := path_join tmp ("input-" +:+ pretty N +:+ ".dat") in
  let sol_path := path_join tmp ("sol-" +:+ pretty N +:+ "-" +:+ pretty B +:+ ".dat") in
  path <> solution.sol_path tmp ->
  (path = input_path -> is_Some (files_start env !! input_path)) ->
  (path = sol_path -> is_Some (files_start env !! sol_path)) ->
  files_end (tester.main fuel env argv) !! path = files_start env !! path.
Proof.
  intros N B tmp input_path sol_path Hstudent Hin Hsol.
  apply (main_files fuel env argv (fun fs => fs !! path = files_start env !! path)).
  - done.
  - fold N tmp input_path. intros fs data Hnone Hfs.
    rewrite lookup_insert_ne; [done|]. intros <-. destruct (Hin eq_refl) as [? E]. congruence.
  - fold N B tmp sol_path. intros fs h Hnone Hfs.
    rewrite lookup_insert_ne; [done|]. intros <-. destruct (Hsol eq_refl) as [? E]. congruence.
  - intros fs Hfs. by rewrite compute_frame.
  - intros fs Hfs. by rewrite lookup_delete_ne.
Qed.

Lemma harness_files_witness :
  files_end (tester.main 4 lab_with_cached_files ["./tester"; "4"; "2"]) !! "/tmp/input-4.dat"
  = files_start lab_with_cached_files !! "/tmp/input-4.dat".
Proof.
  apply (harness_touches_only_its_own_files 4 lab_with_cached_files
           ["./tester"; "4"; "2"] "/tmp/input-4.dat").
  - discriminate.
  - intros _. exists [0; 1; 1; 0]. vm_compute. reflexivity.
  - intros E. vm_compute in E. discriminate E.
Defined.

(** X25. Negative sizes are reported, not run: with [N < 0], or with
    [B < 0] when no sample has to be drawn ([N = 0], or the input file is
    cached), the run ends through the handler of line 111 with exit code 0,
    [-1] as the last line on standard output and the message of
    [std::bad_array_new_length] on standard error, whether the exception is
    thrown by the harness (lines 44 and 69) or by [compute] (lines 125 and
    130). *)
Theorem harness_reports_a_negative_size
    (fuel : nat) (env : environment) (argv : list string) :
  let N := atoi (argv !!! 1%nat) in
  let B := atoi (argv !!! 2%nat) in
  let input_path := path_join (temp_directory_path env) ("input-" +:+ pretty N +:+ ".dat") in
  (3 <= length argv)%nat ->
  N < 0 \/ (B < 0 /\ (N = 0 \/ is_Some (files_start env !! input_path))) ->
  let e := tester.main fuel env argv in
  exit_status e = Exit 0 /\
  last (stdout e) = Some "-1" /\
  stderr e = ["std::bad_array_new_length"].
Proof.
  intros N B input_path Hargc Hneg e. subst e.
  unfold tester.main. cbv zeta. fold N B. fold input_path.
  destruct (Z.ltb_spec (Z.of_nat (length argv)) 3); [lia|].
  destruct (Z.ltb_spec N 0) as [|HN].
  { unfold __terminate_gracefully; cbn [result exit_status stdout stderr].
    by rewrite last_snoc. }
  destruct Hneg as [?|[HB Hdef]]; [lia|].
  assert (negb (bool_decide (is_Some (files_start env !! input_path))) && (0 <? N) = false)
    as ->.
  { destruct Hdef as [->|Hc]; [by rewrite andb_false_r|].
    by rewrite (bool_decide_eq_true_2 _ Hc). }
  cbn [andb].
  destruct (Z.ltb_spec B 0); [|lia]. rewrite andb_true_r.
  destruct (bool_decide (is_Some (_ !! path_join _ ("sol-" +:+ _)))); cbn [negb].
  - unfold solution.compute.
    destruct (Z.ltb_spec N 0); [lia|]. destruct (Z.ltb_spec B 0); [|lia].
    unfold __terminate_gracefully; cbn [result exit_status stdout stderr].
    by rewrite last_snoc.
  - unfold __terminate_gracefully; cbn [result exit_status stdout stderr].
    by rewrite last_snoc.
Qed.

Lemma negative_size_witness :
  let e := tester.main 0 lab_with_cached_files ["./tester"; "4"; "-2"] in
  exit_status e = Exit 0 /\
  last (stdout e) = Some "-1" /\
  stderr e = ["std::bad_array_new_length"].
Proof.
  apply (harness_reports_a_negative_size 0 lab_with_cached_files ["./tester"; "4"; "-2"]).
  - simpl. lia.
  - right. split; [vm_compute; reflexivity|].
    right. exists [0; 1; 1; 0]. vm_compute. reflexivity.
Defined.

(** ** The names of the cached files *)

Lemma pretty_N_char_digit x : is_Some (digit_of (pretty_N_char x)).
Proof. unfold pretty_N_char. repeat case_match; by eexists. Qed.

Lemma pretty_N_go_digits x : forall s, all_digits s = true -> all_digits (pretty_N_go x s) = true.
Proof.
  induction (N.lt_wf_0 x) as [x _ IH]; intros s Hs.
  destruct (N.eq_0_gt_0_cases x) as [->|Hx]; [by rewrite pretty_N_go_0|].
  rewrite pretty_N_go_step by done. apply IH; [by apply N.div_lt|].
  simpl. by destruct (pretty_N_char_digit (x `mod` 10)) as [d ->].
Qed.

Lemma pretty_N_go_nonempty x : forall s, pretty_N_go x s = "" -> s = "".
Proof.
  induction (N.lt_wf_0 x) as [x _ IH]; intros s E.
  destruct (N.eq_0_gt_0_cases x) as [->|Hx]; [by rewrite pretty_N_go_0 in E|].
  rewrite pretty_N_go_step in E by done. apply IH in E; [discriminate E|by apply N.div_lt].
Qed.

(** [std::to_string] of a natural number: digits, and at least one. *)
Lemma pretty_N_digits (x : N) : all_digits (pretty x) = true /\ pretty x <> "".
Proof.
  unfold pretty, pretty_N. destruct (decide (x = 0%N)); [done|].
  split; [by apply pretty_N_go_digits|]. intros E.
  rewrite pretty_N_go_step in E by lia. apply pretty_N_go_nonempty in E. discriminate E.
Qed.

(** Digits up to a character that is no digit: where the digits end is
    determined. *)
Lemma digits_then (c : ascii) : forall s s' r r',
  digit_of c = None ->
  all_digits s = true -> all_digits s' = true ->
  s +:+ String c r = s' +:+ String c r' -> s = s' /\ r = r'.
Proof.
  intros s s' r r' Hc. revert s'.
  induction s as [|a s IH]; intros [|a' s'] Hs Hs' E; simpl in *.
  - by injection E as ->.
  - injection E as <- _. by rewrite Hc in Hs'.
  - injection E as -> _. by rewrite Hc in Hs.
  - injection E as -> E.
    destruct (digit_of a'); [|done]. destruct (IH s' Hs Hs' E) as [-> ->]. done.
Qed.

(** A number as [std::to_string] writes it, up to a character that is no
    digit. *)
Lemma pretty_then (c : ascii) (z z' : Z) r r' :
  digit_of c = None ->
  pretty z +:+ String c r = pretty z' +:+ String c r' -> z = z' /\ r = r'.
Proof.
  intros Hc E.
  assert (forall x : N, exists a rest, pretty x = String a rest /\ is_Some (digit_of a) /\
                                       all_digits (pretty x) = true) as Hdig.
  { intros x. destruct (pretty_N_digits x) as [Hd Hne].
    destruct (pretty x) as [|a rest] eqn:Ex; [done|]. exists a, rest.
    split; [done|]. split; [|done]. simpl in Hd. by destruct (digit_of a). }
  assert (forall z : Z, 0 <= z -> exists x : N, pretty z = pretty x) as Hpos.
  { intros [|p|p] Hz; [by exists 0%N|by exists (N.pos p)|lia]. }
  assert (forall z : Z, z < 0 -> exists x : N, pretty z = "-" +:+ pretty x) as Hneg.
  { intros [|p|p] Hz; [lia|lia|by exists (N.pos p)]. }
  destruct (Z.lt_ge_cases z 0) as [Hz|Hz]; destruct (Z.lt_ge_cases z' 0) as [Hz'|Hz'].
  - destruct (Hneg z Hz) as [x Ex]. destruct (Hneg z' Hz') as [x' Ex'].
    rewrite Ex, Ex' in E. simpl in E. injection E as E.
    destruct (Hdig x) as (_ & _ & _ & _ & Hd). destruct (Hdig x') as (_ & _ & _ & _ & Hd').
    destruct (digits_then c _ _ _ _ Hc Hd Hd' E) as [Es ->]. split; [|done].
    apply (inj pretty). by rewrite Ex, Ex', Es.
  - destruct (Hneg z Hz) as [x Ex]. destruct (Hpos z' ltac:(lia)) as [x' Ex'].
    rewrite Ex, Ex' in E. destruct (Hdig x') as (a & rest & Ea & [d Hda] & _).
    rewrite Ea in E. simpl in E. injection E as <- _. done.
  - destruct (Hpos z ltac:(lia)) as [x Ex]. destruct (Hneg z' Hz') as [x' Ex'].
    rewrite Ex, Ex' in E. destruct (Hdig x) as (a & rest & Ea & [d Hda] & _).
    rewrite Ea in E. simpl in E. injection E as -> _. done.
  - destruct (Hpos z ltac:(lia)) as [x Ex]. destruct (Hpos z' ltac:(lia)) as [x' Ex'].
    rewrite Ex, Ex' in E.
    destruct (Hdig x) as (_ & _ & _ & _ & Hd). destruct (Hdig x') as (_ & _ & _ & _ & Hd').
    destruct (digits_then c _ _ _ _ Hc Hd Hd' E) as [Es ->]. split; [|done].
    apply (inj pretty). by rewrite Ex, Ex', Es.
Qed.

(** X26. The cached files are named apart.  Input files of different [N]
    have different names, and so have reference files that differ in [N] or
    in [B] (the dash between the two numbers cannot be read as part of
    either); and no input file, reference file and output file of the engine
    share a name. *)
Theorem cached_files_are_named_apart (tmp : string) (N B N' B' : Z) :
  let input_file n := path_join tmp ("input-" +:+ pretty n +:+ ".dat") in
  let reference_file n b :=
    path_join tmp ("sol-" +:+ pretty n +:+ "-" +:+ pretty b +:+ ".dat") in
  (input_file N = input_file N' -> N = N') /\
  (reference_file N B = reference_file N' B' -> N = N' /\ B = B') /\
  input_file N <> reference_file N' B' /\
  input_file N <> solution.sol_path tmp /\
  reference_file N B <> solution.sol_path tmp.
Proof.
  intros input_file reference_file. unfold input_file, reference_file.
  split; [|split; [|split; [|split]]].
  - intros E%path_join_inj. apply (inj (String.append "input-")) in E.
    by destruct (pretty_then "." N N' "dat" "dat" eq_refl E).
  - intros E%path_join_inj. apply (inj (String.append "sol-")) in E.
    destruct (pretty_then "-" N N' _ _ eq_refl E) as [-> E'].
    by destruct (pretty_then "." B B' "dat" "dat" eq_refl E').
  - intros E%path_join_inj. discriminate E.
  - intros E%path_join_inj. discriminate E.
  - intros E%path_join_inj. discriminate E.
Qed.

(** ** The input cache and the bin count *)

(** The reference counter of the harness has no range check either. *)
Lemma reference_histogram_fault (input_data : list Z) (N B : Z) (p : nat) v :
  Z.of_nat (length input_data) = N -> 0 <= B ->
  input_data !! p = Some v -> ~ 0 <= v < B ->
  tester.reference_histogram input_data N B = Fault.
Proof.
  intros HN HB Hv Hout. unfold tester.reference_histogram.
  pose proof (lookup_lt_Some _ _ _ Hv) as Hp.
  apply (foldM_reaches_fault (fun h => length h = Z.to_nat B) _ _ (Z.of_nat p));
    [apply elem_of_seqZ; lia| | |by rewrite length_replicate].
  - intros i h _ Hh. rewrite <- Hh.
    eapply ends_within_bind; [apply load_ends_within|].
    intros v' _. apply (atomicAdd_ends_within h v' 1).
  - intros h Hh. rewrite (load_Done input_data (Z.of_nat p) v) by (rewrite ?Nat2Z.id; done || lia).
    rewrite bind_Done. destruct (Z.lt_ge_cases v 0).
    + by rewrite load_negative.
    + apply (atomicAdd_Fault h v 1). lia.
Qed.

(** A run that finds its input file but no reference file, with samples
    that are all bins. *)
Lemma harness_run_cached_input fuel env argv N B :
  (3 <= length argv)%nat ->
  atoi (argv !!! 1%nat) = N -> atoi (argv !!! 2%nat) = B ->
  let tmp := temp_directory_path env in
  let input_path := path_join tmp ("input-" +:+ pretty N +:+ ".dat") in
  let sol_path := path_join tmp ("sol-" +:+ pretty N +:+ "-" +:+ pretty B +:+ ".dat") in
  let samples := read_ints (files_start env !! input_path) N in
  capable (the_device env) ->
  0 <= N <= 1073735679 -> 0 <= B -> B * 4 <= sharedMemPerBlock (the_device env) ->
  is_Some (files_start env !! input_path) ->
  files_start env !! sol_path = None ->
  Forall (fun v => 0 <= v < B) samples ->
  (Z.to_nat (Z.max N B) <= fuel)%nat ->
  tester.main fuel env argv
  = {| exit_status := Exit 0;
       stdout := ["[1/4] Looking for input file";
                  "	- Input file: " +:+ input_path +:+ " found, using existing input file";
                  "[2/4] Looking for verification file " +:+ sol_path;
                  "[3/4] Verification file not found. Creating new verification data";
                  "[4/4] Running student solution";
                  "Execution time: " +:+ pretty (elapsed_ms env) +:+ " ms"];
       stderr := [];
       files_end :=
         delete (solution.sol_path tmp)
           (<[solution.sol_path tmp := histogram_of B samples]>
              (<[solution.sol_path tmp := []]>
                 (<[sol_path := histogram_of B samples]> (files_start env)))) |}.
Proof.
  intros Hargc HN HB tmp input_path sol_path samples Hcap HNr HBr Hfoot Hin Hsol Hrange Hf.
  assert (input_path <> sol_path) as Hne1.
  { intros E%path_join_inj. discriminate E. }
  assert (input_path <> solution.sol_path tmp) as Hne2.
  { intros E%path_join_inj. discriminate E. }
  assert (sol_path <> solution.sol_path tmp) as Hne3.
  { intros E%path_join_inj. discriminate E. }
  assert (Z.of_nat (length samples) = N) as Hlen by (apply read_ints_length; lia).
  unfold tester.main. rewrite HN, HB. cbv zeta.
  fold tmp. fold input_path. fold sol_path.
  destruct (Z.ltb_spec (Z.of_nat (length argv)) 3); [lia|].
  destruct (Z.ltb_spec N 0); [lia|].
  rewrite (bool_decide_eq_true_2 (is_Some (files_start env !! input_path))) by done.
  cbn [negb andb]. fold samples.
  rewrite (bool_decide_eq_false_2 (is_Some (files_start env !! sol_path)))
    by (rewrite Hsol; apply is_Some_None).
  destruct (Z.ltb_spec B 0); [lia|]. cbn [negb andb].
  rewrite reference_histogram_spec; [|done|unfold INT_MAX; lia|lia|done].
  rewrite bind_Done.
  rewrite compute_histogram; [|first [done|lia]..].
  cbn [result files_after].
  rewrite (lookup_insert_ne _ sol_path input_path) by done. fold samples.
  rewrite lookup_insert_eq.
  rewrite !(lookup_insert_ne _ (solution.sol_path tmp) sol_path) by done.
  rewrite lookup_insert_eq.
  rewrite (read_ints_exact (histogram_of B samples) B);
    [|apply histogram_of_length; lia|apply histogram_of_int_array; unfold INT_MAX; lia].
  rewrite first_mismatch_same. reflexivity.
Qed.

(** X27. The input cache is keyed by [N] alone: a run finds the samples an
    earlier run left for the same [N], whatever bin count they were drawn
    for.  When they all lie in [[0, B)] and there is no reference file for
    [N] and [B] yet, the run counts them into a new reference file and is
    accepted.  When one of them does not (after a run with a larger bin
    count, say) the reference counter of the harness, line 74, indexes its
    histogram with it: the run is undefined behaviour, not a handled
    failure. *)
Theorem input_cache_is_keyed_by_N_alone
    (fuel : nat) (env : environment) (argv : list string) (N B : Z) :
  (3 <= length argv)%nat ->
  atoi (argv !!! 1%nat) = N -> atoi (argv !!! 2%nat) = B ->
  let tmp := temp_directory_path env in
  let input_path := path_join tmp ("input-" +:+ pretty N +:+ ".dat") in
  let sol_path := path_join tmp ("sol-" +:+ pretty N +:+ "-" +:+ pretty B +:+ ".dat") in
  let samples := read_ints (files_start env !! input_path) N in
  capable (the_device env) ->
  0 <= N <= 1073735679 -> 0 <= B -> B * 4 <= sharedMemPerBlock (the_device env) ->
  is_Some (files_start env !! input_path) ->
  files_start env !! sol_path = None ->
  (Z.to_nat (Z.max N B) <= fuel)%nat ->
  let e := tester.main fuel env argv in
  if decide (Forall (fun v => 0 <= v < B) samples)
  then exit_status e = Exit 0 /\ success env e /\
       files_end e !! sol_path = Some (histogram_of B samples)
  else exit_status e = Crash.
Proof.
  intros Hargc HN HB tmp input_path sol_path samples Hcap HNr HBr Hfoot Hin Hsol Hf e.
  assert (sol_path <> solution.sol_path tmp) as Hne3.
  { intros E%path_join_inj. discriminate E. }
  destruct (decide _) as [Hrange|Hout].
  - subst e. rewrite (harness_run_cached_input fuel env argv N B) by done.
    fold tmp input_path sol_path samples. cbn [exit_status stdout stderr files_end].
    split; [done|]. split; [by split|].
    rewrite lookup_delete_ne by done.
    rewrite !(lookup_insert_ne _ (solution.sol_path tmp)) by done.
    apply lookup_insert_eq.
  - apply not_Forall_Exists in Hout; [|intros v; apply _].
    apply Exists_exists in Hout as (v & Hv & Hbad).
    apply list_elem_of_lookup in Hv as [p Hp].
    subst e. unfold tester.main. rewrite HN, HB. cbv zeta.
    fold tmp. fold input_path. fold sol_path.
    destruct (Z.ltb_spec (Z.of_nat (length argv)) 3); [lia|].
    destruct (Z.ltb_spec N 0); [lia|].
    rewrite (bool_decide_eq_true_2 (is_Some (files_start env !! input_path))) by done.
    cbn [negb andb]. fold samples.
    rewrite (bool_decide_eq_false_2 (is_Some (files_start env !! sol_path)))
      by (rewrite Hsol; apply is_Some_None).
    destruct (Z.ltb_spec B 0); [lia|]. cbn [negb andb].
    rewrite (reference_histogram_fault samples N B p v); [done| |done|done|done].
    apply read_ints_length. lia.
Qed.

Lemma input_cache_witness :
  let env := lab_with_cached_files in
  let samples :=
    read_ints (files_start env !! path_join "/tmp" ("input-" +:+ pretty 4 +:+ ".dat")) 4 in
  let e := tester.main 4 env ["./tester"; "4"; "1"] in
  if decide (Forall (fun v => 0 <= v < 1) samples)
  then exit_status e = Exit 0 /\ success env e /\
       files_end e !! path_join "/tmp" ("sol-" +:+ pretty 4 +:+ "-" +:+ pretty 1 +:+ ".dat")
       = Some (histogram_of 1 samples)
  else exit_status e = Crash.
Proof.
  apply (input_cache_is_keyed_by_N_alone 4 lab_with_cached_files ["./tester"; "4"; "1"] 4 1).
  - simpl. lia.
  - reflexivity.
  - reflexivity.
  - exact v100_capable.
  - lia.
  - lia.
  - simpl. lia.
  - exists [0; 1; 1; 0]. vm_compute. reflexivity.
  - vm_compute. reflexivity.
  - simpl. lia.
Defined.
